(** * Ray Train Horovod backend and the big-data ingestion example

    A shallow embedding of
    - [python/ray/train/backends/horovod.py] (module [Horovod]) and
    - [doc/source/data/_examples/big_data_ingestion.py] (module [Ingest]).

    Both files are glue code: they call into Ray, Horovod and the Python
    standard library.  The embedding keeps every such call as an event of a
    small free monad; the external world is an arbitrary function from the
    history of calls to the outcome (a value or an exception) of the next
    one.  Properties of the Python code are then properties of the history
    that [run] produces, for every such world. *)

From stdpp Require Import base option list gmap strings pretty.
From Stdlib Require Import ZArith Lia Ascii.

Open Scope Z_scope.

(** ** Python exceptions and call outcomes *)

Inductive exn : Type :=
  | ValueError (msg : string)
  | TypeError (msg : string)
  | IndexError
  | AttributeError (attr : string)
  | ZeroDivisionError
  | ExternalError (cls : string).

Inductive outcome (A : Type) : Type :=
  | Returned (a : A)
  | Raised (x : exn).
Arguments Returned {A} a.
Arguments Raised {A} x.

Definition returned {A} (o : outcome A) : bool :=
  match o with Returned _ => true | Raised _ => false end.

(** ** Programs: a free monad over external calls, with state and exceptions *)

Section Prog.
Context {E : Type -> Type} {S : Type}.

Inductive Prog (A : Type) : Type :=
  | Ret (a : A)
  | Raise (x : exn)
  | Get (k : S -> Prog A)
  | Put (s : S) (k : Prog A)
  | Call {R : Type} (e : E R) (k : R -> Prog A).
Arguments Ret {A} a.
Arguments Raise {A} x.
Arguments Get {A} k.
Arguments Put {A} s k.
Arguments Call {A R} e k.

Fixpoint bind {A B} (p : Prog A) (f : A -> Prog B) : Prog B :=
  match p with
  | Ret a => f a
  | Raise x => Raise x
  | Get k => Get (fun s => bind (k s) f)
  | Put s k => Put s (bind k f)
  | Call e k => Call e (fun r => bind (k r) f)
  end.

Definition call {R} (e : E R) : Prog R := Call e Ret.
Definition get : Prog S := Get Ret.
Definition put (s : S) : Prog unit := Put s (Ret tt).

(** One entry of the history: a call and how it ended. *)
Inductive Entry : Type :=
  | Log {R : Type} (e : E R) (o : outcome R).

(** The external world: given the calls made so far, the outcome of the
    next one. *)
Definition Oracle : Type := list Entry -> forall R, E R -> outcome R.

Fixpoint run {A} (w : Oracle) (p : Prog A) (s : S) (h : list Entry)
  : list Entry * S * outcome A :=
  match p with
  | Ret a => (h, s, Returned a)
  | Raise x => (h, s, Raised x)
  | Get k => run w (k s) s h
  | Put s' k => run w k s' h
  | Call e k =>
      match w h _ e with
      | Returned r => run w (k r) s (h ++ [Log e (Returned r)])
      | Raised x => (h ++ [Log e (Raised x)], s, Raised x)
      end
  end.

Definition trace {A} (r : list Entry * S * outcome A) : list Entry := r.1.1.
Definition final {A} (r : list Entry * S * outcome A) : S := r.1.2.
Definition result {A} (r : list Entry * S * outcome A) : outcome A := r.2.

(** The call of this entry returned. *)
Definition entry_returned (e : Entry) : bool :=
  match e with Log _ o => returned o end.
End Prog.

Arguments Prog : clear implicits.
Arguments Entry : clear implicits.
Arguments Oracle : clear implicits.
Arguments entry_returned {E} e.
Arguments Ret {E S A} a.
Arguments Raise {E S A} x.
Arguments Get {E S A} k.
Arguments Put {E S A} s k.
Arguments Call {E S A R} e k.

Declare Scope prog_scope.
Delimit Scope prog_scope with prog.
Notation "x ← y ; z" := (bind y (fun x : _ => z))
  (at level 20, y at level 100, z at level 200, only parsing) : prog_scope.
Notation "' x ← y ; z" := (bind y (fun x : _ => z))
  (at level 20, x pattern, y at level 100, z at level 200, only parsing) : prog_scope.
Notation "y ;; z" := (bind y (fun _ => z))
  (at level 100, z at level 200, only parsing, right associativity) : prog_scope.
Local Open Scope prog_scope.

(** A Python [for] loop over a list; [acc] carries the local variables the
    body rebinds or mutates. *)
Fixpoint for_ {E S B L} (xs : list B) (body : B -> L -> Prog E S L) (acc : L)
  : Prog E S L :=
  match xs with
  | [] => Ret acc
  | x :: xs' => bind (body x acc) (for_ xs' body)
  end.

(** Python's [range(n)] and [enumerate]. *)
Definition range (n : nat) : list nat := seq 0 n.
Definition enumerate {A} (l : list A) : list (nat * A) := imap (fun i x => (i, x)) l.


(** [a // b] on Python integers: floor division, [ZeroDivisionError] when
    the divisor is zero. *)
Definition floordiv {E S} (a b : Z) : Prog E S Z :=
  if decide (b = 0) then Raise ZeroDivisionError else Ret (a `div` b).

(** [l[i]] on a Python list with a non-negative index. *)
Definition getitem {E S A} (l : list A) (i : nat) : Prog E S A :=
  match l !! i with
  | Some x => Ret x
  | None => Raise IndexError
  end.

(** [triple P p Q X]: started in a history and state satisfying [P], the
    program [p] ends in [Q] when it returns and in [X] when it raises,
    whatever the external world answers. *)
Definition triple {E S A} (P : list (Entry E) -> S -> Prop) (p : Prog E S A)
    (Q : A -> list (Entry E) -> S -> Prop) (X : list (Entry E) -> S -> Prop) : Prop :=
  forall w h s, P h s ->
    match run w p s h with
    | (h', s', Returned a) => Q a h' s'
    | (h', s', Raised _) => X h' s'
    end.

(** The exceptions a program can raise by itself, whatever the state and
    whatever the calls return; the exceptions of the calls are not counted. *)
Fixpoint may_raise {E S A} (p : Prog E S A) (x : exn) : Prop :=
  match p with
  | Ret _ => False
  | Raise y => y = x
  | Get k => exists s, may_raise (k s) x
  | Put _ k => may_raise k x
  | Call e k => exists r, may_raise (k r) x
  end.

(** Three observations of a history at once: what [f], [g] and [k] pick
    out of its entries, in order. *)
Definition observed {E : Type -> Type} {A B C}
    (f : Entry E -> option A) (g : Entry E -> option B) (k : Entry E -> option C)
    (a : list A) (b : list B) (c : list C) (h : list (Entry E)) : Prop :=
  omap f h = a /\ omap g h = b /\ omap k h = c.

(** * python/ray/train/backends/horovod.py *)

Module Horovod.

(** Addresses of Python objects. *)
Definition loc := nat.

(** Handles of objects owned by Ray and by Horovod. *)
Inductive ObjectRef := ObjRef (id : nat).
Inductive CoordinatorRef := CoordRef (id : nat).

(** The dataclass [HorovodConfig]. *)
Record HorovodConfig := {
  nics : option (gset string);
  verbose : Z
}.

(** [ray.train.worker_group]: the fields of a worker that this file reads. *)
Record WorkerMetadata := { node_id : string; hostname : string }.
Record Worker := { metadata : WorkerMetadata }.
Record WorkerGroup := { workers : list Worker }.

(** Modelled from the spec: [WorkerGroup.__len__] is not in this file; a
    worker group "of n workers" has length n, the length of [workers]. *)
Definition len (worker_group : WorkerGroup) : nat := length (workers worker_group).

(** The names bound by the guarded import at the top of the file: all
    three are [None] when [horovod[ray]] cannot be imported. *)
Inductive callable := Callable.
Record Globals := {
  Coordinator : option callable;
  detect_nics : option callable;
  nics_to_env_var : option callable
}.
Definition import_horovod (installed : bool) : Globals :=
  if installed
  then {| Coordinator := Some Callable; detect_nics := Some Callable;
          nics_to_env_var := Some Callable |}
  else {| Coordinator := None; detect_nics := None; nics_to_env_var := None |}.

(** The instance [self] of [HorovodBackend]. *)
Record HorovodBackend := { coordinator : option CoordinatorRef }.
Definition share_cuda_visible_devices : bool := true.

(** The store: the configuration objects and the backend instance. *)
Record State := {
  heap : gmap loc HorovodConfig;
  self : HorovodBackend
}.

(** A function shipped to a worker together with its arguments. *)
Inductive RemoteCall :=
  | InitEnvVars (world_rank world_size : Z) (node_id : string)
  | UpdateEnvVars (env_vars : gmap string string).

(** The calls into Ray and Horovod. *)
Inductive RayE : Type -> Type :=
  | ExecuteSingleAsync (worker_index : Z) (f : RemoteCall) : RayE ObjectRef
  | RayGet (refs : list ObjectRef) : RayE unit
  | NewCoordinator (settings : loc) : RayE CoordinatorRef
  | Register (c : CoordinatorRef) (hostname node_id : string) (rank : Z) : RayE unit
  | FinalizeRegistration (c : CoordinatorRef) : RayE (list (Z * gmap string string))
  | EstablishRendezvous (c : CoordinatorRef) : RayE (gmap string string)
  | Hostnames (c : CoordinatorRef) : RayE (list string)
  | DetectNics (settings : loc) (all_host_names : list string)
      (node_workers : list Worker) : RayE (gset string)
  | NicsToEnvVar (nics : gset string) : RayE (gmap string string)
  | Execute (f : RemoteCall) : RayE unit.

Definition M := Prog RayE State.

(** Calling a module-level name that the guarded import left at [None]. *)
Definition callee (f : option callable) : M unit :=
  match f with
  | Some _ => Ret tt
  | None => Raise (TypeError "'NoneType' object is not callable")
  end.

(** ** HorovodConfig *)

Definition __post_init__ (g : Globals) (this : loc) : M unit :=
  match Coordinator g with
  | None =>
      Raise (ValueError
        "`horovod[ray]` is not installed. Please install 'horovod[ray]' to use this backend.")
  | Some _ => Ret tt
  end.

(** [HorovodConfig(nics=..., verbose=...)]: the generated [__init__]
    stores the fields (an omitted argument takes its default) and then
    runs [__post_init__]. *)
Definition HorovodConfig_new (g : Globals)
    (nics_arg : option (option (gset string))) (verbose_arg : option Z) : M loc :=
  s ← get;
  let this := fresh (dom (heap s)) in
  let obj := {| nics := default None nics_arg; verbose := default 1 verbose_arg |} in
  put {| heap := <[this := obj]> (heap s); self := self s |};;
  __post_init__ g this;;
  Ret this.

(** ** init_env_vars, run on a worker against its [os.environ] *)

(** [os.environ] as a finite map from names to values; a Python [str] is
    taken as the bytes [os.environ] stores for it. *)
Abbreviation Environ := (gmap string string) (only parsing).

(** Whether the byte [c] occurs in [v]. *)
Fixpoint occurs (c : ascii) (v : string) : bool :=
  match v with
  | EmptyString => false
  | String c' v' => Ascii.eqb c' c || occurs c v'
  end.

Definition embedded_null (v : string) : bool := occurs "000" v.

(** [os.environ[name] = value].  The assignment goes through [putenv],
    which raises [ValueError] for a NUL byte in the name or in the value
    and for an [=] in the name, and [OSError] for an empty name; nothing
    is written then. *)
Definition environ_setitem {E} (name value : string) : Prog E Environ unit :=
  if embedded_null name || embedded_null value
  then Raise (ValueError "embedded null byte")
  else if occurs "=" name
  then Raise (ValueError "illegal environment variable name")
  else if String.eqb name EmptyString
  then Raise (ExternalError "OSError")
  else environ ← get; put (<[name := value]> environ).

(** The decimal string of an [int]. *)
Definition decimal (n : Z) : string := pretty n.

(** [sys.get_int_max_str_digits()], at its default. *)
Definition int_max_str_digits : Z := 4300.

(** [str(n)] for an [int]: its decimal string, and [ValueError] when [n]
    has more digits than [int_max_str_digits], the sign not counted, that
    is when [10 ^ int_max_str_digits <= |n|]. *)
Definition too_many_digits : exn :=
  ValueError
    "Exceeds the limit (4300 digits) for integer string conversion; use sys.set_int_max_str_digits() to increase the limit".

Definition str {E S} (n : Z) : Prog E S string :=
  if decide (10 ^ int_max_str_digits <= Z.abs n)
  then Raise too_many_digits
  else Ret (decimal n).

Definition init_env_vars {E} (world_rank world_size : Z) (node_id : string)
  : Prog E Environ unit :=
  environ_setitem "HOROVOD_HOSTNAME" node_id;;
  rank ← str world_rank;
  environ_setitem "HOROVOD_RANK" rank;;
  size ← str world_size;
  environ_setitem "HOROVOD_SIZE" size.

(** ** HorovodBackend.on_start *)

Definition set_coordinator (c : CoordinatorRef) : M unit :=
  s ← get; put {| heap := heap s; self := {| coordinator := Some c |} |}.

Definition get_coordinator : M CoordinatorRef :=
  s ← get;
  match coordinator (self s) with
  | Some c => Ret c
  | None => Raise (AttributeError "coordinator")
  end.

Definition on_start (g : Globals) (worker_group : WorkerGroup) (backend_config : loc)
  : M unit :=
  (* Initialize workers with Horovod environment variables *)
  setup_futures ← for_ (range (len worker_group)) (fun rank setup_futures =>
    w ← getitem (workers worker_group) rank;
    let worker_node_id := node_id (metadata w) in
    fut ← call (ExecuteSingleAsync (Z.of_nat rank)
                  (InitEnvVars (Z.of_nat rank) (Z.of_nat (len worker_group))
                     worker_node_id));
    Ret (setup_futures ++ [fut])) [];
  call (RayGet setup_futures);;
  (* Use Horovod Ray Coordinator, backend_config as settings *)
  callee (Coordinator g);;
  c ← call (NewCoordinator backend_config);
  set_coordinator c;;
  (* Get all the hostnames of all workers *)
  let node_ids := (fun w => node_id (metadata w)) <$> workers worker_group in
  let hostnames := (fun w => hostname (metadata w)) <$> workers worker_group in
  (* Register each hostname to the coordinator *)
  for_ (enumerate (zip hostnames node_ids)) (fun '(rank, (hostname, node_id)) _ =>
    c ← get_coordinator;
    call (Register c hostname node_id (Z.of_nat rank))) tt;;
  c ← get_coordinator;
  all_info ← call (FinalizeRegistration c);
  setup_futures ← for_ all_info (fun '(rank, local_cross_env_var) setup_futures =>
    fut ← call (ExecuteSingleAsync rank (UpdateEnvVars local_cross_env_var));
    Ret (setup_futures ++ [fut])) [];
  call (RayGet setup_futures);;
  c ← get_coordinator;
  coordinator_envs ← call (EstablishRendezvous c);
  c ← get_coordinator;
  all_host_names ← call (Hostnames c);
  callee (detect_nics g);;
  nics ← call (DetectNics backend_config all_host_names (workers worker_group));
  callee (nics_to_env_var g);;
  nics_env ← call (NicsToEnvVar nics);
  (* dict.update: the keys of the argument win *)
  let coordinator_envs := nics_env ∪ coordinator_envs in
  call (Execute (UpdateEnvVars coordinator_envs)).

(** ** Observations on a history of calls *)

(** The arguments of the [register] calls, in the order they were made. *)
Definition registration (e : Entry RayE) : option (string * string * Z) :=
  match e with
  | Log (Register _ hostname node_id rank) _ => Some (hostname, node_id, rank)
  | _ => None
  end.
Definition registrations (h : list (Entry RayE)) : list (string * string * Z) :=
  omap registration h.

(** What the worker group's enumeration order asks for: worker [rank]'s
    hostname and node id, with [rank]. *)
Definition expected_registrations (worker_group : WorkerGroup)
  : list (string * string * Z) :=
  imap (fun rank w => (hostname (metadata w), node_id (metadata w), Z.of_nat rank))
       (workers worker_group).

(** The broadcast [worker_group.execute(update_env_vars, ...)]. *)
Definition is_final_propagation (e : Entry RayE) : bool :=
  match e with
  | Log (Execute (UpdateEnvVars _)) _ => true
  | _ => false
  end.
Definition rendezvous_completed (e : Entry RayE) : bool :=
  match e with
  | Log (EstablishRendezvous _) (Returned _) => true
  | _ => false
  end.
Definition nics_detected (e : Entry RayE) : bool :=
  match e with
  | Log (DetectNics _ _ _) (Returned _) => true
  | _ => false
  end.

(** Every final propagation in the history comes after a rendezvous and
    a network-interface detection that have returned. *)
Definition final_propagation_guarded (h : list (Entry RayE)) : Prop :=
  forall pre e post, h = pre ++ e :: post -> is_final_propagation e = true ->
    existsb rendezvous_completed pre = true /\ existsb nics_detected pre = true.

(** The seven steps of the handshake. *)
Inductive Step :=
  | SeedEnv | BuildCoordinator | RegisterHosts | FinalizeReg
  | CrossEnv | Rendezvous | NicsAndFinalEnv.

Definition step_index (st : Step) : nat :=
  match st with
  | SeedEnv => 1 | BuildCoordinator => 2 | RegisterHosts => 3 | FinalizeReg => 4
  | CrossEnv => 5 | Rendezvous => 6 | NicsAndFinalEnv => 7
  end%nat.

Definition request_step (f : RemoteCall) : Step :=
  match f with
  | InitEnvVars _ _ _ => SeedEnv
  | UpdateEnvVars _ => CrossEnv
  end.

(** The step a call belongs to.  [ray.get] is the wait that closes a
    request phase and starts no step of its own. *)
Definition step_of (e : Entry RayE) : option Step :=
  match e with
  | Log (ExecuteSingleAsync _ f) _ => Some (request_step f)
  | Log (RayGet _) _ => None
  | Log (NewCoordinator _) _ => Some BuildCoordinator
  | Log (Register _ _ _ _) _ => Some RegisterHosts
  | Log (FinalizeRegistration _) _ => Some FinalizeReg
  | Log (EstablishRendezvous _) _ => Some Rendezvous
  | Log (Hostnames _) _ => Some NicsAndFinalEnv
  | Log (DetectNics _ _ _) _ => Some NicsAndFinalEnv
  | Log (NicsToEnvVar _) _ => Some NicsAndFinalEnv
  | Log (Execute _) _ => Some NicsAndFinalEnv
  end.
Definition steps (h : list (Entry RayE)) : list nat :=
  omap (fun e => step_index <$> step_of e) h.

(** A list of step numbers that never goes back. *)
Definition in_order (l : list nat) : Prop :=
  forall i j a b, (i < j)%nat -> l !! i = Some a -> l !! j = Some b -> (a <= b)%nat.

(** The requests still outstanding after a history: a request is
    outstanding from the return of [execute_single_async] until a
    [ray.get] over its reference returns. *)
Definition ObjectRef_eqb (a b : ObjectRef) : bool :=
  match a, b with ObjRef i, ObjRef j => Nat.eqb i j end.
Definition awaited (refs : list ObjectRef) (r : ObjectRef) : bool :=
  existsb (ObjectRef_eqb r) refs.
Definition pending_step (p : list (Step * ObjectRef)) (e : Entry RayE)
  : list (Step * ObjectRef) :=
  match e with
  | Log (ExecuteSingleAsync _ f) (Returned r) => p ++ [(request_step f, r)]
  | Log (RayGet refs) (Returned _) => filter (fun q => awaited refs q.2 = false) p
  | _ => p
  end.
Definition pending (h : list (Entry RayE)) : list (Step * ObjectRef) :=
  fold_left pending_step h [].

(** No call of a step is made while a request of an earlier step is
    outstanding. *)
Definition phases_separated (h : list (Entry RayE)) : Prop :=
  forall pre e post st, h = pre ++ e :: post -> step_of e = Some st ->
    Forall (fun q => (step_index st <= step_index q.1)%nat) (pending pre).

(** The seven steps as they appear in the history of a handshake that
    ran to its end: the calls of each step with what they returned. *)
Definition seed_requests (worker_group : WorkerGroup) (futs : list ObjectRef)
  : list (Entry RayE) :=
  zip_with (fun '(rank, w) fut =>
      Log (ExecuteSingleAsync (Z.of_nat rank)
             (InitEnvVars (Z.of_nat rank) (Z.of_nat (len worker_group))
                (node_id (metadata w))))
          (Returned fut))
    (enumerate (workers worker_group)) futs.
Definition seed_step (worker_group : WorkerGroup) (futs : list ObjectRef)
  : list (Entry RayE) :=
  seed_requests worker_group futs ++ [Log (RayGet futs) (Returned tt)].
Definition build_step (backend_config : loc) (c : CoordinatorRef)
  : list (Entry RayE) :=
  [Log (NewCoordinator backend_config) (Returned c)].
Definition register_step (worker_group : WorkerGroup) (c : CoordinatorRef)
  : list (Entry RayE) :=
  (fun '(rank, w) =>
     Log (Register c (hostname (metadata w)) (node_id (metadata w)) (Z.of_nat rank))
         (Returned tt)) <$> enumerate (workers worker_group).
Definition finalize_step (c : CoordinatorRef)
    (all_info : list (Z * gmap string string)) : list (Entry RayE) :=
  [Log (FinalizeRegistration c) (Returned all_info)].
Definition cross_requests (all_info : list (Z * gmap string string))
    (futs : list ObjectRef) : list (Entry RayE) :=
  zip_with (fun '(rank, local_cross_env_var) fut =>
      Log (ExecuteSingleAsync rank (UpdateEnvVars local_cross_env_var)) (Returned fut))
    all_info futs.
Definition cross_step (all_info : list (Z * gmap string string))
    (futs : list ObjectRef) : list (Entry RayE) :=
  cross_requests all_info futs ++ [Log (RayGet futs) (Returned tt)].
Definition rendezvous_step (c : CoordinatorRef) (coordinator_envs : gmap string string)
  : list (Entry RayE) :=
  [Log (EstablishRendezvous c) (Returned coordinator_envs)].
Definition nics_step (worker_group : WorkerGroup) (backend_config : loc)
    (c : CoordinatorRef) (coordinator_envs : gmap string string)
    (all_host_names : list string) (nics : gset string)
    (nics_env : gmap string string) : list (Entry RayE) :=
  [Log (Hostnames c) (Returned all_host_names);
   Log (DetectNics backend_config all_host_names (workers worker_group)) (Returned nics);
   Log (NicsToEnvVar nics) (Returned nics_env);
   Log (Execute (UpdateEnvVars (nics_env ∪ coordinator_envs))) (Returned tt)].

Definition handshake (worker_group : WorkerGroup) (backend_config : loc)
    (futs1 : list ObjectRef) (c : CoordinatorRef)
    (all_info : list (Z * gmap string string)) (futs2 : list ObjectRef)
    (coordinator_envs : gmap string string) (all_host_names : list string)
    (nics : gset string) (nics_env : gmap string string) : list (Entry RayE) :=
  seed_step worker_group futs1
  ++ build_step backend_config c
  ++ register_step worker_group c
  ++ finalize_step c all_info
  ++ cross_step all_info futs2
  ++ rendezvous_step c coordinator_envs
  ++ nics_step worker_group backend_config c coordinator_envs all_host_names nics nics_env.

(** The history ends with an external call that raised. *)
Definition raised_by_call (h : list (Entry RayE)) : Prop :=
  exists h' R (e : RayE R) x, h = h' ++ [Log e (Raised x)].

(** The settings object handed to each [Coordinator(...)] call. *)
Definition coordinator_settings (h : list (Entry RayE)) : list loc :=
  omap (fun e => match e with
                 | Log (NewCoordinator settings) _ => Some settings
                 | _ => None
                 end) h.

(** ** More observations on a history of calls *)

(** The seeding requests: the worker index and the arguments of
    [init_env_vars]. *)
Definition seed_call (e : Entry RayE) : option (Z * Z * Z * string) :=
  match e with
  | Log (ExecuteSingleAsync i (InitEnvVars world_rank world_size node_id)) _ =>
      Some (i, world_rank, world_size, node_id)
  | _ => None
  end.
Definition seed_calls (h : list (Entry RayE)) : list (Z * Z * Z * string) :=
  omap seed_call h.

Definition expected_seed_calls (worker_group : WorkerGroup) : list (Z * Z * Z * string) :=
  imap (fun rank w => (Z.of_nat rank, Z.of_nat rank, Z.of_nat (len worker_group),
                       node_id (metadata w)))
       (workers worker_group).

(** The reference lists handed to [ray.get]. *)
Definition wait (e : Entry RayE) : option (list ObjectRef) :=
  match e with
  | Log (RayGet refs) _ => Some refs
  | _ => None
  end.
Definition waits (h : list (Entry RayE)) : list (list ObjectRef) := omap wait h.

(** The coordinators that [Coordinator(...)] returned, and the coordinator
    each method call was made on. *)
Definition coordinator_built (e : Entry RayE) : option CoordinatorRef :=
  match e with
  | Log call o =>
      match call in RayE R return outcome R -> option CoordinatorRef with
      | NewCoordinator _ => fun o => match o with
                                     | Returned c => Some c
                                     | Raised _ => None
                                     end
      | _ => fun _ => None
      end o
  end.
Definition coordinators_built (h : list (Entry RayE)) : list CoordinatorRef :=
  omap coordinator_built h.

Definition coordinator_used (e : Entry RayE) : option CoordinatorRef :=
  match e with
  | Log (Register c _ _ _) _ => Some c
  | Log (FinalizeRegistration c) _ => Some c
  | Log (EstablishRendezvous c) _ => Some c
  | Log (Hostnames c) _ => Some c
  | _ => None
  end.
Definition coordinators_used (h : list (Entry RayE)) : list CoordinatorRef :=
  omap coordinator_used h.

(** What [finalize_registration] returned, and the per-rank requests. *)
Definition all_info_returned (e : Entry RayE) : option (list (Z * gmap string string)) :=
  match e with
  | Log call o =>
      match call in RayE R return outcome R -> option (list (Z * gmap string string)) with
      | FinalizeRegistration _ => fun o => match o with
                                           | Returned info => Some info
                                           | Raised _ => None
                                           end
      | _ => fun _ => None
      end o
  end.
Definition all_infos (h : list (Entry RayE)) : list (list (Z * gmap string string)) :=
  omap all_info_returned h.

Definition cross_call (e : Entry RayE) : option (Z * gmap string string) :=
  match e with
  | Log (ExecuteSingleAsync rank (UpdateEnvVars env_vars)) _ => Some (rank, env_vars)
  | _ => None
  end.
Definition cross_calls (h : list (Entry RayE)) : list (Z * gmap string string) :=
  omap cross_call h.

(** What [establish_rendezvous] and [nics_to_env_var] returned, and the
    environment of each broadcast. *)
Definition rendezvous_env (e : Entry RayE) : option (gmap string string) :=
  match e with
  | Log call o =>
      match call in RayE R return outcome R -> option (gmap string string) with
      | EstablishRendezvous _ => fun o => match o with
                                          | Returned envs => Some envs
                                          | Raised _ => None
                                          end
      | _ => fun _ => None
      end o
  end.
Definition rendezvous_envs (h : list (Entry RayE)) : list (gmap string string) :=
  omap rendezvous_env h.

Definition nic_env (e : Entry RayE) : option (gmap string string) :=
  match e with
  | Log call o =>
      match call in RayE R return outcome R -> option (gmap string string) with
      | NicsToEnvVar _ => fun o => match o with
                                   | Returned envs => Some envs
                                   | Raised _ => None
                                   end
      | _ => fun _ => None
      end o
  end.
Definition nic_envs (h : list (Entry RayE)) : list (gmap string string) :=
  omap nic_env h.

Definition broadcast (e : Entry RayE) : option (gmap string string) :=
  match e with
  | Log (Execute (UpdateEnvVars env_vars)) _ => Some env_vars
  | _ => None
  end.
Definition broadcasts (h : list (Entry RayE)) : list (gmap string string) :=
  omap broadcast h.

(** Nothing observed: the third observation where two are enough. *)
Definition nothing (e : Entry RayE) : option unit := None.

(** ** Invariants of the handshake, used in the proofs *)

(** No coordinator has been built and the state is as at the start. *)
Definition unbuilt (s0 : State) (h : list (Entry RayE)) (s : State) : Prop :=
  observed coordinator_built coordinator_used nothing [] [] [] h /\ s = s0.

(** Coordinator [c] has been built and stored in [self], and every method
    call so far was made on it. *)
Definition built_as (s0 : State) (c : CoordinatorRef) (h : list (Entry RayE))
    (s : State) : Prop :=
  (exists u, observed coordinator_built coordinator_used nothing [c] u [] h /\
             Forall (eq c) u) /\
  s = {| heap := heap s0; self := {| coordinator := Some c |} |}.


(** Nothing has been broadcast yet. *)
Definition quiet (h : list (Entry RayE)) : Prop := Forall (fun e => is_final_propagation e = false) h.

(** The steps so far are in order and none is beyond step [k]. *)
Definition upto (k : nat) (h : list (Entry RayE)) : Prop :=
  in_order (steps h) /\ Forall (fun a => (a <= k)%nat) (steps h).

(** Between two request phases nothing is outstanding. *)
Definition idle (h : list (Entry RayE)) : Prop := phases_separated h /\ pending h = [].

(** Inside the request phase of step [st]: everything outstanding belongs
    to [st] and is among the references [acc] collected for [ray.get]. *)
Definition busy (st : Step) (acc : list ObjectRef) (h : list (Entry RayE)) : Prop :=
  phases_separated h /\
  Forall (fun q => q.1 = st /\ awaited acc q.2 = true) (pending h).

(** ** A small cluster to run the code on *)

Definition example_group : WorkerGroup :=
  {| workers :=
       [ {| metadata := {| node_id := "node-a"; hostname := "host-a" |} |};
         {| metadata := {| node_id := "node-a"; hostname := "host-a" |} |};
         {| metadata := {| node_id := "node-b"; hostname := "host-b" |} |} ] |}.

(** A world in which every call returns. *)
Definition example_world : Oracle RayE := fun h R e =>
  match e in RayE R return outcome R with
  | ExecuteSingleAsync _ _ => Returned (ObjRef (length h))
  | RayGet _ => Returned tt
  | NewCoordinator _ => Returned (CoordRef 0)
  | Register _ _ _ _ => Returned tt
  | FinalizeRegistration _ =>
      Returned [(0, {["HOROVOD_CROSS_RANK" := "0"]});
                (1, {["HOROVOD_CROSS_RANK" := "0"]});
                (2, {["HOROVOD_CROSS_RANK" := "1"]})]
  | EstablishRendezvous _ => Returned {["HOROVOD_GLOO_RENDEZVOUS_PORT" := "4242"]}
  | Hostnames _ => Returned ["host-a"; "host-b"]
  | DetectNics _ _ _ => Returned {["eth0"]}
  | NicsToEnvVar _ => Returned {["HOROVOD_GLOO_IFACE" := "eth0"]}
  | Execute _ => Returned tt
  end.

Definition example_state : State :=
  {| heap := {[ 0%nat := {| nics := None; verbose := 1 |} ]};
     self := {| coordinator := None |} |}.

(** A world in which the rendezvous fails and every other call returns. *)
Definition failing_world : Oracle RayE := fun h R e =>
  match e in RayE R return outcome R with
  | EstablishRendezvous _ => Raised (ExternalError "RuntimeError")
  | e' => example_world h _ e'
  end.

End Horovod.

(** * doc/source/data/_examples/big_data_ingestion.py *)

Module Ingest.

(** Handles of the objects Ray gives back: datasources, datasets,
    pipelines, actors, object references, and the floats of [time.time()]. *)
Inductive Obj := Handle (id : nat).

(** [TrainingWorker] and [TrainingWorker.options(num_gpus=...)]. *)
Inductive ActorClass :=
  | TrainingWorker
  | TrainingWorker_options (num_gpus : Z).

(** The line printed at the end of a run: [now - start] seconds. *)
Inductive Message := TotalIngestionTime (now start : Obj).

(** The calls into Ray and the Python standard library. *)
Inductive IngestE : Type -> Type :=
  | RayInit (address : option string) : IngestE unit
  | Mkdtemp : IngestE string
  | RandomIntRowDatasource : IngestE Obj
  | ReadDatasource (datasource : Obj) (n num_columns : Z)
      (_spread_resource_prefix : option string) : IngestE Obj
  | WriteParquet (ds : Obj) (path : string) : IngestE unit
  | ReadParquet (path : string) : IngestE Obj
  | Repeat (ds : Obj) (times : Z) : IngestE Obj
  | RandomShuffleEachWindow (pipe : Obj)
      (_spread_resource_prefix : option string) : IngestE Obj
  | Split (pipe : Obj) (n : Z) (equal : bool) : IngestE (list Obj)
  | ActorRemote (cls : ActorClass) (rank : Z) (shard : Obj) : IngestE Obj
  | TrainRemote (worker : Obj) : IngestE Obj
  | RayGet (refs : list Obj) : IngestE unit
  | TimeTime : IngestE Obj
  | PrintLine (msg : Message) : IngestE unit.

Definition M := Prog IngestE unit.

Definition create_shuffle_pipeline (training_data_dir : string)
    (num_epochs num_shards : Z) : M (list Obj) :=
  ds ← call (ReadParquet training_data_dir);
  pipe ← call (Repeat ds num_epochs);
  pipe ← call (RandomShuffleEachWindow pipe None);
  call (Split pipe num_shards true).

(** [[C.remote(rank, shard) for rank, shard in enumerate(splits)]] *)
Definition start_workers (cls : ActorClass) (splits : list Obj) : M (list Obj) :=
  for_ (enumerate splits) (fun '(rank, shard) training_workers =>
    worker ← call (ActorRemote cls (Z.of_nat rank) shard);
    Ret (training_workers ++ [worker])) [].

(** [ray.get([worker.train.remote() for worker in training_workers])] *)
Definition train_all (training_workers : list Obj) : M unit :=
  refs ← for_ training_workers (fun worker refs =>
    ref ← call (TrainRemote worker);
    Ret (refs ++ [ref])) [];
  call (RayGet refs).

(** The branch taken without [--large-scale-test]. *)
Module Small.
Definition NUM_TRAINING_WORKERS : Z := 4.
Definition NUM_EPOCHS : Z := 5.
Definition NUM_COLUMNS : Z := 10.
Definition SIZE_100MiB : Z := 100 * 1024 * 1024.

Definition generate_example_files (size_bytes : Z) : M string :=
  tmpdir ← call Mkdtemp;
  datasource ← call RandomIntRowDatasource;
  q ← floordiv size_bytes 8;
  n ← floordiv q NUM_COLUMNS;
  ds ← call (ReadDatasource datasource n NUM_COLUMNS None);
  call (WriteParquet ds tmpdir);;
  Ret tmpdir.

Definition run : M unit :=
  call (RayInit None);;
  example_files_dir ← generate_example_files SIZE_100MiB;
  splits ← create_shuffle_pipeline example_files_dir NUM_EPOCHS NUM_TRAINING_WORKERS;
  training_workers ← start_workers TrainingWorker splits;
  start ← call TimeTime;
  train_all training_workers;;
  now ← call TimeTime;
  call (PrintLine (TotalIngestionTime now start)).
End Small.

Definition create_large_shuffle_pipeline (data_size_bytes num_epochs num_columns
    num_shards : Z) : M (list Obj) :=
  datasource ← call RandomIntRowDatasource;
  q ← floordiv data_size_bytes 8;
  n ← floordiv q num_columns;
  ds ← call (ReadDatasource datasource n num_columns (Some "node:"));
  pipe ← call (Repeat ds num_epochs);
  pipe ← call (RandomShuffleEachWindow pipe (Some "node:"));
  call (Split pipe num_shards true).

(** The branch taken with [--large-scale-test]. *)
Module Large.
Definition NUM_TRAINING_WORKERS : Z := 16.
Definition NUM_EPOCHS : Z := 5.
Definition NUM_COLUMNS : Z := 10.
Definition SIZE_500GiB : Z := 500 * 1024 * 1024 * 1024.

Definition run : M unit :=
  call (RayInit (Some "auto"));;
  splits ← create_large_shuffle_pipeline SIZE_500GiB NUM_EPOCHS NUM_COLUMNS
             NUM_TRAINING_WORKERS;
  training_workers ← start_workers (TrainingWorker_options 1) splits;
  start ← call TimeTime;
  train_all training_workers;;
  now ← call TimeTime;
  call (PrintLine (TotalIngestionTime now start)).
End Large.

(** The script from the first [if] on, given [args.large_scale_test] as
    [argparse] returned it for the [store_true] option [--large-scale-test]
    ([True] when the flag is given, [False] when it is not). *)
Definition main (large_scale_test : bool) : M unit :=
  (if negb large_scale_test then Small.run else Ret tt);;
  (if large_scale_test then Large.run else Ret tt).

(** ** Observations on a history of calls *)

Definition ray_inits (h : list (Entry IngestE)) : list (option string) :=
  omap (fun e => match e with
                 | Log (RayInit address) _ => Some address
                 | _ => None
                 end) h.

(** The row count [n] of every [read_datasource] call. *)
Definition rows_requested (h : list (Entry IngestE)) : list Z :=
  omap (fun e => match e with
                 | Log (ReadDatasource _ n _ _) _ => Some n
                 | _ => None
                 end) h.

(** What one run is configured with. *)
Record Config := {
  address : option string;
  rows : Z;
  columns : Z;
  shards : Z;
  worker_class : ActorClass
}.

Definition small_config : Config :=
  {| address := None;
     rows := (Small.SIZE_100MiB `div` 8) `div` Small.NUM_COLUMNS;
     columns := Small.NUM_COLUMNS;
     shards := Small.NUM_TRAINING_WORKERS;
     worker_class := TrainingWorker |}.

Definition large_config : Config :=
  {| address := Some "auto";
     rows := (Large.SIZE_500GiB `div` 8) `div` Large.NUM_COLUMNS;
     columns := Large.NUM_COLUMNS;
     shards := Large.NUM_TRAINING_WORKERS;
     worker_class := TrainingWorker_options 1 |}.

Definition ActorClass_eqb (a b : ActorClass) : bool :=
  match a, b with
  | TrainingWorker, TrainingWorker => true
  | TrainingWorker_options m, TrainingWorker_options n => Z.eqb m n
  | _, _ => false
  end.

Definition address_eqb (a b : option string) : bool :=
  match a, b with
  | None, None => true
  | Some x, Some y => String.eqb x y
  | _, _ => false
  end.

(** A call that sets up the cluster, the data, the shards or the workers
    does so with the values of configuration [cfg]. *)
Definition conforms (cfg : Config) (e : Entry IngestE) : bool :=
  match e with
  | Log (RayInit a) _ => address_eqb a (address cfg)
  | Log (ReadDatasource _ n c _) _ => Z.eqb n (rows cfg) && Z.eqb c (columns cfg)
  | Log (Split _ n equal) _ => Z.eqb n (shards cfg) && equal
  | Log (ActorRemote cls _ _) _ => ActorClass_eqb cls (worker_class cfg)
  | _ => true
  end.

(** The list of shards each [split] call returned. *)
Definition shards_returned (h : list (Entry IngestE)) : list (list Obj) :=
  omap (fun e => match e with
                 | Log call o =>
                     match call in IngestE R return outcome R -> option (list Obj) with
                     | Split _ _ _ => fun o => match o with
                                               | Returned l => Some l
                                               | Raised _ => None
                                               end
                     | _ => fun _ => None
                     end o
                 end) h.

(** The class, rank and shard of every actor creation. *)
Definition workers_created (h : list (Entry IngestE)) : list (ActorClass * Z * Obj) :=
  omap (fun e => match e with
                 | Log (ActorRemote cls rank shard) _ => Some (cls, rank, shard)
                 | _ => None
                 end) h.

Definition one_worker_per_shard (cls : ActorClass) (splits : list Obj)
  : list (ActorClass * Z * Obj) :=
  imap (fun rank shard => (cls, Z.of_nat rank, shard)) splits.

(** The configuration that the flag selects. *)
Definition config (large_scale_test : bool) : Config :=
  if large_scale_test then large_config else small_config.

(** Repeat, shuffle each window, split: the part of the chain both
    pipelines share, with what each call returned. *)
Definition chain (ds : Obj) (num_epochs : Z) (spread : option string) (num_shards : Z)
    (repeated shuffled : Obj) (result : list Obj) : list (Entry IngestE) :=
  [Log (Repeat ds num_epochs) (Returned repeated);
   Log (RandomShuffleEachWindow repeated spread) (Returned shuffled);
   Log (Split shuffled num_shards true) (Returned result)].

(** The calls both branches end with, in a run where they all return:
    one actor per shard, created with its rank and its shard; the first
    reading of the clock; one training request per actor; [ray.get] on
    the references of those requests; the second reading of the clock and
    the line printed from the two readings. *)
Definition actor_creations (cls : ActorClass) (splits ws : list Obj)
  : list (Entry IngestE) :=
  zip_with (fun '(rank, shard) worker =>
      Log (ActorRemote cls (Z.of_nat rank) shard) (Returned worker))
    (enumerate splits) ws.

Definition training_requests (ws refs : list Obj) : list (Entry IngestE) :=
  zip_with (fun worker ref => Log (TrainRemote worker) (Returned ref)) ws refs.

Definition training_calls (cls : ActorClass) (splits ws refs : list Obj)
    (start now : Obj) : list (Entry IngestE) :=
  actor_creations cls splits ws
  ++ [Log TimeTime (Returned start)]
  ++ training_requests ws refs
  ++ [Log (RayGet refs) (Returned tt);
      Log TimeTime (Returned now);
      Log (PrintLine (TotalIngestionTime now start)) (Returned tt)].

(** The whole history of the small run and of the large run when every
    call returns, with what each call returned. *)
Definition small_calls (tmpdir : string) (datasource generated ds repeated shuffled : Obj)
    (splits ws refs : list Obj) (start now : Obj) : list (Entry IngestE) :=
  [Log (RayInit None) (Returned tt);
   Log Mkdtemp (Returned tmpdir);
   Log RandomIntRowDatasource (Returned datasource);
   Log (ReadDatasource datasource
          ((Small.SIZE_100MiB `div` 8) `div` Small.NUM_COLUMNS) Small.NUM_COLUMNS None)
       (Returned generated);
   Log (WriteParquet generated tmpdir) (Returned tt);
   Log (ReadParquet tmpdir) (Returned ds)]
  ++ chain ds Small.NUM_EPOCHS None Small.NUM_TRAINING_WORKERS repeated shuffled splits
  ++ training_calls TrainingWorker splits ws refs start now.

Definition large_calls (datasource ds repeated shuffled : Obj)
    (splits ws refs : list Obj) (start now : Obj) : list (Entry IngestE) :=
  [Log (RayInit (Some "auto")) (Returned tt);
   Log RandomIntRowDatasource (Returned datasource);
   Log (ReadDatasource datasource
          ((Large.SIZE_500GiB `div` 8) `div` Large.NUM_COLUMNS) Large.NUM_COLUMNS
          (Some "node:"))
       (Returned ds)]
  ++ chain ds Large.NUM_EPOCHS (Some "node:") Large.NUM_TRAINING_WORKERS
       repeated shuffled splits
  ++ training_calls (TrainingWorker_options 1) splits ws refs start now.

(** ** More observations on a history of calls *)

(** Calls that create, write or read files. *)
Definition touches_files (e : Entry IngestE) : bool :=
  match e with
  | Log Mkdtemp _ => true
  | Log (WriteParquet _ _) _ => true
  | Log (ReadParquet _) _ => true
  | _ => false
  end.

(** Calls that pass [_spread_resource_prefix]. *)
Definition spreads (e : Entry IngestE) : bool :=
  match e with
  | Log (ReadDatasource _ _ _ (Some _)) _ => true
  | Log (RandomShuffleEachWindow _ (Some _)) _ => true
  | _ => false
  end.

(** The directory [mkdtemp] returned, the paths [write_parquet] has
    finished writing, and the paths given to [read_parquet]. *)
Definition tmpdir_made (e : Entry IngestE) : option string :=
  match e with
  | Log call o =>
      match call in IngestE R return outcome R -> option string with
      | Mkdtemp => fun o => match o with
                            | Returned d => Some d
                            | Raised _ => None
                            end
      | _ => fun _ => None
      end o
  end.

Definition parquet_written (e : Entry IngestE) : option string :=
  match e with
  | Log (WriteParquet _ path) (Returned _) => Some path
  | _ => None
  end.

Definition parquet_read (e : Entry IngestE) : option string :=
  match e with
  | Log (ReadParquet path) _ => Some path
  | _ => None
  end.

Definition tmpdirs_made (h : list (Entry IngestE)) : list string := omap tmpdir_made h.
Definition parquets_written (h : list (Entry IngestE)) : list string :=
  omap parquet_written h.
Definition parquets_read (h : list (Entry IngestE)) : list string := omap parquet_read h.

(** The lines both branches end with: one worker per shard, then the
    timed training of all of them.  [Small.run] and [Large.run] are their
    own first lines followed by this. *)
Definition timed_training (cls : ActorClass) (splits : list Obj) : M unit :=
  training_workers ← start_workers cls splits;
  start ← call TimeTime;
  train_all training_workers;;
  now ← call TimeTime;
  call (PrintLine (TotalIngestionTime now start)).

(** The calls of those lines. *)
Definition training_call (e : Entry IngestE) : bool :=
  match e with
  | Log (ActorRemote _ _ _) _ => true
  | Log (TrainRemote _) _ => true
  | Log (RayGet _) _ => true
  | Log TimeTime _ => true
  | Log (PrintLine _) _ => true
  | _ => false
  end.

(** What the run leaves in the history from [split] on: the shards
    [split] returned, the actors created with their class, rank and
    shard, the readings of the clock, the training requests with the
    references they returned, the lists [ray.get] was given and the lines
    printed. *)
Inductive Event :=
  | Built (splits : list Obj)
  | Created (cls : ActorClass) (rank : Z) (shard worker : Obj)
  | Clock (t : Obj)
  | Asked (worker ref : Obj)
  | Waited (refs : list Obj)
  | Printed (msg : Message).

Definition event (e : Entry IngestE) : option Event :=
  match e with
  | Log call o =>
      match call in IngestE R return outcome R -> option Event with
      | Split _ _ _ => fun o => match o with
                                | Returned l => Some (Built l)
                                | Raised _ => None
                                end
      | ActorRemote cls rank shard =>
          fun o => match o with
                   | Returned a => Some (Created cls rank shard a)
                   | Raised _ => None
                   end
      | TimeTime => fun o => match o with
                             | Returned t => Some (Clock t)
                             | Raised _ => None
                             end
      | TrainRemote worker => fun o => match o with
                                       | Returned r => Some (Asked worker r)
                                       | Raised _ => None
                                       end
      | RayGet refs => fun _ => Some (Waited refs)
      | PrintLine msg => fun _ => Some (Printed msg)
      | _ => fun _ => None
      end o
  end.

Definition timeline (h : list (Entry IngestE)) : list Event := omap event h.

(** The actors created for the shards [splits]: one per shard, in order,
    with the shard's index as rank. *)
Definition creations (cls : ActorClass) (splits ws : list Obj) : list Event :=
  zip_with (fun '(rank, shard) worker => Created cls (Z.of_nat rank) shard worker)
    (enumerate splits) ws.

(** The timeline of a run in which every call returns. *)
Definition training_run (cls : ActorClass) (splits ws refs : list Obj)
    (start now : Obj) : list Event :=
  [Built splits] ++ creations cls splits ws ++ [Clock start] ++ zip_with Asked ws refs
    ++ [Waited refs; Clock now; Printed (TotalIngestionTime now start)].

(** An initial part of such a timeline. *)
Definition started_run (cls : ActorClass) (l : list Event) : Prop :=
  exists splits ws refs start now,
    length ws = length splits /\ length refs = length ws /\
    l `prefix_of` training_run cls splits ws refs start now.

(** ** What a run has set up so far, used in the proofs *)

(** All calls conform to [cfg]; [a], [r], [b] and [c] are the [ray.init]
    addresses, the rows requested, the shards returned and the workers
    created. *)
Definition setup (cfg : Config) (a : list (option string)) (r : list Z)
    (b : list (list Obj)) (c : list (ActorClass * Z * Obj))
    (h : list (Entry IngestE)) : Prop :=
  Forall (fun e => conforms cfg e = true) h /\
  ray_inits h = a /\ rows_requested h = r /\
  shards_returned h = b /\ workers_created h = c.

(** ** A world to run the script in: every call returns, and [split]
    returns as many shards as it is asked for. *)
Definition example_world : Oracle IngestE := fun h R e =>
  match e in IngestE R return outcome R with
  | RayInit _ => Returned tt
  | Mkdtemp => Returned "/tmp/tmpq2x"
  | RandomIntRowDatasource => Returned (Handle (length h))
  | ReadDatasource _ _ _ _ => Returned (Handle (length h))
  | WriteParquet _ _ => Returned tt
  | ReadParquet _ => Returned (Handle (length h))
  | Repeat _ _ => Returned (Handle (length h))
  | RandomShuffleEachWindow _ _ => Returned (Handle (length h))
  | Split _ n _ => Returned (Handle <$> seq 100 (Z.to_nat n))
  | ActorRemote _ _ _ => Returned (Handle (length h))
  | TrainRemote _ => Returned (Handle (length h))
  | RayGet _ => Returned tt
  | TimeTime => Returned (Handle (length h))
  | PrintLine _ => Returned tt
  end.

(** A world in which a training task fails: [ray.get] raises, every
    other call answers as in [example_world]. *)
Definition failing_world : Oracle IngestE := fun h R e =>
  match e in IngestE R return outcome R with
  | RayGet _ => Raised (ExternalError "RayTaskError")
  | e => example_world h _ e
  end.

End Ingest.

(** * [TrainingWorker], the actor of big_data_ingestion.py, on its own side *)

Module Training.
Import Ingest.

(** [self]: the two attributes [__init__] stores. *)
Record TrainingWorker := { rank : Z; shard : Obj }.

Definition __init__ (rank : Z) (shard : Obj) : TrainingWorker :=
  {| rank := rank; shard := shard |}.

(** The calls of [train]: [shard.iter_datasets()], [next] on the iterator
    it returns, the line printed for an epoch,
    [training_dataset.iter_batches(batch_size=...)] and [next] on the
    iterator that returns.  [next] answers [None] for [StopIteration]. *)
Inductive TrainE : Type -> Type :=
  | IterDatasets (shard : Obj) : TrainE Obj
  | NextDataset (it : Obj) : TrainE (option Obj)
  | PrintTraining (worker epoch : Z) : TrainE unit
  | IterBatches (ds : Obj) (batch_size : Z) : TrainE Obj
  | NextBatch (it : Obj) : TrainE (option Obj).

Definition M := Prog TrainE unit.

(** [for i, x in enumerate(it): body], from index [i] on: [next] is called
    until it answers [StopIteration].  An iterator need not end, so the
    loop is cut after [fuel] rounds: the result is [true] when the
    iterator ended, and [false] when the rounds ran out first; the body
    says the same of the loops inside it. *)
Fixpoint for_enumerate (fuel : nat) (next : Obj -> TrainE (option Obj)) (it : Obj)
    (body : nat -> Obj -> M bool) (i : nat) : M bool :=
  match fuel with
  | O => Ret false
  | S fuel' =>
      x ← call (next it);
      match x with
      | None => Ret true
      | Some v =>
          ended ← body i v;
          if ended : bool then for_enumerate fuel' next it body (S i) else Ret false
      end
  end.

Definition train (fuel : nat) (self : TrainingWorker) : M bool :=
  datasets ← call (IterDatasets (shard self));
  for_enumerate fuel NextDataset datasets (fun epoch training_dataset =>
    call (PrintTraining (rank self) (Z.of_nat epoch));;
    batches ← call (IterBatches training_dataset 25000);
    for_enumerate fuel NextBatch batches (fun i batch => Ret true) 0) 0.

(** ** Observations on a history of calls *)

(** The datasets the shard yielded, the lines printed, and the datasets
    and batch sizes [iter_batches] was called with. *)
Definition dataset_yielded (e : Entry TrainE) : option Obj :=
  match e with
  | Log call o =>
      match call in TrainE R return outcome R -> option Obj with
      | NextDataset _ => fun o => match o with
                                  | Returned (Some ds) => Some ds
                                  | _ => None
                                  end
      | _ => fun _ => None
      end o
  end.

Definition line_printed (e : Entry TrainE) : option (Z * Z) :=
  match e with
  | Log (PrintTraining worker epoch) _ => Some (worker, epoch)
  | _ => None
  end.

Definition batches_requested (e : Entry TrainE) : option (Obj * Z) :=
  match e with
  | Log (IterBatches ds batch_size) _ => Some (ds, batch_size)
  | _ => None
  end.

Definition datasets_yielded (h : list (Entry TrainE)) : list Obj := omap dataset_yielded h.
Definition lines_printed (h : list (Entry TrainE)) : list (Z * Z) := omap line_printed h.
Definition batch_requests (h : list (Entry TrainE)) : list (Obj * Z) :=
  omap batches_requested h.

(** The lines of the first [n] epochs of worker [rank], and the batch
    requests for a list of datasets. *)
Definition epochs (rank : Z) (n : nat) : list (Z * Z) :=
  (fun epoch => (rank, Z.of_nat epoch)) <$> seq 0 n.

Definition batches_of (datasets : list Obj) : list (Obj * Z) :=
  (fun ds => (ds, 25000)) <$> datasets.

(** What the history of a run looks like at any moment: [nb] lines
    printed and [nc] batch requests made for the datasets [a] yielded. *)
Definition training (rank : Z) (a : list Obj) (nb nc : nat)
    (h : list (Entry TrainE)) : Prop :=
  observed dataset_yielded line_printed batches_requested
    a (epochs rank nb) (batches_of (take nc a)) h.

Definition in_training (rank : Z) (h : list (Entry TrainE)) : Prop :=
  exists a nb nc,
    training rank a nb nc h /\ (nc <= nb)%nat /\ (nb <= length a)%nat /\
    (length a <= S nc)%nat.

(** ** The calls of a run that ends *)

(** One epoch: the dataset yielded, the iterator over its batches and the
    batches that iterator yielded. *)
Record Epoch := { dataset : Obj; batch_iter : Obj; batches : list Obj }.

Definition epoch_calls (rank : Z) (it : Obj) (i : nat) (ep : Epoch)
    : list (Entry TrainE) :=
  [Log (NextDataset it) (Returned (Some (dataset ep)));
   Log (PrintTraining rank (Z.of_nat i)) (Returned tt);
   Log (IterBatches (dataset ep) 25000) (Returned (batch_iter ep))]
  ++ ((fun b => Log (NextBatch (batch_iter ep)) (Returned (Some b))) <$> batches ep)
  ++ [Log (NextBatch (batch_iter ep)) (Returned None)].

Definition train_calls (rank : Z) (shard it : Obj) (eps : list Epoch)
    : list (Entry TrainE) :=
  [Log (IterDatasets shard) (Returned it)]
  ++ concat (imap (epoch_calls rank it) eps)
  ++ [Log (NextDataset it) (Returned None)].

(** ** A world to train in: the shard yields two datasets, and a dataset
    yields two batches. *)
Definition batch_yielded (e : Entry TrainE) : option Obj :=
  match e with
  | Log call o =>
      match call in TrainE R return outcome R -> option Obj with
      | NextBatch _ => fun o => match o with
                                | Returned (Some b) => Some b
                                | _ => None
                                end
      | _ => fun _ => None
      end o
  end.

Definition example_world : Oracle TrainE := fun h R e =>
  match e in TrainE R return outcome R with
  | IterDatasets _ => Returned (Handle 1)
  | NextDataset _ =>
      Returned (if decide (length (datasets_yielded h) < 2)%nat
                then Some (Handle (length h)) else None)
  | PrintTraining _ _ => Returned tt
  | IterBatches _ _ => Returned (Handle (length h))
  | NextBatch _ =>
      Returned (if decide (length (omap batch_yielded h)
                           < 2 * length (batch_requests h))%nat
                then Some (Handle (length h)) else None)
  end.

End Training.

(** * A Hoare logic over histories *)

Section Hoare.
Context {E : Type -> Type} {S : Type}.
Implicit Types (h : list (Entry E)) (s : S).

Lemma run_bind {A B} (w : Oracle E) (p : Prog E S A) (f : A -> Prog E S B) s h :
  run w (bind p f) s h =
    match run w p s h with
    | (h', s', Returned a) => run w (f a) s' h'
    | (h', s', Raised x) => (h', s', Raised x)
    end.
Proof.
  revert s h. induction p as [a|x|k IH|s0 k IH|R e k IH]; intros s h; simpl; auto.
  destruct (w h R e); auto.
Qed.

Lemma triple_ret {A} (P : list (Entry E) -> S -> Prop) (a : A) Q X :
  (forall h s, P h s -> Q a h s) -> triple P (Ret a) Q X.
Proof. intros H w h s HP. simpl. auto. Qed.

Lemma triple_raise {A} (P : list (Entry E) -> S -> Prop) x (Q : A -> _) X :
  (forall h s, P h s -> X h s) -> triple P (Raise x) Q X.
Proof. intros H w h s HP. simpl. auto. Qed.

Lemma triple_bind {A B} P (p : Prog E S A) (f : A -> Prog E S B) Q' Q X :
  triple P p Q' X -> (forall a, triple (Q' a) (f a) Q X) ->
  triple P (bind p f) Q X.
Proof.
  intros Hp Hf w h s HP. rewrite run_bind. specialize (Hp w h s HP).
  destruct (run w p s h) as [[h' s'] [a|x]]; auto. apply Hf, Hp.
Qed.

Lemma triple_conseq {A} (P P' : list (Entry E) -> S -> Prop) (p : Prog E S A)
    (Q Q' : A -> _) (X X' : list (Entry E) -> S -> Prop) :
  triple P' p Q' X' ->
  (forall h s, P h s -> P' h s) ->
  (forall a h s, Q' a h s -> Q a h s) ->
  (forall h s, X' h s -> X h s) ->
  triple P p Q X.
Proof.
  intros Hp HP HQ HX w h s H. specialize (Hp w h s (HP _ _ H)).
  destruct (run w p s h) as [[h' s'] [a|x]]; auto.
Qed.

(** Loop rule: the invariant [I] is indexed by the items already
    processed and by the loop-carried locals. *)
Lemma triple_for {B L} (xs : list B) (body : B -> L -> Prog E S L)
    (I : list B -> L -> list (Entry E) -> S -> Prop) X acc0 :
  (forall seen x rest acc, xs = seen ++ x :: rest ->
     triple (I seen acc) (body x acc) (fun acc' => I (seen ++ [x]) acc') X) ->
  triple (I [] acc0) (for_ xs body acc0) (fun acc => I xs acc) X.
Proof.
  intros Hbody.
  assert (G : forall rest seen acc, xs = seen ++ rest ->
    triple (I seen acc) (for_ rest body acc) (fun acc' => I xs acc') X).
  { induction rest as [|x rest IH]; intros seen acc Hxs; simpl.
    - rewrite app_nil_r in Hxs. subst seen. apply triple_ret. auto.
    - eapply triple_bind; [apply (Hbody seen x rest acc Hxs)|].
      intros acc'. apply IH. rewrite <- app_assoc. exact Hxs. }
  apply G. reflexivity.
Qed.
(** Rules for programs in head-normal form: the postcondition of a call
    is the strongest one. *)
Lemma triple_Call {A R} (P : list (Entry E) -> S -> Prop) (e : E R)
    (k : R -> Prog E S A) Q X :
  (forall r, triple (fun h' s => exists h, P h s /\ h' = h ++ [Log e (Returned r)])
               (k r) Q X) ->
  (forall h s x, P h s -> X (h ++ [Log e (Raised x)]) s) ->
  triple P (Call e k) Q X.
Proof.
  intros Hk HX w h s HP. simpl. destruct (w h R e) as [r|x]; [|by apply HX].
  apply (Hk r w). eauto.
Qed.

Lemma triple_Get {A} (P : list (Entry E) -> S -> Prop) (k : S -> Prog E S A) Q X :
  (forall s0, triple (fun h s => P h s /\ s = s0) (k s0) Q X) ->
  triple P (Get k) Q X.
Proof. intros Hk w h s HP. simpl. apply (Hk s w). auto. Qed.

Lemma triple_Put {A} (P : list (Entry E) -> S -> Prop) s' (k : Prog E S A) Q X :
  triple (fun h s => s = s' /\ exists s0, P h s0) k Q X ->
  triple P (Put s' k) Q X.
Proof. intros Hk w h s HP. simpl. apply (Hk w). eauto. Qed.

Lemma triple_loop {B L} (P : list (Entry E) -> S -> Prop) (xs : list B)
    (body : B -> L -> Prog E S L)
    (I : list B -> L -> list (Entry E) -> S -> Prop) (Q : L -> _) X acc0 :
  (forall h s, P h s -> I [] acc0 h s) ->
  (forall seen x rest acc, xs = seen ++ x :: rest ->
     triple (I seen acc) (body x acc) (fun acc' => I (seen ++ [x]) acc') X) ->
  (forall acc h s, I xs acc h s -> Q acc h s) ->
  triple P (for_ xs body acc0) Q X.
Proof.
  intros HP Hbody HQ. eapply triple_conseq; [by apply triple_for| | |]; auto.
Qed.

Lemma triple_pre {A} (P P' : list (Entry E) -> S -> Prop) (p : Prog E S A) Q X :
  triple P' p Q X -> (forall h s, P h s -> P' h s) -> triple P p Q X.
Proof. intros Hp HP. eapply triple_conseq; eauto. Qed.

(** Rules for a precondition that fixes the history and the state. *)
Lemma triple_Call_exact {A R} H0 S0 (e : E R) (k : R -> Prog E S A) Q X :
  (forall r, triple (fun h s => h = H0 ++ [Log e (Returned r)] /\ s = S0) (k r) Q X) ->
  (forall x, X (H0 ++ [Log e (Raised x)]) S0) ->
  triple (fun h s => h = H0 /\ s = S0) (Call e k) Q X.
Proof.
  intros Hk HX. apply triple_Call.
  - intros r. eapply triple_pre; [apply Hk|]. by intros h s (h' & [-> ->] & ->).
  - by intros h s x [-> ->].
Qed.

Lemma triple_Get_exact {A} H0 S0 (k : S -> Prog E S A) Q X :
  triple (fun h s => h = H0 /\ s = S0) (k S0) Q X ->
  triple (fun h s => h = H0 /\ s = S0) (Get k) Q X.
Proof. intros Hk w h s [-> ->]. simpl. by apply (Hk w). Qed.

Lemma triple_Put_exact {A} H0 S0 S' (k : Prog E S A) Q X :
  triple (fun h s => h = H0 /\ s = S') k Q X ->
  triple (fun h s => h = H0 /\ s = S0) (Put S' k) Q X.
Proof. intros Hk w h s [-> ->]. simpl. by apply (Hk w). Qed.

Lemma triple_pure_l {A} (F : Prop) (P : list (Entry E) -> S -> Prop)
    (p : Prog E S A) Q X :
  (F -> triple P p Q X) -> triple (fun h s => F /\ P h s) p Q X.
Proof. intros Hp w h s [HF HP]. by apply Hp. Qed.

(** A world that never raises leaves no raised call in the history. *)
Lemma run_never_raises {A} (w : Oracle E) (p : Prog E S A) s h :
  (forall h' R (e : E R), returned (w h' R e) = true) ->
  Forall (fun e => entry_returned e = true) h ->
  Forall (fun e => entry_returned e = true) (trace (run w p s h)).
Proof.
  intros Hw. revert s h.
  induction p as [a|x|k IH|s0 k IH|R e k IH]; intros s h Hh; simpl.
  - exact Hh.
  - exact Hh.
  - apply IH, Hh.
  - apply IH, Hh.
  - specialize (Hw h R e). destruct (w h R e) as [r|x]; [|done].
    apply IH. apply Forall_app. split; [done|]. by constructor.
Qed.

(** What a triple says about a run from the empty history. *)
Lemma triple_run {A} (P : list (Entry E) -> S -> Prop) (p : Prog E S A) Q X w h s :
  triple P p Q X -> P h s ->
  (forall a, result (run w p s h) = Returned a ->
     Q a (trace (run w p s h)) (final (run w p s h))) /\
  (forall x, result (run w p s h) = Raised x ->
     X (trace (run w p s h)) (final (run w p s h))).
Proof.
  intros Hp HP. specialize (Hp w h s HP). unfold result, trace, final.
  destruct (run w p s h) as [[h' s'] [a|x]]; simpl; split; intros ? [=]; subst; auto.
Qed.
(** Where an exception comes from: the last call raised it, or the
    program raised it by itself, and then not right after a call that
    raised. *)
Lemma run_raised {A} (w : Oracle E) (p : Prog E S A) s h x :
  result (run w p s h) = Raised x ->
  (exists h' R (e : E R), trace (run w p s h) = h' ++ [Log e (Raised x)]) \/
  (may_raise p x /\
   (trace (run w p s h) = h \/
    exists h' R (e : E R) r, trace (run w p s h) = h' ++ [Log e (Returned r)])).
Proof.
  revert s h. induction p as [a|y|k IH|s0 k IH|R e k IH]; intros s h; simpl.
  - intros [=].
  - intros [= ->]. right. split; [done|by left].
  - intros Hres. destruct (IH s s h Hres) as [Hl|[Hm Hr]]; [by left|].
    right. split; [by exists s|done].
  - intros Hres. destruct (IH s0 h Hres) as [Hl|[Hm Hr]]; [by left|].
    right. split; done.
  - destruct (w h R e) as [r|y] eqn:Hw.
    + intros Hres.
      destruct (IH r s (h ++ [Log e (Returned r)]) Hres) as [Hl|[Hm Hr]]; [by left|].
      right. split; [by exists r|]. right.
      destruct Hr as [->|Hr]; [by eexists _, _, _, _|done].
    + intros [= ->]. left. by eexists _, _, _.
Qed.

Lemma may_raise_bind {A B} (p : Prog E S A) (f : A -> Prog E S B) x :
  may_raise (bind p f) x -> may_raise p x \/ exists a, may_raise (f a) x.
Proof.
  induction p as [a|y|k IH|s0 k IH|R e k IH]; simpl.
  - intros Hf. right. by exists a.
  - by left.
  - intros [s Hs]. destruct (IH s Hs) as [Hl|Hr]; [left; by exists s|by right].
  - intros Hk. destruct (IH Hk) as [Hl|Hr]; [by left|by right].
  - intros [r Hr]. destruct (IH r Hr) as [Hl|Hr']; [left; by exists r|by right].
Qed.

Lemma may_raise_for {B L} (xs : list B) (body : B -> L -> Prog E S L) acc x :
  may_raise (for_ xs body acc) x ->
  exists y acc', y ∈ xs /\ may_raise (body y acc') x.
Proof.
  revert acc. induction xs as [|y xs IH]; intros acc; simpl; [done|].
  intros Hm. apply may_raise_bind in Hm as [Hm|[acc' Hm]].
  - exists y, acc. split; [left|done].
  - destruct (IH acc' Hm) as (z & acc'' & Hz & Hm'). exists z, acc''.
    split; [by right|done].
Qed.

(** After a raised call nothing more is recorded. *)
Lemma raised_last_unique h1 h2 {R1 R2} (e1 : E R1) (e2 : E R2) x r :
  h1 ++ [Log e1 (Raised x)] = h2 ++ [Log e2 (Returned r)] -> False.
Proof.
  intros Heq. apply app_inj_tail in Heq as [_ Heq].
  apply (f_equal entry_returned) in Heq. discriminate Heq.
Qed.
End Hoare.

(** Symbolic execution of straight-line code. *)
Ltac hunfold := idtac.
Ltac hnorm :=
  hunfold; unfold call, get, put, getitem, floordiv;
  cbn [bind].

(** Run [tac] on the side conditions, leave the triples. *)
Ltac hside tac :=
  lazymatch goal with
  | |- triple _ _ _ _ => idtac
  | |- _ => tac
  end.

Ltac hstep :=
  hnorm;
  lazymatch goal with
  | |- triple _ (Ret _) _ _ => apply triple_ret
  | |- triple _ (Raise _) _ _ => apply triple_raise
  | |- triple _ (Call _ _) _ _ => apply triple_Call; [intros ?r|]
  | |- triple _ (Get _) _ _ => apply triple_Get; intros ?s
  | |- triple _ (Put _ _) _ _ => apply triple_Put
  | |- triple _ (match ?x with _ => _ end) _ _ => destruct x eqn:?
  | |- triple _ (bind (match ?x with _ => _ end) _) _ _ => destruct x eqn:?
  | |- triple _ (bind (for_ _ _ _) _) _ _ => fail
  | |- triple _ ?p _ _ =>
      lazymatch p with
      | context [@decide ?P ?d] => destruct (@decide P d) as [?|?]
      end
  end.

Ltac xstep :=
  hnorm;
  lazymatch goal with
  | |- triple _ (Ret _) _ _ => apply triple_ret; intros ?h ?s [-> ->]
  | |- triple _ (Raise _) _ _ => apply triple_raise; intros ?h ?s [-> ->]
  | |- triple _ (Call _ _) _ _ => apply triple_Call_exact; [intros ?r|intros ?x]
  | |- triple _ (Get _) _ _ => apply triple_Get_exact
  | |- triple _ (Put _ _) _ _ => apply triple_Put_exact
  end.

Ltac hdestruct :=
  repeat match goal with
         | H : exists _, _ |- _ => destruct H
         | H : _ /\ _ |- _ => destruct H
         end; subst.

(** Observations grow with the history. *)
Lemma observed_nil {E : Type -> Type} {A B C}
    (f : Entry E -> option A) (g : Entry E -> option B) (k : Entry E -> option C) :
  observed f g k [] [] [] [].
Proof. done. Qed.

Lemma observed_snoc {E : Type -> Type} {A B C}
    (f : Entry E -> option A) (g : Entry E -> option B) (k : Entry E -> option C)
    a b c a' b' c' h e :
  observed f g k a b c h ->
  a' = a ++ option_list (f e) -> b' = b ++ option_list (g e) ->
  c' = c ++ option_list (k e) ->
  observed f g k a' b' c' (h ++ [e]).
Proof.
  intros (<- & <- & <-) -> -> ->. unfold observed. rewrite !omap_app. simpl.
  by destruct (f e), (g e), (k e).
Qed.

Ltac observed_eq := simpl; rewrite ?app_nil_r; reflexivity.
Ltac observed_inner :=
  first [ eassumption
        | apply observed_nil
        | eapply observed_snoc; [observed_inner | observed_eq | observed_eq | observed_eq] ].

(** * Properties of the Horovod backend *)

Section HorovodProofs.
Import Horovod.
Implicit Types (h : list (Entry RayE)) (s : State).

Lemma registrations_app h1 h2 :
  registrations (h1 ++ h2) = registrations h1 ++ registrations h2.
Proof. apply omap_app. Qed.

Lemma enumerate_registrations (ws : list Worker) :
  (fun '(i, (hn, ni)) => (hn, ni, Z.of_nat i)) <$>
    enumerate
      (zip ((fun w => hostname (metadata w)) <$> ws) ((fun w => node_id (metadata w)) <$> ws))
  = imap (fun i w => (hostname (metadata w), node_id (metadata w), Z.of_nat i)) ws.
Proof.
  apply list_eq. intros i. unfold enumerate.
  rewrite list_lookup_fmap, !list_lookup_imap, lookup_zip_with, !list_lookup_fmap.
  destruct (ws !! i); reflexivity.
Qed.

Ltac hunfold ::= unfold Horovod.callee, Horovod.set_coordinator, Horovod.get_coordinator.

Ltac reg_solve :=
  intros; hdestruct;
  repeat match goal with H : registrations _ = _ |- _ => revert H end;
  rewrite ?registrations_app; cbn [registrations omap list_omap registration app];
  rewrite ?app_nil_r; intros;
  try match goal with H : registrations _ = _ |- _ => rewrite H end;
  try done; try apply prefix_nil.

Lemma on_start_registrations g worker_group backend_config :
  triple (fun h s => h = [])
    (on_start g worker_group backend_config)
    (fun _ h _ => registrations h = expected_registrations worker_group)
    (fun h _ => registrations h `prefix_of` expected_registrations worker_group).
Proof.
  unfold on_start, expected_registrations. rewrite <- enumerate_registrations.
  set (f := fun '(i, (hn, ni)) => (hn, ni, Z.of_nat i)).
  set (xs := enumerate _).
  eapply triple_bind with (Q' := fun _ h _ => registrations h = []).
  { apply triple_loop with (I := fun _ _ h _ => registrations h = []);
      [by intros; subst| |done].
    intros seen rank rest acc _. repeat hstep; reg_solve. }
  intros setup_futures. repeat hstep; hside reg_solve.
  eapply triple_bind with (Q' := fun _ h _ => registrations h = f <$> xs).
  { apply triple_loop with (I := fun seen _ h _ => registrations h = f <$> seen);
      [reg_solve| |done].
    intros seen [rank [hn ni]] rest [] Hxs. rewrite Hxs.
    repeat hstep; hside reg_solve.
    - by rewrite fmap_app.
    - exists (f <$> rest). rewrite fmap_app, fmap_cons, <- (assoc_L (++)). reflexivity.
    - rewrite fmap_app. by apply prefix_app_r. }
  intros []. repeat hstep; hside reg_solve.
  eapply triple_bind with (Q' := fun _ h _ => registrations h = f <$> xs).
  { apply triple_loop with (I := fun _ _ h _ => registrations h = f <$> xs);
      [reg_solve| |done].
    intros seen [rank env] rest acc _. repeat hstep; hside reg_solve. }
  intros setup_futures2. repeat hstep; hside reg_solve.
Qed.

(** *** The settings handed to the coordinator *)

Lemma coordinator_settings_app h1 h2 :
  coordinator_settings (h1 ++ h2) = coordinator_settings h1 ++ coordinator_settings h2.
Proof. apply omap_app. Qed.

Ltac settings_solve :=
  intros; hdestruct;
  repeat match goal with H : coordinator_settings _ = _ |- _ => revert H end;
  rewrite ?coordinator_settings_app; cbn [coordinator_settings omap list_omap app];
  rewrite ?app_nil_r; intros;
  try match goal with H : coordinator_settings _ = _ |- _ => rewrite H end;
  try (split; [try done; try apply prefix_nil|try done]).

Lemma on_start_settings g worker_group backend_config s0 :
  triple (fun h s => h = [] /\ s = s0)
    (on_start g worker_group backend_config)
    (fun _ h s => coordinator_settings h = [backend_config] /\ heap s = heap s0)
    (fun h s => coordinator_settings h `prefix_of` [backend_config] /\ heap s = heap s0).
Proof.
  unfold on_start.
  eapply triple_bind
    with (Q' := fun _ h s => coordinator_settings h = [] /\ heap s = heap s0).
  { apply triple_loop
      with (I := fun _ _ h s => coordinator_settings h = [] /\ heap s = heap s0);
      [by intros ?? [-> ->]| |done].
    intros seen rank rest acc _. repeat hstep; settings_solve. }
  intros setup_futures. repeat hstep; hside settings_solve.
  eapply triple_bind
    with (Q' := fun _ h s => coordinator_settings h = [backend_config] /\ heap s = heap s0).
  { apply triple_loop
      with (I := fun _ _ h s => coordinator_settings h = [backend_config] /\ heap s = heap s0);
      [settings_solve| |done].
    intros seen [rank [hn ni]] rest [] _. repeat hstep; hside settings_solve. }
  intros []. repeat hstep; hside settings_solve.
  eapply triple_bind
    with (Q' := fun _ h s => coordinator_settings h = [backend_config] /\ heap s = heap s0).
  { apply triple_loop
      with (I := fun _ _ h s => coordinator_settings h = [backend_config] /\ heap s = heap s0);
      [settings_solve| |done].
    intros seen [rank env] rest acc _. repeat hstep; hside settings_solve. }
  intros setup_futures2. repeat hstep; hside settings_solve.
Qed.

(** *** The final propagation comes last *)

Lemma split_snoc {A} (h pre post : list A) (e e' : A) :
  h ++ [e] = pre ++ e' :: post ->
  (post = [] /\ pre = h /\ e' = e) \/
  (exists post', post = post' ++ [e] /\ h = pre ++ e' :: post').
Proof.
  destruct post as [|p post' _] using rev_ind; intros Heq.
  - left. apply app_inj_tail in Heq as [-> ->]. done.
  - right. exists post'. rewrite app_comm_cons, (assoc_L (++)) in Heq.
    apply app_inj_tail in Heq as [-> ->]. done.
Qed.

Lemma guarded_nil : final_propagation_guarded [].
Proof. intros [|??] ?? [=]. Qed.

Lemma guarded_snoc h e :
  final_propagation_guarded h ->
  (is_final_propagation e = true ->
     existsb rendezvous_completed h = true /\ existsb nics_detected h = true) ->
  final_propagation_guarded (h ++ [e]).
Proof.
  intros Hh He pre e' post Heq Hfin.
  apply split_snoc in Heq as [(-> & -> & ->)|(post' & -> & ->)]; [by apply He|].
  by apply (Hh pre e' post').
Qed.

Lemma quiet_snoc h e : quiet h -> is_final_propagation e = false -> quiet (h ++ [e]).
Proof. intros Hh He. apply Forall_app. split; [done|]. by constructor. Qed.

Lemma quiet_guarded h : quiet h -> final_propagation_guarded h.
Proof.
  intros Hq pre e post -> Hfin. apply Forall_app in Hq as [_ Hq].
  apply Forall_cons in Hq as [Hq _]. congruence.
Qed.

Ltac quiet_tac :=
  repeat first [ eassumption | apply Forall_nil_2 | apply quiet_snoc; [|reflexivity] ].
Ltac quiet_solve :=
  intros; hdestruct;
  first [ solve [quiet_tac]
        | solve [apply quiet_guarded; quiet_tac]
        | apply guarded_snoc;
          [ apply quiet_guarded; quiet_tac
          | intros _; rewrite !existsb_app; cbn [existsb rendezvous_completed nics_detected];
            split; match goal with |- context [existsb ?f ?l] => by destruct (existsb f l) end ] ].

Lemma on_start_final_propagation g worker_group backend_config :
  triple (fun h s => h = [])
    (on_start g worker_group backend_config)
    (fun _ h _ => final_propagation_guarded h)
    (fun h _ => final_propagation_guarded h).
Proof.
  unfold on_start.
  eapply triple_bind with (Q' := fun _ h _ => quiet h).
  { apply triple_loop with (I := fun _ _ h _ => quiet h); [quiet_solve| |done].
    intros seen rank rest acc _. repeat hstep; quiet_solve. }
  intros setup_futures. repeat hstep; hside quiet_solve.
  eapply triple_bind with (Q' := fun _ h _ => quiet h).
  { apply triple_loop with (I := fun _ _ h _ => quiet h); [quiet_solve| |done].
    intros seen [rank [hn ni]] rest [] _. repeat hstep; hside quiet_solve. }
  intros []. repeat hstep; hside quiet_solve.
  eapply triple_bind with (Q' := fun _ h _ => quiet h).
  { apply triple_loop with (I := fun _ _ h _ => quiet h); [quiet_solve| |done].
    intros seen [rank env] rest acc _. repeat hstep; hside quiet_solve. }
  intros setup_futures2. repeat hstep; hside quiet_solve.
Qed.

(** *** The steps never go back *)

Lemma steps_app h1 h2 : steps (h1 ++ h2) = steps h1 ++ steps h2.
Proof. apply omap_app. Qed.

Lemma upto_nil : upto 0 [].
Proof. split; [intros i j a b _ [=]|constructor]. Qed.

Lemma upto_mono k k' h : upto k h -> (k <= k')%nat -> upto k' h.
Proof.
  intros [Ho Hk] Hle. split; [done|].
  eapply Forall_impl; [exact Hk|]. simpl. lia.
Qed.

Lemma upto_in_order k h : upto k h -> in_order (steps h).
Proof. by intros [? _]. Qed.

Lemma upto_snoc_none k h e : step_of e = None -> upto k h -> upto k (h ++ [e]).
Proof.
  intros He Hh. unfold upto. rewrite steps_app. cbn [steps omap list_omap].
  rewrite He. simpl. by rewrite app_nil_r.
Qed.

Lemma upto_snoc_step k h e st :
  upto k h -> step_of e = Some st -> (k <= step_index st)%nat ->
  upto (step_index st) (h ++ [e]).
Proof.
  intros [Ho Hk] He Hle. unfold upto. rewrite steps_app. cbn [steps omap list_omap].
  rewrite He. simpl. split.
  - intros i j a b Hij Hi Hj.
    destruct (decide (j < length (steps h))%nat) as [Hlt|Hge].
    + rewrite lookup_app_l in Hi, Hj by lia. eauto.
    + rewrite lookup_app_r in Hj by lia.
      apply list_lookup_singleton_Some in Hj as [Hj <-].
      rewrite lookup_app_l in Hi by lia.
      rewrite Forall_lookup in Hk. specialize (Hk i a Hi). simpl in Hk. lia.
  - apply Forall_app. split.
    + eapply Forall_impl; [exact Hk|]. simpl. lia.
    + by constructor.
Qed.

Ltac order_inner :=
  first [ eassumption
        | apply upto_nil
        | eapply upto_snoc_none; [reflexivity | order_inner]
        | eapply upto_snoc_step; [order_inner | reflexivity | cbn; lia] ].
Ltac order_solve :=
  intros; hdestruct; try apply (upto_in_order 7);
  eapply upto_mono; [order_inner | cbn; lia].

Lemma on_start_in_order g worker_group backend_config :
  triple (fun h s => h = [])
    (on_start g worker_group backend_config)
    (fun _ h _ => in_order (steps h))
    (fun h _ => in_order (steps h)).
Proof.
  unfold on_start.
  eapply triple_bind with (Q' := fun _ h _ => upto 1 h).
  { apply triple_loop with (I := fun _ _ h _ => upto 1 h); [order_solve| |done].
    intros seen rank rest acc _. repeat hstep; order_solve. }
  intros setup_futures. repeat hstep; hside order_solve.
  eapply triple_bind with (Q' := fun _ h _ => upto 3 h).
  { apply triple_loop with (I := fun _ _ h _ => upto 3 h); [order_solve| |done].
    intros seen [rank [hn ni]] rest [] _. repeat hstep; hside order_solve. }
  intros []. repeat hstep; hside order_solve.
  eapply triple_bind with (Q' := fun _ h _ => upto 5 h).
  { apply triple_loop with (I := fun _ _ h _ => upto 5 h); [order_solve| |done].
    intros seen [rank env] rest acc _. repeat hstep; hside order_solve. }
  intros setup_futures2. repeat hstep; hside order_solve.
Qed.

(** *** Requests are awaited before the next step *)

Lemma pending_snoc h e : pending (h ++ [e]) = pending_step (pending h) e.
Proof. unfold pending. by rewrite fold_left_app. Qed.

Lemma separated_snoc h e :
  phases_separated h ->
  (forall st, step_of e = Some st ->
     Forall (fun q => (step_index st <= step_index q.1)%nat) (pending h)) ->
  phases_separated (h ++ [e]).
Proof.
  intros Hh He pre e' post st Heq Hst.
  apply split_snoc in Heq as [(-> & -> & ->)|(post' & -> & ->)]; [by apply He|].
  by apply (Hh pre e' post').
Qed.

Lemma idle_nil : idle [].
Proof. split; [|done]. intros [|??] ??? [=]. Qed.

Lemma idle_separated h : idle h -> phases_separated h.
Proof. by intros [? _]. Qed.

Lemma busy_separated st acc h : busy st acc h -> phases_separated h.
Proof. by intros [? _]. Qed.

Lemma idle_busy st h : idle h -> busy st [] h.
Proof. intros [Hs Hp]. split; [done|]. rewrite Hp. constructor. Qed.

Lemma idle_snoc h e : idle h -> pending_step [] e = [] -> idle (h ++ [e]).
Proof.
  intros [Hs Hp] He. split.
  - apply separated_snoc; [done|]. intros st _. rewrite Hp. constructor.
  - by rewrite pending_snoc, Hp.
Qed.

Lemma ObjectRef_eqb_refl r : ObjectRef_eqb r r = true.
Proof. destruct r. apply Nat.eqb_refl. Qed.

Lemma awaited_app_l acc r r' : awaited acc r = true -> awaited (acc ++ [r']) r = true.
Proof. unfold awaited. rewrite existsb_app. by intros ->. Qed.

Lemma awaited_last acc r : awaited (acc ++ [r]) r = true.
Proof.
  unfold awaited. rewrite existsb_app. simpl.
  rewrite ObjectRef_eqb_refl. by rewrite orb_true_r.
Qed.

Lemma busy_request_separated st acc h i f o :
  busy st acc h -> request_step f = st ->
  phases_separated (h ++ [Log (ExecuteSingleAsync i f) o]).
Proof.
  intros [Hs Hp] Hf. apply separated_snoc; [done|].
  intros st' [= <-]. eapply Forall_impl; [exact Hp|].
  intros q [-> _]. by rewrite Hf.
Qed.

Lemma busy_request st acc h i f r :
  busy st acc h -> request_step f = st ->
  busy st (acc ++ [r]) (h ++ [Log (ExecuteSingleAsync i f) (Returned r)]).
Proof.
  intros Hb Hf. split; [by eapply busy_request_separated|].
  destruct Hb as [_ Hp]. rewrite pending_snoc. cbn [pending_step].
  apply Forall_app. split.
  - eapply Forall_impl; [exact Hp|]. intros q [? ?]. split; [done|].
    by apply awaited_app_l.
  - constructor; [|constructor]. split; [done|]. apply awaited_last.
Qed.

Lemma busy_wait_separated st acc h o :
  busy st acc h -> phases_separated (h ++ [Log (RayGet acc) o]).
Proof. intros [Hs _]. apply separated_snoc; [done|]. intros st' [=]. Qed.

Lemma busy_wait st acc h u :
  busy st acc h -> idle (h ++ [Log (RayGet acc) (Returned u)]).
Proof.
  intros Hb. split; [by eapply busy_wait_separated|].
  destruct Hb as [_ Hp]. rewrite pending_snoc. cbn [pending_step].
  induction Hp as [|q p [_ Hq] _ IH]; [done|].
  rewrite filter_cons_False; [done|]. by rewrite Hq.
Qed.

Ltac idle_tac :=
  first [ eassumption
        | apply idle_nil
        | eapply busy_wait; eassumption
        | apply idle_snoc; [idle_tac | reflexivity] ].
Ltac sep_solve :=
  intros; hdestruct;
  first [ solve [idle_tac]
        | solve [apply idle_separated; idle_tac]
        | solve [apply idle_busy; idle_tac]
        | solve [eapply busy_separated; eassumption]
        | solve [eapply busy_wait_separated; eassumption]
        | solve [eapply busy_request_separated; [eassumption|reflexivity]]
        | solve [eapply busy_request; [eassumption|reflexivity]] ].

Lemma on_start_separated g worker_group backend_config :
  triple (fun h s => h = [])
    (on_start g worker_group backend_config)
    (fun _ h _ => phases_separated h /\ pending h = [])
    (fun h _ => phases_separated h).
Proof.
  unfold on_start.
  eapply triple_bind with (Q' := fun acc h _ => busy SeedEnv acc h).
  { apply triple_loop with (I := fun _ acc h _ => busy SeedEnv acc h);
      [sep_solve| |done].
    intros seen rank rest acc _. repeat hstep; sep_solve. }
  intros setup_futures. repeat hstep; hside sep_solve.
  eapply triple_bind with (Q' := fun _ h _ => idle h).
  { apply triple_loop with (I := fun _ _ h _ => idle h); [sep_solve| |done].
    intros seen [rank [hn ni]] rest [] _. repeat hstep; hside sep_solve. }
  intros []. repeat hstep; hside sep_solve.
  eapply triple_bind with (Q' := fun acc h _ => busy CrossEnv acc h).
  { apply triple_loop with (I := fun _ acc h _ => busy CrossEnv acc h);
      [sep_solve| |done].
    intros seen [rank env] rest acc _. repeat hstep; hside sep_solve. }
  intros setup_futures2. repeat hstep; hside sep_solve.
Qed.

(** *** The whole handshake *)

Lemma range_split n (seen rest : list nat) x :
  range n = seen ++ x :: rest -> x = length seen /\ (x < n)%nat.
Proof.
  intros Heq. assert (Hx : range n !! length seen = Some x).
  { rewrite Heq. by rewrite list_lookup_middle. }
  unfold range in Hx. apply lookup_seq in Hx. lia.
Qed.

Lemma register_step_enumerate (ws : list Worker) c :
  (fun '(rank, (hn, ni)) =>
     Log (Register c hn ni (Z.of_nat rank)) (Returned tt)) <$>
    enumerate
      (zip ((fun w => hostname (metadata w)) <$> ws) ((fun w => node_id (metadata w)) <$> ws))
  = (fun '(rank, w) =>
       Log (Register c (hostname (metadata w)) (node_id (metadata w)) (Z.of_nat rank))
           (Returned tt)) <$> enumerate ws.
Proof.
  apply list_eq. intros i. unfold enumerate.
  rewrite !list_lookup_fmap, !list_lookup_imap, lookup_zip_with, !list_lookup_fmap.
  destruct (ws !! i); reflexivity.
Qed.

Ltac hunfold ::=
  unfold Horovod.callee, Horovod.set_coordinator, Horovod.get_coordinator;
  cbn [import_horovod Coordinator detect_nics nics_to_env_var
       coordinator self heap].

Ltac raised := intros; by eexists _, _, _, _.

Lemma on_start_handshake_installed worker_group backend_config s0 :
  triple (fun h s => h = [] /\ s = s0)
    (on_start (import_horovod true) worker_group backend_config)
    (fun _ h s => exists futs1 c all_info futs2 envs hs nics nenv,
       length futs1 = len worker_group /\ length futs2 = length all_info /\
       h = handshake worker_group backend_config futs1 c all_info futs2 envs hs nics nenv /\
       s = {| heap := heap s0; self := {| coordinator := Some c |} |})
    (fun h _ => raised_by_call h).
Proof.
  unfold on_start.
  eapply triple_bind with
    (Q' := fun acc h s => length acc = len worker_group /\
                          (h = [] ++ seed_requests worker_group acc /\ s = s0)).
  { apply triple_loop with
      (I := fun seen acc h s => length acc = length seen /\
        (h = [] ++ zip_with (fun '(rank, w) fut =>
                Log (ExecuteSingleAsync (Z.of_nat rank)
                       (InitEnvVars (Z.of_nat rank) (Z.of_nat (len worker_group))
                          (node_id (metadata w))))
                    (Returned fut))
              (enumerate (take (length seen) (workers worker_group))) acc /\ s = s0)).
    - by intros h s [-> ->].
    - intros seen rank rest acc Hxs. apply triple_pure_l. intros Hlen.
      apply range_split in Hxs as [-> Hlt].
      destruct (lookup_lt_is_Some_2 (workers worker_group) (length seen) Hlt) as [w Hw].
      hnorm. rewrite Hw. xstep; [|raised].
      xstep. split; [rewrite !length_app; simpl; lia|]. split; [|done].
      rewrite length_app. simpl. rewrite Nat.add_1_r.
      rewrite (take_S_r _ _ _ Hw). unfold enumerate. rewrite imap_app.
      rewrite zip_with_app by (rewrite length_imap, length_take; unfold len in Hlt; lia).
      simpl. rewrite length_take, Nat.add_0_r, Nat.min_l by (unfold len in Hlt; lia).
      done.
    - intros acc h s (Hlen & -> & ->). unfold range in Hlen. rewrite length_seq in Hlen.
      split; [done|]. split; [|done]. unfold seed_requests, range.
      rewrite length_seq. unfold len. by rewrite firstn_all. }
  intros futs1. apply triple_pure_l. intros Hlen1.
  repeat (xstep; try solve [raised]).
  lazymatch goal with
  | |- triple (fun h s => h = ?H0 /\ s = ?S0) _ _ _ =>
      eapply triple_bind with
        (Q' := fun _ h s => h = H0 ++ register_step worker_group r0 /\ s = S0);
      [apply triple_loop with
         (I := fun seen _ h s =>
            h = H0 ++ ((fun '(rank, (hn, ni)) =>
                          Log (Register r0 hn ni (Z.of_nat rank)) (Returned tt)) <$> seen)
            /\ s = S0)|]
  end.
  { intros h s [-> ->]. by rewrite app_nil_r. }
  { intros seen [rank [hn ni]] rest [] _.
    repeat (xstep; try solve [raised]).
    destruct r1. by rewrite fmap_app, (assoc_L (++)). }
  { intros [] h s [-> ->]. unfold register_step.
    by rewrite register_step_enumerate. }
  intros [].
  repeat (xstep; try solve [raised]).
  lazymatch goal with
  | |- triple (fun h s => h = ?H0 /\ s = ?S0) _ _ _ =>
      eapply triple_bind with
        (Q' := fun acc h s => length acc = length r1 /\
                              (h = H0 ++ cross_requests r1 acc /\ s = S0));
      [apply triple_loop with
         (I := fun seen acc h s => length acc = length seen /\
            (h = H0 ++ cross_requests seen acc /\ s = S0))|]
  end.
  { intros h s [-> ->]. by rewrite app_nil_r. }
  { intros seen [rank env] rest acc _. apply triple_pure_l. intros Hlen.
    repeat (xstep; try solve [raised]).
    split; [rewrite !length_app; simpl; lia|]. split; [|done].
    unfold cross_requests. rewrite zip_with_app by done.
    by rewrite (assoc_L (++)). }
  { done. }
  intros futs2. apply triple_pure_l. intros Hlen2.
  repeat (xstep; try solve [raised]).
  exists futs1, r0, r1, futs2, r3, r4, r5, r6. split; [done|]. split; [done|].
  split; [|done]. destruct r, r2, r7.
  unfold handshake, seed_step, build_step, finalize_step, cross_step,
    rendezvous_step, nics_step.
  rewrite <- !(assoc_L (++)). reflexivity.
Qed.

(** Without all three imported names, [on_start] cannot return. *)
Lemma on_start_needs_horovod g worker_group backend_config :
  g <> import_horovod true ->
  triple (fun h s => True)
    (on_start g worker_group backend_config)
    (fun _ _ _ => False)
    (fun _ _ => True).
Proof.
  intros Hg. unfold on_start.
  eapply triple_bind with (Q' := fun _ _ _ => True).
  { apply triple_loop with (I := fun _ _ _ _ => True); [done| |done].
    intros seen rank rest acc _. repeat hstep; done. }
  intros setup_futures. repeat hstep; hside done.
  eapply triple_bind with (Q' := fun _ _ _ => True).
  { apply triple_loop with (I := fun _ _ _ _ => True); [done| |done].
    intros seen [rank [hn ni]] rest [] _. repeat hstep; hside done. }
  intros []. repeat hstep; hside done.
  eapply triple_bind with (Q' := fun _ _ _ => True).
  { apply triple_loop with (I := fun _ _ _ _ => True); [done| |done].
    intros seen [rank env] rest acc _. repeat hstep; hside done. }
  intros setup_futures2. repeat hstep; hside ltac:(try done).
  intros. apply Hg. destruct g as [g1 g2 g3]. simpl in *. subst.
  by repeat match goal with x : callable |- _ => destruct x end.
Qed.

Lemma on_start_handshake g worker_group backend_config s0 :
  triple (fun h s => h = [] /\ s = s0)
    (on_start g worker_group backend_config)
    (fun _ h s => exists futs1 c all_info futs2 envs hs nics nenv,
       length futs1 = len worker_group /\ length futs2 = length all_info /\
       h = handshake worker_group backend_config futs1 c all_info futs2 envs hs nics nenv /\
       s = {| heap := heap s0; self := {| coordinator := Some c |} |})
    (fun _ _ => True).
Proof.
  destruct g as [[[]|] [[]|] [[]|]].
  1: eapply triple_conseq;
       [apply (on_start_handshake_installed worker_group backend_config s0)|..];
       by auto.
  all: eapply triple_conseq; [by apply on_start_needs_horovod|..]; by auto.
Qed.

(** With Horovod installed and a world that never raises, [on_start]
    returns. *)
Lemma on_start_returns w worker_group backend_config s :
  (forall h R (e : RayE R), returned (w h R e) = true) ->
  result (run w (on_start (import_horovod true) worker_group backend_config) s [])
  = Returned tt.
Proof.
  intros Hw.
  pose proof (on_start_handshake_installed worker_group backend_config s) as Ht.
  eapply (triple_run _ _ _ _ w [] s) in Ht as [_ Hx]; [|done].
  pose proof (run_never_raises w
    (on_start (import_horovod true) worker_group backend_config) s [] Hw
    (Forall_nil_2 _)) as Hall.
  destruct (result _) as [[]|x] eqn:Hres; [done|]. exfalso.
  destruct (Hx x eq_refl) as (h' & R & e & x' & Heq).
  rewrite Heq in Hall. apply Forall_app in Hall as [_ Hall].
  apply Forall_cons in Hall as [Hall _]. discriminate Hall.
Qed.

(** *** Construction of the configuration *)

Lemma HorovodConfig_new_returns (w : Oracle RayE) (g : Globals) nics_arg verbose_arg s h :
  Coordinator g <> None ->
  exists this,
    result (run w (HorovodConfig_new g nics_arg verbose_arg) s h) = Returned this /\
    heap s !! this = None /\
    heap (final (run w (HorovodConfig_new g nics_arg verbose_arg) s h)) !! this
    = Some {| nics := default None nics_arg; verbose := default 1 verbose_arg |} /\
    trace (run w (HorovodConfig_new g nics_arg verbose_arg) s h) = h.
Proof.
  unfold HorovodConfig_new, __post_init__, result, final, trace.
  destruct g as [[c|] dn ne]; simpl; [intros _|done].
  eexists. split; [done|]. split.
  - apply not_elem_of_dom. apply is_fresh.
  - split; [|done]. apply lookup_insert_eq.
Qed.

Lemma existsb_app_l {A} (f : A -> bool) l1 l2 :
  existsb f l1 = true -> existsb f (l1 ++ l2) = true.
Proof. rewrite existsb_app. by intros ->. Qed.

Lemma existsb_app_r {A} (f : A -> bool) l1 l2 :
  existsb f l2 = true -> existsb f (l1 ++ l2) = true.
Proof. rewrite existsb_app. intros ->. apply orb_true_r. Qed.

(** ** The claims about horovod.py *)

(** C1: constructing a [HorovodConfig] raises if and only if the imported
    [Coordinator] is [None], that is, if and only if [horovod[ray]] is not
    installed; what it raises is the [ValueError] of the guard.  When the
    dependency is present the construction returns, for any [nics] and
    [verbose] given or omitted, a fresh object holding them (with the
    defaults [None] and [1]). *)
Theorem HorovodConfig_raises_iff_not_installed
    (w : Oracle RayE) (g : Globals) nics_arg verbose_arg s h :
  ((exists x, result (run w (HorovodConfig_new g nics_arg verbose_arg) s h) = Raised x)
   <-> Coordinator g = None) /\
  (forall installed, Coordinator (import_horovod installed) = None <-> installed = false) /\
  (Coordinator g = None ->
     result (run w (HorovodConfig_new g nics_arg verbose_arg) s h)
     = Raised (ValueError
         "`horovod[ray]` is not installed. Please install 'horovod[ray]' to use this backend.")) /\
  (Coordinator g <> None ->
     exists this,
       result (run w (HorovodConfig_new g nics_arg verbose_arg) s h) = Returned this /\
       heap s !! this = None /\
       heap (final (run w (HorovodConfig_new g nics_arg verbose_arg) s h)) !! this
       = Some {| nics := default None nics_arg; verbose := default 1 verbose_arg |} /\
       trace (run w (HorovodConfig_new g nics_arg verbose_arg) s h) = h).
Proof.
  split; [|split; [|split]].
  - unfold HorovodConfig_new, __post_init__, result.
    destruct g as [[c|] dn ne]; simpl; [split; [by intros [x [=]]|done]|].
    split; [done|by eexists].
  - intros [|]; simpl; split; congruence.
  - unfold HorovodConfig_new, __post_init__, result.
    destruct g as [[c|] dn ne]; simpl; done.
  - apply HorovodConfig_new_returns.
Qed.

Lemma HorovodConfig_raises_iff_not_installed_witness :
  exists this,
    result (run example_world (HorovodConfig_new (import_horovod true) None (Some 2))
              example_state []) = Returned this /\
    heap example_state !! this = None /\
    heap (final (run example_world (HorovodConfig_new (import_horovod true) None (Some 2))
                   example_state [])) !! this
    = Some {| nics := None; verbose := 2 |} /\
    trace (run example_world (HorovodConfig_new (import_horovod true) None (Some 2))
             example_state []) = [].
Proof.
  apply (HorovodConfig_raises_iff_not_installed example_world (import_horovod true)
           None (Some 2) example_state []).
  simpl. discriminate.
Defined.

(** *** [init_env_vars] *)

Lemma pretty_N_go_occurs c x v :
  (forall d, (d < 10)%N -> pretty_N_char d <> c) ->
  occurs c (pretty_N_go x v) = occurs c v.
Proof.
  intros Hc. revert v. induction (N.lt_wf_0 x) as [x _ IH]; intros v.
  assert (x = 0 \/ 0 < x)%N as [->|?] by lia; [by rewrite pretty_N_go_0|].
  rewrite pretty_N_go_step by done. rewrite IH by (by apply N.div_lt).
  simpl. destruct (Ascii.eqb_spec (pretty_N_char (x `mod` 10)) c); [|done].
  exfalso. eapply Hc; [|done]. by apply N.mod_lt.
Qed.

(** A decimal string holds no NUL byte. *)
Lemma decimal_no_null n : embedded_null (decimal n) = false.
Proof.
  assert (Hd : forall d, (d < 10)%N -> pretty_N_char d <> "000"%char).
  { intros d _. unfold pretty_N_char. by repeat case_match. }
  assert (HN : forall x : N, occurs "000" (pretty x) = false).
  { intros x. unfold pretty, pretty_N. case_decide; [done|].
    by rewrite pretty_N_go_occurs. }
  unfold embedded_null, decimal, pretty, pretty_Z.
  destruct n as [|x|x]; [done|apply HN|]. simpl. apply HN.
Qed.

Lemma environ_setitem_run {E} (w : Oracle E) name value (environ : Environ)
    (past : list (Entry E)) :
  embedded_null name = false -> occurs "=" name = false -> name <> EmptyString ->
  run w (environ_setitem name value) environ past
  = if embedded_null value
    then (past, environ, Raised (ValueError "embedded null byte"))
    else (past, <[name := value]> environ, Returned tt).
Proof.
  intros Hnul Heq Hname. unfold environ_setitem. rewrite Hnul, Heq.
  destruct (String.eqb_spec name EmptyString) as [|_]; [done|].
  by destruct (embedded_null value).
Qed.

Lemma str_run {E S} (w : Oracle E) n (st : S) (past : list (Entry E)) :
  run w (str n) st past
  = if decide (10 ^ int_max_str_digits <= Z.abs n)
    then (past, st, Raised too_many_digits)
    else (past, st, Returned (decimal n)).
Proof. unfold str. by destruct (decide _). Qed.

(** What a call does, case by case: it stops at the first assignment
    that fails and keeps what it has written before. *)
Lemma init_env_vars_run {E} (w : Oracle E) world_rank world_size node
    (environ : Environ) (past : list (Entry E)) :
  run w (init_env_vars world_rank world_size node) environ past
  = if embedded_null node
    then (past, environ, Raised (ValueError "embedded null byte"))
    else if decide (10 ^ int_max_str_digits <= Z.abs world_rank)
    then (past, <["HOROVOD_HOSTNAME" := node]> environ, Raised too_many_digits)
    else if decide (10 ^ int_max_str_digits <= Z.abs world_size)
    then (past,
          <["HOROVOD_RANK" := decimal world_rank]>
            (<["HOROVOD_HOSTNAME" := node]> environ),
          Raised too_many_digits)
    else (past,
          <["HOROVOD_SIZE" := decimal world_size]>
            (<["HOROVOD_RANK" := decimal world_rank]>
               (<["HOROVOD_HOSTNAME" := node]> environ)),
          Returned tt).
Proof.
  unfold init_env_vars.
  rewrite run_bind, environ_setitem_run by done.
  destruct (embedded_null node); [done|].
  rewrite run_bind, str_run. destruct (decide _); [done|].
  rewrite run_bind, environ_setitem_run, decimal_no_null by done.
  rewrite run_bind, str_run. destruct (decide _); [done|].
  by rewrite environ_setitem_run, decimal_no_null by done.
Qed.

(** C9, as amended: a call [init_env_vars world_rank world_size node_id]
    whose node id holds no NUL byte and whose rank and size have at most
    4300 decimal digits returns, makes no external call and sets exactly
    three variables: HOROVOD_HOSTNAME to the node id, HOROVOD_RANK and
    HOROVOD_SIZE to the decimal strings of the rank and of the size; every
    other variable keeps its value. *)
Theorem init_env_vars_sets_three_variables {E} (w : Oracle E)
    (world_rank world_size : Z) (node : string) (environ : Environ)
    (past : list (Entry E)) :
  embedded_null node = false ->
  Z.abs world_rank < 10 ^ int_max_str_digits ->
  Z.abs world_size < 10 ^ int_max_str_digits ->
  result (run w (init_env_vars world_rank world_size node) environ past) = Returned tt /\
  trace (run w (init_env_vars world_rank world_size node) environ past) = past /\
  final (run w (init_env_vars world_rank world_size node) environ past)
    !! "HOROVOD_HOSTNAME" = Some node /\
  final (run w (init_env_vars world_rank world_size node) environ past)
    !! "HOROVOD_RANK" = Some (decimal world_rank) /\
  final (run w (init_env_vars world_rank world_size node) environ past)
    !! "HOROVOD_SIZE" = Some (decimal world_size) /\
  (forall k, k <> "HOROVOD_HOSTNAME" -> k <> "HOROVOD_RANK" -> k <> "HOROVOD_SIZE" ->
     final (run w (init_env_vars world_rank world_size node) environ past) !! k
     = environ !! k) /\
  dom (final (run w (init_env_vars world_rank world_size node) environ past))
    = {["HOROVOD_HOSTNAME"; "HOROVOD_RANK"; "HOROVOD_SIZE"]} ∪ dom environ /\
  decimal 0 = "0" /\ decimal 3 = "3" /\ decimal 16 = "16" /\ decimal (-1) = "-1" /\
  (forall m n, decimal m = decimal n -> m = n).
Proof.
  intros Hnode Hrank Hsize. rewrite init_env_vars_run, Hnode.
  destruct (decide (10 ^ int_max_str_digits <= Z.abs world_rank)) as [Hle|_].
  { by apply Z.le_ngt in Hle. }
  destruct (decide (10 ^ int_max_str_digits <= Z.abs world_size)) as [Hle|_].
  { by apply Z.le_ngt in Hle. }
  unfold result, trace, final. cbn [fst snd].
  split; [done|]. split; [done|].
  split; [by simplify_map_eq|]. split; [by simplify_map_eq|].
  split; [by simplify_map_eq|]. split; [intros; by simplify_map_eq|].
  split.
  { rewrite !dom_insert_L. apply set_eq. intros k.
    rewrite !elem_of_union, !elem_of_singleton. tauto. }
  split; [done|]. split; [done|]. split; [done|]. split; [done|].
  intros m n Hmn. unfold decimal in Hmn. by simplify_eq.
Qed.

Lemma init_env_vars_sets_three_variables_witness :
  final (run example_world (init_env_vars 2 16 "node-b") {["PATH" := "/usr/bin"]} [])
    !! "HOROVOD_RANK" = Some "2".
Proof.
  apply (init_env_vars_sets_three_variables example_world 2 16 "node-b"
           {["PATH" := "/usr/bin"]} []).
  - reflexivity.
  - by vm_compute.
  - by vm_compute.
Defined.

(** C9, as the spec states it, fails: a node id with a NUL byte makes the
    first assignment raise, and no variable is written; and a rank of 4301
    digits makes [str] raise after HOROVOD_HOSTNAME alone was written. *)
Lemma init_env_vars_writes_nothing_for_a_nul_byte :
  (result (run example_world (init_env_vars 2 16 (String "n" (String "000" "b")))
             {["PATH" := "/usr/bin"]} [])
   = Raised (ValueError "embedded null byte") /\
   final (run example_world (init_env_vars 2 16 (String "n" (String "000" "b")))
            {["PATH" := "/usr/bin"]} [])
   = {["PATH" := "/usr/bin"]} /\
   final (run example_world (init_env_vars 2 16 (String "n" (String "000" "b")))
            {["PATH" := "/usr/bin"]} [])
     !! "HOROVOD_HOSTNAME" = None) /\
  (result (run example_world (init_env_vars (10 ^ 4300) 16 "node-b")
             {["PATH" := "/usr/bin"]} [])
   = Raised too_many_digits /\
   final (run example_world (init_env_vars (10 ^ 4300) 16 "node-b")
            {["PATH" := "/usr/bin"]} [])
     !! "HOROVOD_RANK" = None /\
   final (run example_world (init_env_vars (10 ^ 4300) 16 "node-b")
            {["PATH" := "/usr/bin"]} [])
     !! "HOROVOD_SIZE" = None).
Proof.
  rewrite !init_env_vars_run.
  change (embedded_null (String "n" (String "000" "b"))) with true.
  change (embedded_null "node-b") with false. cbv iota.
  destruct (decide (10 ^ int_max_str_digits <= Z.abs (10 ^ 4300))) as [_|Hlt].
  - unfold result, final. cbn [fst snd]. by simplify_map_eq.
  - exfalso. apply Hlt. by vm_compute.
Qed.

(** C2: [on_start] calls [register] once per worker, in the order of
    [worker_group.workers], with that worker's hostname and node id and
    with its index as rank: whatever the world does, the calls made are an
    initial part of that list, and when [on_start] returns they are the
    whole list, one for each of the [len worker_group] workers. *)
Theorem on_start_registers_each_worker_in_rank_order
    (w : Oracle RayE) (g : Globals) worker_group backend_config s :
  registrations (trace (run w (on_start g worker_group backend_config) s []))
    `prefix_of` expected_registrations worker_group /\
  length (expected_registrations worker_group) = len worker_group /\
  (forall rank wk, workers worker_group !! rank = Some wk ->
     expected_registrations worker_group !! rank
     = Some (hostname (metadata wk), node_id (metadata wk), Z.of_nat rank)) /\
  (result (run w (on_start g worker_group backend_config) s []) = Returned tt ->
   registrations (trace (run w (on_start g worker_group backend_config) s []))
   = expected_registrations worker_group).
Proof.
  pose proof (on_start_registrations g worker_group backend_config) as Ht.
  eapply (triple_run _ _ _ _ w [] s) in Ht as [Hq Hx]; [|done].
  split; [|split; [|split]].
  - destruct (result _) as [u|x] eqn:Hres.
    + by rewrite (Hq u eq_refl).
    + by apply (Hx x).
  - unfold expected_registrations. by rewrite length_imap.
  - intros rank wk Hwk. unfold expected_registrations.
    by rewrite list_lookup_imap, Hwk.
  - apply Hq.
Qed.

Lemma on_start_registers_each_worker_in_rank_order_witness :
  registrations
    (trace (run example_world (on_start (import_horovod true) example_group 0%nat)
              example_state []))
  = [("host-a", "node-a", 0); ("host-a", "node-a", 1); ("host-b", "node-b", 2)].
Proof.
  apply (on_start_registers_each_worker_in_rank_order example_world
           (import_horovod true) example_group 0%nat example_state).
  reflexivity.
Defined.

(** C3: in every execution of [on_start], the broadcast of
    [update_env_vars] is called only after [establish_rendezvous] and
    [detect_nics] have both returned; and an execution that returns ends
    with that broadcast. *)
Theorem on_start_final_propagation_after_rendezvous_and_nics
    (w : Oracle RayE) (g : Globals) worker_group backend_config s :
  final_propagation_guarded
    (trace (run w (on_start g worker_group backend_config) s [])) /\
  (result (run w (on_start g worker_group backend_config) s []) = Returned tt ->
   exists pre e,
     trace (run w (on_start g worker_group backend_config) s []) = pre ++ [e] /\
     is_final_propagation e = true /\
     existsb rendezvous_completed pre = true /\
     existsb nics_detected pre = true).
Proof.
  split.
  - pose proof (on_start_final_propagation g worker_group backend_config) as Ht.
    eapply (triple_run _ _ _ _ w [] s) in Ht as [Hq Hx]; [|done].
    destruct (result _) as [u|x] eqn:Hres; [by apply (Hq u)|by apply (Hx x)].
  - intros Hres.
    pose proof (on_start_handshake g worker_group backend_config s) as Ht.
    eapply (triple_run _ _ _ _ w [] s) in Ht as [Hq _]; [|done].
    destruct (Hq tt Hres)
      as (futs1 & c & info & futs2 & envs & hs & ni & nenv & _ & _ & Htr & _).
    rewrite Htr.
    exists (seed_step worker_group futs1 ++ build_step backend_config c
            ++ register_step worker_group c ++ finalize_step c info
            ++ cross_step info futs2 ++ rendezvous_step c envs
            ++ [Log (Hostnames c) (Returned hs);
                Log (DetectNics backend_config hs (workers worker_group)) (Returned ni);
                Log (NicsToEnvVar ni) (Returned nenv)]),
           (Log (Execute (UpdateEnvVars (nenv ∪ envs))) (Returned tt)).
    split; [|split; [done|split]].
    + unfold handshake, nics_step. rewrite <- !(assoc_L (++)). reflexivity.
    + do 5 apply existsb_app_r. by apply existsb_app_l.
    + do 6 apply existsb_app_r. done.
Qed.

Lemma on_start_final_propagation_after_rendezvous_and_nics_witness :
  exists pre e,
    trace (run example_world (on_start (import_horovod true) example_group 0%nat)
             example_state []) = pre ++ [e] /\
    is_final_propagation e = true /\
    existsb rendezvous_completed pre = true /\
    existsb nics_detected pre = true.
Proof.
  apply (on_start_final_propagation_after_rendezvous_and_nics example_world
           (import_horovod true) example_group 0%nat example_state).
  reflexivity.
Defined.

(** C5: in every execution of [on_start], no call of a step is made while
    a request issued by an earlier step is outstanding; and when
    [on_start] returns no request is outstanding at all. *)
Theorem on_start_awaits_requests_before_next_phase
    (w : Oracle RayE) (g : Globals) worker_group backend_config s :
  phases_separated (trace (run w (on_start g worker_group backend_config) s [])) /\
  (result (run w (on_start g worker_group backend_config) s []) = Returned tt ->
   pending (trace (run w (on_start g worker_group backend_config) s [])) = []).
Proof.
  pose proof (on_start_separated g worker_group backend_config) as Ht.
  eapply (triple_run _ _ _ _ w [] s) in Ht as [Hq Hx]; [|done].
  split.
  - destruct (result _) as [u|x] eqn:Hres; [by apply (Hq u)|by apply (Hx x)].
  - intros Hres. by apply (Hq tt).
Qed.

Lemma on_start_awaits_requests_before_next_phase_witness :
  pending (trace (run example_world (on_start (import_horovod true) example_group 0%nat)
                    example_state [])) = [].
Proof.
  apply (on_start_awaits_requests_before_next_phase example_world
           (import_horovod true) example_group 0%nat example_state).
  reflexivity.
Defined.

(** C4: the calls of [on_start] never go back to an earlier step of the
    handshake, whatever the world does; and when [on_start] returns its
    history is the seven steps in order: the environment seeded on every
    worker, the coordinator built from the configuration, every worker
    registered, the registration finalized, the per-rank environment sent,
    the rendezvous established, the interfaces detected and the final
    environment broadcast.  With Horovod installed, [on_start] does return
    whenever no external call raises. *)
Theorem on_start_runs_seven_steps_in_order
    (w : Oracle RayE) (g : Globals) worker_group backend_config s :
  in_order (steps (trace (run w (on_start g worker_group backend_config) s []))) /\
  (result (run w (on_start g worker_group backend_config) s []) = Returned tt ->
   exists futs1 c all_info futs2 envs hs found nenv,
     length futs1 = len worker_group /\
     length futs2 = length all_info /\
     trace (run w (on_start g worker_group backend_config) s [])
     = seed_step worker_group futs1
       ++ build_step backend_config c
       ++ register_step worker_group c
       ++ finalize_step c all_info
       ++ cross_step all_info futs2
       ++ rendezvous_step c envs
       ++ nics_step worker_group backend_config c envs hs found nenv) /\
  ((forall h R (e : RayE R), returned (w h R e) = true) ->
   result (run w (on_start (import_horovod true) worker_group backend_config) s [])
   = Returned tt).
Proof.
  split; [|split]; [| |apply on_start_returns].
  - pose proof (on_start_in_order g worker_group backend_config) as Ht.
    eapply (triple_run _ _ _ _ w [] s) in Ht as [Hq Hx]; [|done].
    destruct (result _) as [u|x] eqn:Hres; [by apply (Hq u)|by apply (Hx x)].
  - intros Hres.
    pose proof (on_start_handshake g worker_group backend_config s) as Ht.
    eapply (triple_run _ _ _ _ w [] s) in Ht as [Hq _]; [|done].
    destruct (Hq tt Hres)
      as (futs1 & c & info & futs2 & envs & hs & ni & nenv & H1 & H2 & Htr & _).
    by exists futs1, c, info, futs2, envs, hs, ni, nenv.
Qed.

Lemma on_start_runs_seven_steps_in_order_witness :
  exists futs1 c all_info futs2 envs hs found nenv,
    length futs1 = len example_group /\
    length futs2 = length all_info /\
    trace (run example_world (on_start (import_horovod true) example_group 0%nat)
             example_state [])
    = seed_step example_group futs1
      ++ build_step 0%nat c
      ++ register_step example_group c
      ++ finalize_step c all_info
      ++ cross_step all_info futs2
      ++ rendezvous_step c envs
      ++ nics_step example_group 0%nat c envs hs found nenv.
Proof.
  apply (on_start_runs_seven_steps_in_order example_world
           (import_horovod true) example_group 0%nat example_state).
  apply (on_start_runs_seven_steps_in_order example_world
           (import_horovod true) example_group 0%nat example_state).
  intros h R []; reflexivity.
Defined.

(** C8: the configuration object given to [on_start] is the one argument
    of the [Coordinator(...)] call: no other object is ever passed to it,
    the call is made at most once and exactly once when [on_start]
    returns, and [on_start] leaves the fields of every configuration
    object as they were.  The object holds [nics] and [verbose], [None]
    and [1] when they are not given. *)
Theorem on_start_forwards_config_verbatim
    (w : Oracle RayE) (g : Globals) worker_group backend_config s :
  coordinator_settings (trace (run w (on_start g worker_group backend_config) s []))
    `prefix_of` [backend_config] /\
  heap (final (run w (on_start g worker_group backend_config) s [])) = heap s /\
  (result (run w (on_start g worker_group backend_config) s []) = Returned tt ->
   coordinator_settings (trace (run w (on_start g worker_group backend_config) s []))
   = [backend_config]) /\
  (Coordinator g <> None ->
   exists this,
     result (run w (HorovodConfig_new g None None) s []) = Returned this /\
     heap (final (run w (HorovodConfig_new g None None) s [])) !! this
     = Some {| nics := None; verbose := 1 |}).
Proof.
  pose proof (on_start_settings g worker_group backend_config s) as Ht.
  eapply (triple_run _ _ _ _ w [] s) in Ht as [Hq Hx]; [|done].
  split; [|split; [|split]].
  - destruct (result _) as [u|x] eqn:Hres.
    + destruct (Hq u eq_refl) as [-> _]. done.
    + by apply (Hx x).
  - destruct (result _) as [u|x] eqn:Hres; [by apply (Hq u)|by apply (Hx x)].
  - intros Hres. by apply (Hq tt).
  - intros Hg.
    destruct (HorovodConfig_new_returns w g None None s [] Hg)
      as (this & Hres & _ & Hobj & _).
    by exists this.
Qed.

Lemma on_start_forwards_config_verbatim_witness :
  coordinator_settings
    (trace (run example_world (on_start (import_horovod true) example_group 0%nat)
              example_state [])) = [0%nat].
Proof.
  apply (on_start_forwards_config_verbatim example_world
           (import_horovod true) example_group 0%nat example_state).
  reflexivity.
Defined.
End HorovodProofs.


(** * Properties of the ingestion example *)

Section IngestProofs.
Import Ingest.
Implicit Types (h : list (Entry IngestE)) (s : unit).

Ltac hunfold ::=
  unfold Ingest.create_shuffle_pipeline, Ingest.create_large_shuffle_pipeline,
    Ingest.Small.generate_example_files.

(** *** The two pipeline builders *)

Lemma create_shuffle_pipeline_chain training_data_dir num_epochs num_shards h0 s0 :
  triple (fun h s => h = h0 /\ s = s0)
    (create_shuffle_pipeline training_data_dir num_epochs num_shards)
    (fun shards h _ => exists ds repeated shuffled,
       h = h0 ++ [Log (ReadParquet training_data_dir) (Returned ds)]
              ++ chain ds num_epochs None num_shards repeated shuffled shards)
    (fun _ _ => True).
Proof.
  repeat (xstep; try done). exists r, r0, r1.
  unfold chain. rewrite <- !(assoc_L (++)). reflexivity.
Qed.

Lemma create_large_shuffle_pipeline_chain data_size_bytes num_epochs num_columns
    num_shards h0 s0 :
  triple (fun h s => h = h0 /\ s = s0)
    (create_large_shuffle_pipeline data_size_bytes num_epochs num_columns num_shards)
    (fun shards h _ => exists datasource ds repeated shuffled,
       num_columns <> 0 /\
       h = h0 ++ [Log RandomIntRowDatasource (Returned datasource);
                  Log (ReadDatasource datasource
                         ((data_size_bytes `div` 8) `div` num_columns) num_columns
                         (Some "node:")) (Returned ds)]
              ++ chain ds num_epochs (Some "node:") num_shards repeated shuffled shards)
    (fun _ _ => True).
Proof.
  hnorm. xstep; [|done]. hnorm.
  destruct (decide (8 = 0)) as [|_]; [done|]. hnorm.
  destruct (decide (num_columns = 0)) as [|Hcols]; hnorm; [by xstep|].
  repeat (xstep; try done). exists r, r0, r1, r2. split; [done|].
  unfold chain. rewrite <- !(assoc_L (++)). reflexivity.
Qed.

(** *** What a run has set up so far *)

Lemma setup_nil cfg : setup cfg [] [] [] [] [].
Proof. repeat split. constructor. Qed.

Lemma setup_snoc cfg a r b c a' r' b' c' h e :
  setup cfg a r b c h -> conforms cfg e = true ->
  a' = a ++ ray_inits [e] -> r' = r ++ rows_requested [e] ->
  b' = b ++ shards_returned [e] -> c' = c ++ workers_created [e] ->
  setup cfg a' r' b' c' (h ++ [e]).
Proof.
  intros (Hall & <- & <- & <- & <-) He -> -> -> ->. split.
  - apply Forall_app. split; [done|]. by constructor.
  - unfold ray_inits, rows_requested, shards_returned, workers_created.
    by rewrite !omap_app.
Qed.

Ltac setup_eq := simpl; rewrite ?app_nil_r; reflexivity.
Ltac setup_inner :=
  first [ eassumption
        | apply setup_nil
        | eapply setup_snoc;
          [setup_inner | reflexivity | setup_eq | setup_eq | setup_eq | setup_eq] ].
Ltac setup_solve :=
  intros; hdestruct; rewrite ?fmap_app; rewrite ?app_nil_r;
  first [ solve [setup_inner]
        | solve [eexists; setup_inner]
        | solve [eexists _, _; setup_inner]
        | solve [eexists _, _, _; setup_inner] ].

Lemma start_workers_setup cfg a r b c cls splits (X : list (Entry IngestE) -> unit -> Prop) :
  ActorClass_eqb cls (worker_class cfg) = true ->
  (forall h s c', setup cfg a r b c' h -> X h s) ->
  triple (fun h _ => setup cfg a r b c h)
    (start_workers cls splits)
    (fun _ h _ => setup cfg a r b (c ++ one_worker_per_shard cls splits) h)
    X.
Proof.
  intros Hcls HX. unfold start_workers.
  apply triple_loop with
    (I := fun seen _ h _ =>
       setup cfg a r b
         (c ++ ((fun '(rank, shard) => (cls, Z.of_nat rank, shard)) <$> seen)) h).
  - intros h s Hh. simpl. by rewrite app_nil_r.
  - intros seen [rank shard] rest acc _. repeat hstep.
    + intros h s (h0 & Hh & ->). rewrite fmap_app, (assoc_L (++)).
      eapply setup_snoc; [exact Hh|exact Hcls|setup_eq..].
    + intros h s x Hh. eapply HX.
      eapply setup_snoc; [exact Hh|exact Hcls|setup_eq..].
  - intros acc h s Hh. unfold one_worker_per_shard.
    unfold enumerate in Hh. by rewrite fmap_imap in Hh.
Qed.

Lemma train_all_setup cfg a r b c training_workers
    (X : list (Entry IngestE) -> unit -> Prop) :
  (forall h s, setup cfg a r b c h -> X h s) ->
  triple (fun h _ => setup cfg a r b c h)
    (train_all training_workers)
    (fun _ h _ => setup cfg a r b c h)
    X.
Proof.
  intros HX. unfold train_all.
  eapply triple_bind with (Q' := fun _ h _ => setup cfg a r b c h).
  { apply triple_loop with (I := fun _ _ h _ => setup cfg a r b c h); [done| |done].
    intros seen worker rest acc _. repeat hstep.
    - setup_solve.
    - intros. eapply HX. setup_solve. }
  intros refs. repeat hstep.
  - setup_solve.
  - intros. eapply HX. setup_solve.
Qed.

Lemma small_run_setup :
  triple (fun h s => h = [])
    Small.run
    (fun _ h _ => exists splits,
       setup small_config [None] [rows small_config] [splits]
         (one_worker_per_shard TrainingWorker splits) h)
    (fun h _ => exists r b c, setup small_config [None] r b c h).
Proof.
  unfold Small.run. repeat hstep; hside setup_solve.
  lazymatch goal with
  | |- triple _ (bind (start_workers _ ?splits) _) _ _ =>
      eapply triple_bind;
      [eapply triple_pre;
       [apply (start_workers_setup small_config [None] [rows small_config] [splits] []
                 TrainingWorker splits); [done|]; intros; by eexists _, _, _
       |setup_solve]
      |intros training_workers; hstep; [|setup_solve];
       eapply triple_bind;
       [eapply triple_pre;
        [apply (train_all_setup small_config [None] [rows small_config] [splits]
                  (one_worker_per_shard TrainingWorker splits));
         intros; by eexists _, _, _
        |setup_solve]
       |intros []; repeat hstep; hside setup_solve]]
  end.
Qed.

Lemma large_run_setup :
  triple (fun h s => h = [])
    Large.run
    (fun _ h _ => exists splits,
       setup large_config [Some "auto"] [rows large_config] [splits]
         (one_worker_per_shard (TrainingWorker_options 1) splits) h)
    (fun h _ => exists r b c, setup large_config [Some "auto"] r b c h).
Proof.
  unfold Large.run. repeat hstep; hside setup_solve.
  lazymatch goal with
  | |- triple _ (bind (start_workers _ ?splits) _) _ _ =>
      eapply triple_bind;
      [eapply triple_pre;
       [apply (start_workers_setup large_config [Some "auto"] [rows large_config]
                 [splits] [] (TrainingWorker_options 1) splits);
        [done|]; intros; by eexists _, _, _
       |setup_solve]
      |intros training_workers; hstep; [|setup_solve];
       eapply triple_bind;
       [eapply triple_pre;
        [apply (train_all_setup large_config [Some "auto"] [rows large_config] [splits]
                  (one_worker_per_shard (TrainingWorker_options 1) splits));
         intros; by eexists _, _, _
        |setup_solve]
       |intros []; repeat hstep; hside setup_solve]]
  end.
Qed.

(** The script takes exactly one of the two branches. *)
Lemma main_setup large_scale_test :
  triple (fun h s => h = [])
    (main large_scale_test)
    (fun _ h _ => exists splits,
       setup (config large_scale_test) [address (config large_scale_test)]
         [rows (config large_scale_test)] [splits]
         (one_worker_per_shard (worker_class (config large_scale_test)) splits) h)
    (fun h _ => exists r b c,
       setup (config large_scale_test) [address (config large_scale_test)] r b c h).
Proof.
  unfold main. destruct large_scale_test; cbn [negb bind config].
  - apply large_run_setup.
  - eapply triple_bind; [apply small_run_setup|]. intros []. by apply triple_ret.
Qed.

(** *** The rows asked of the random-integer datasource *)

Ltac rows_solve :=
  intros; hdestruct; cbn [rows_requested omap list_omap app];
  first [ done | by repeat constructor ].

Lemma create_large_shuffle_pipeline_rows data_size_bytes num_epochs num_columns
    num_shards :
  triple (fun h s => h = [])
    (create_large_shuffle_pipeline data_size_bytes num_epochs num_columns num_shards)
    (fun _ h _ => rows_requested h = [(data_size_bytes `div` 8) `div` num_columns])
    (fun h _ => Forall (eq ((data_size_bytes `div` 8) `div` num_columns))
                  (rows_requested h)).
Proof. repeat hstep; rows_solve. Qed.

Lemma generate_example_files_rows size_bytes :
  triple (fun h s => h = [])
    (Small.generate_example_files size_bytes)
    (fun _ h _ => rows_requested h = [(size_bytes `div` 8) `div` Small.NUM_COLUMNS])
    (fun h _ => Forall (eq ((size_bytes `div` 8) `div` Small.NUM_COLUMNS))
                  (rows_requested h)).
Proof. repeat hstep; rows_solve. Qed.

Lemma conforms_rows cfg h :
  Forall (fun e => conforms cfg e = true) h -> Forall (eq (rows cfg)) (rows_requested h).
Proof.
  induction 1 as [|e h He _ IH]; [constructor|].
  destruct e as [R [] o]; cbn [rows_requested omap list_omap]; try exact IH.
  constructor; [|exact IH]. simpl in He.
  apply andb_prop in He as [He _]. apply Z.eqb_eq in He. done.
Qed.

(** ** The claims about big_data_ingestion.py *)

(** C6: what [create_shuffle_pipeline] returns is the result of the chain
    read_parquet, repeat [num_epochs] times, random_shuffle_each_window,
    split into [num_shards] with [equal=True], each call made on the result
    of the one before and no other call made;
    [create_large_shuffle_pipeline] runs the same chain on the dataset read
    from the random-integer datasource. *)
Theorem create_shuffle_pipeline_is_the_four_step_chain
    (w : Oracle IngestE) training_data_dir data_size_bytes num_epochs num_columns
    num_shards s h (shards : list Obj) :
  (result (run w (create_shuffle_pipeline training_data_dir num_epochs num_shards) s h)
   = Returned shards ->
   exists ds repeated shuffled,
     trace (run w (create_shuffle_pipeline training_data_dir num_epochs num_shards) s h)
     = h ++ [Log (ReadParquet training_data_dir) (Returned ds)]
         ++ chain ds num_epochs None num_shards repeated shuffled shards) /\
  (result (run w (create_large_shuffle_pipeline data_size_bytes num_epochs num_columns
                    num_shards) s h)
   = Returned shards ->
   exists datasource ds repeated shuffled,
     num_columns <> 0 /\
     trace (run w (create_large_shuffle_pipeline data_size_bytes num_epochs num_columns
                     num_shards) s h)
     = h ++ [Log RandomIntRowDatasource (Returned datasource);
             Log (ReadDatasource datasource
                    ((data_size_bytes `div` 8) `div` num_columns) num_columns
                    (Some "node:")) (Returned ds)]
         ++ chain ds num_epochs (Some "node:") num_shards repeated shuffled shards).
Proof.
  split; intros Hres.
  - pose proof (create_shuffle_pipeline_chain training_data_dir num_epochs num_shards h s)
      as Ht.
    eapply (triple_run _ _ _ _ w h s) in Ht as [Hq _]; [|done]. by apply Hq.
  - pose proof (create_large_shuffle_pipeline_chain data_size_bytes num_epochs
                  num_columns num_shards h s) as Ht.
    eapply (triple_run _ _ _ _ w h s) in Ht as [Hq _]; [|done]. by apply Hq.
Qed.

Lemma create_shuffle_pipeline_is_the_four_step_chain_witness :
  exists ds repeated shuffled,
    trace (run example_world (create_shuffle_pipeline "/data" 5 4) tt [])
    = [] ++ [Log (ReadParquet "/data") (Returned ds)]
         ++ chain ds 5 None 4 repeated shuffled
              [Handle 100%nat; Handle 101%nat; Handle 102%nat; Handle 103%nat].
Proof.
  apply (create_shuffle_pipeline_is_the_four_step_chain example_world
           "/data" 800 5 10 4 tt []
           [Handle 100%nat; Handle 101%nat; Handle 102%nat; Handle 103%nat]).
  reflexivity.
Defined.

(** C10: every [read_datasource] call of either pipeline asks for
    [data_size_bytes // 8 // num_columns] rows, and a pipeline that is
    built makes exactly one such call; the small run, with 100MiB and 10
    columns, asks for 1310720 rows. *)
Theorem rows_requested_is_size_div_8_div_columns
    (w : Oracle IngestE) data_size_bytes num_epochs num_columns num_shards s :
  Forall (eq ((data_size_bytes `div` 8) `div` num_columns))
    (rows_requested
       (trace (run w (create_large_shuffle_pipeline data_size_bytes num_epochs
                        num_columns num_shards) s []))) /\
  (forall shards,
     result (run w (create_large_shuffle_pipeline data_size_bytes num_epochs
                      num_columns num_shards) s []) = Returned shards ->
     rows_requested
       (trace (run w (create_large_shuffle_pipeline data_size_bytes num_epochs
                        num_columns num_shards) s []))
     = [(data_size_bytes `div` 8) `div` num_columns]) /\
  Forall (eq ((data_size_bytes `div` 8) `div` Small.NUM_COLUMNS))
    (rows_requested (trace (run w (Small.generate_example_files data_size_bytes) s []))) /\
  (forall tmpdir,
     result (run w (Small.generate_example_files data_size_bytes) s []) = Returned tmpdir ->
     rows_requested (trace (run w (Small.generate_example_files data_size_bytes) s []))
     = [(data_size_bytes `div` 8) `div` Small.NUM_COLUMNS]) /\
  Forall (eq 1310720) (rows_requested (trace (run w (main false) s []))) /\
  (result (run w (main false) s []) = Returned tt ->
   rows_requested (trace (run w (main false) s [])) = [1310720]) /\
  Small.SIZE_100MiB = 104857600 /\ Small.NUM_COLUMNS = 10 /\
  (104857600 `div` 8) `div` 10 = 1310720.
Proof.
  split; [|split; [|split; [|split; [|split; [|split]]]]].
  - pose proof (create_large_shuffle_pipeline_rows data_size_bytes num_epochs
                  num_columns num_shards) as Ht.
    eapply (triple_run _ _ _ _ w [] s) in Ht as [Hq Hx]; [|done].
    destruct (result _) as [u|x] eqn:Hres.
    + rewrite (Hq u eq_refl). by repeat constructor.
    + by apply (Hx x).
  - intros shards Hres.
    pose proof (create_large_shuffle_pipeline_rows data_size_bytes num_epochs
                  num_columns num_shards) as Ht.
    eapply (triple_run _ _ _ _ w [] s) in Ht as [Hq _]; [|done]. by apply (Hq shards).
  - pose proof (generate_example_files_rows data_size_bytes) as Ht.
    eapply (triple_run _ _ _ _ w [] s) in Ht as [Hq Hx]; [|done].
    destruct (result _) as [u|x] eqn:Hres.
    + rewrite (Hq u eq_refl). by repeat constructor.
    + by apply (Hx x).
  - intros tmpdir Hres. pose proof (generate_example_files_rows data_size_bytes) as Ht.
    eapply (triple_run _ _ _ _ w [] s) in Ht as [Hq _]; [|done]. by apply (Hq tmpdir).
  - pose proof (main_setup false) as Ht.
    eapply (triple_run _ _ _ _ w [] s) in Ht as [Hq Hx]; [|done].
    apply (conforms_rows small_config).
    destruct (result _) as [u|x] eqn:Hres.
    + destruct (Hq u eq_refl) as (splits & Hall & _). exact Hall.
    + destruct (Hx x eq_refl) as (r & b & c & Hall & _). exact Hall.
  - intros Hres. pose proof (main_setup false) as Ht.
    eapply (triple_run _ _ _ _ w [] s) in Ht as [Hq _]; [|done].
    destruct (Hq tt Hres) as (splits & _ & _ & Hrows & _). exact Hrows.
  - done.
Qed.

Lemma rows_requested_is_size_div_8_div_columns_witness :
  rows_requested (trace (run example_world (main false) tt [])) = [1310720].
Proof.
  apply (rows_requested_is_size_div_8_div_columns example_world 800 5 10 4 tt).
  reflexivity.
Defined.

(** *** The whole history of a run that returns *)

Ltac calls_eq :=
  repeat (progress (simpl; rewrite ?app_nil_r, <- ?(assoc_L (++)))); reflexivity.

Lemma timed_training_calls cls splits h0 :
  triple (fun h _ => h = h0)
    (timed_training cls splits)
    (fun _ h _ => exists ws refs start now,
       length ws = length splits /\ length refs = length ws /\
       h = h0 ++ training_calls cls splits ws refs start now)
    (fun _ _ => True).
Proof.
  unfold timed_training, start_workers, train_all.
  eapply triple_bind with
    (Q' := fun ws h _ =>
       length ws = length splits /\ h = h0 ++ actor_creations cls splits ws).
  { apply triple_loop with
      (I := fun seen acc h _ =>
         length acc = length seen /\
         h = h0 ++ zip_with (fun '(rank, shard) worker =>
                      Log (ActorRemote cls (Z.of_nat rank) shard) (Returned worker))
                    seen acc).
    - intros h s ->. split; [done|]. simpl. by rewrite app_nil_r.
    - intros seen [rank shard] rest acc _. repeat hstep; [|done].
      intros h s (h1 & [Hlen ->] & ->).
      split; [rewrite !length_app; simpl; lia|].
      rewrite zip_with_app by done. calls_eq.
    - intros acc h s [Hlen ->]. split; [|done].
      rewrite Hlen. unfold enumerate. by rewrite length_imap. }
  intros ws. hstep; [|done]. rename r into start.
  eapply triple_bind with
    (Q' := fun _ h _ => exists refs,
       length ws = length splits /\ length refs = length ws /\
       h = h0 ++ actor_creations cls splits ws ++ [Log TimeTime (Returned start)]
             ++ training_requests ws refs ++ [Log (RayGet refs) (Returned tt)]).
  { eapply triple_bind with
      (Q' := fun refs h _ =>
         length ws = length splits /\ length refs = length ws /\
         h = h0 ++ actor_creations cls splits ws ++ [Log TimeTime (Returned start)]
               ++ training_requests ws refs).
    - apply triple_loop with
        (I := fun seen acc h _ =>
           length ws = length splits /\ length acc = length seen /\
           h = h0 ++ actor_creations cls splits ws ++ [Log TimeTime (Returned start)]
                 ++ training_requests seen acc).
      + intros h s (h1 & [Hws ->] & ->). split; [done|]. split; [done|]. calls_eq.
      + intros seen x rest acc _. repeat hstep; [|done].
        intros h s (h1 & (Hws & Hlen & ->) & ->). split; [done|].
        split; [rewrite !length_app; simpl; lia|].
        unfold training_requests. rewrite zip_with_app by done. calls_eq.
      + done.
    - intros refs. repeat hstep; [|done].
      intros h s (h1 & (Hws & Hlen & ->) & ->). destruct r as [].
      exists refs. split; [done|]. split; [done|]. calls_eq. }
  intros []. repeat hstep; [|done..].
  intros h s (h1 & (h2 & (refs & Hws & Hlen & ->) & ->) & ->). destruct r0 as [].
  exists ws, refs, start, r. split; [done|]. split; [done|].
  unfold training_calls. calls_eq.
Qed.

Ltac units := repeat match goal with u : unit |- _ => destruct u end.

Lemma small_run_calls :
  triple (fun h s => h = [])
    Small.run
    (fun _ h _ =>
       exists tmpdir datasource generated ds repeated shuffled splits ws refs start now,
         length ws = length splits /\ length refs = length ws /\
         h = small_calls tmpdir datasource generated ds repeated shuffled splits ws refs
               start now)
    (fun _ _ => True).
Proof.
  unfold Small.run. repeat hstep; hside ltac:(done).
  lazymatch goal with
  | |- triple _ (bind (start_workers _ ?splits) _) _ _ =>
      eapply triple_conseq;
      [apply (timed_training_calls TrainingWorker splits)
      |intros; hdestruct; reflexivity
      |
      |done]
  end.
  intros _ h s (ws & refs & start & now & Hws & Hlen & ->). units.
  eexists _, _, _, _, _, _, _, ws, refs, start, now.
  split; [done|]. split; [done|]. unfold small_calls, chain. calls_eq.
Qed.

Lemma large_run_calls :
  triple (fun h s => h = [])
    Large.run
    (fun _ h _ =>
       exists datasource ds repeated shuffled splits ws refs start now,
         length ws = length splits /\ length refs = length ws /\
         h = large_calls datasource ds repeated shuffled splits ws refs start now)
    (fun _ _ => True).
Proof.
  unfold Large.run. repeat hstep; hside ltac:(done).
  lazymatch goal with
  | |- triple _ (bind (start_workers _ ?splits) _) _ _ =>
      eapply triple_conseq;
      [apply (timed_training_calls (TrainingWorker_options 1) splits)
      |intros; hdestruct; reflexivity
      |
      |done]
  end.
  intros _ h s (ws & refs & start & now & Hws & Hlen & ->). units.
  eexists _, _, _, _, _, ws, refs, start, now.
  split; [done|]. split; [done|]. unfold large_calls, chain. calls_eq.
Qed.

Lemma main_calls (large_scale_test : bool) :
  triple (fun h s => h = [])
    (main large_scale_test)
    (fun _ h _ =>
       exists datasource ds repeated shuffled splits ws refs start now,
         length ws = length splits /\ length refs = length ws /\
         if large_scale_test
         then h = large_calls datasource ds repeated shuffled splits ws refs start now
         else exists tmpdir generated,
                h = small_calls tmpdir datasource generated ds repeated shuffled splits
                      ws refs start now)
    (fun _ _ => True).
Proof.
  unfold main. destruct large_scale_test; cbn [negb bind].
  - apply large_run_calls.
  - eapply triple_bind; [apply small_run_calls|]. intros []. apply triple_ret.
    intros h s (tmpdir & datasource & generated & ds & repeated & shuffled & splits
                & ws & refs & start & now & Hws & Hlen & ->).
    exists datasource, ds, repeated, shuffled, splits, ws, refs, start, now.
    split; [done|]. split; [done|]. by exists tmpdir, generated.
Qed.

(** C7: the script runs exactly one of the two configurations, the one
    [args.large_scale_test] selects.  It calls [ray.init] once, without an
    address when the flag is absent and with address ["auto"] when it is
    present; every dataset read, split and worker creation it makes uses
    the values of that configuration (1310720 rows of 10 columns, that is
    100MiB, 4 shards, plain workers; or 6710886400 rows of 10 columns, that
    is 500GiB, 16 shards, workers with [num_gpus=1]); a run that returns
    has read the data once and created one worker for each shard that
    [split] returned: 4 or 16 workers when [split] returns as many shards
    as it is asked for; and the history of a run that returns is exactly
    the calls of the selected branch, from [ray.init] through the pipeline,
    the creation of the workers, the training of every one of them and
    [ray.get] on their results, to the line printed at the end, and holds
    no call of the other branch. *)
Theorem main_runs_exactly_one_configuration
    (w : Oracle IngestE) (large_scale_test : bool) s :
  ray_inits (trace (run w (main large_scale_test) s []))
  = [address (config large_scale_test)] /\
  Forall (fun e => conforms (config large_scale_test) e = true)
    (trace (run w (main large_scale_test) s [])) /\
  (result (run w (main large_scale_test) s []) = Returned tt ->
   exists splits,
     shards_returned (trace (run w (main large_scale_test) s [])) = [splits] /\
     rows_requested (trace (run w (main large_scale_test) s []))
     = [rows (config large_scale_test)] /\
     workers_created (trace (run w (main large_scale_test) s []))
     = one_worker_per_shard (worker_class (config large_scale_test)) splits /\
     length (workers_created (trace (run w (main large_scale_test) s [])))
     = length splits /\
     (length splits = Z.to_nat (shards (config large_scale_test)) ->
      length (workers_created (trace (run w (main large_scale_test) s [])))
      = if large_scale_test then 16%nat else 4%nat)) /\
  (result (run w (main large_scale_test) s []) = Returned tt ->
   exists datasource ds repeated shuffled splits ws refs start now,
     length ws = length splits /\ length refs = length ws /\
     if large_scale_test
     then trace (run w (main large_scale_test) s [])
          = large_calls datasource ds repeated shuffled splits ws refs start now
     else exists tmpdir generated,
            trace (run w (main large_scale_test) s [])
            = small_calls tmpdir datasource generated ds repeated shuffled splits
                ws refs start now) /\
  config false
  = {| address := None; rows := 1310720; columns := 10; shards := 4;
       worker_class := TrainingWorker |} /\
  config true
  = {| address := Some "auto"; rows := 6710886400; columns := 10; shards := 16;
       worker_class := TrainingWorker_options 1 |} /\
  1310720 * 8 * 10 = 100 * 1024 * 1024 /\
  6710886400 * 8 * 10 = 500 * 1024 * 1024 * 1024.
Proof.
  pose proof (main_setup large_scale_test) as Ht.
  eapply (triple_run _ _ _ _ w [] s) in Ht as [Hq Hx]; [|done].
  split; [|split; [|split; [|split]]].
  - destruct (result _) as [u|x] eqn:Hres.
    + destruct (Hq u eq_refl) as (splits & _ & Hinit & _). exact Hinit.
    + destruct (Hx x eq_refl) as (r & b & c & _ & Hinit & _). exact Hinit.
  - destruct (result _) as [u|x] eqn:Hres.
    + destruct (Hq u eq_refl) as (splits & Hall & _). exact Hall.
    + destruct (Hx x eq_refl) as (r & b & c & Hall & _). exact Hall.
  - intros Hres.
    destruct (Hq tt Hres) as (splits & _ & _ & Hrows & Hsplits & Hworkers).
    exists splits. rewrite Hworkers. unfold one_worker_per_shard.
    rewrite length_imap. repeat split; try done.
    intros ->. by destruct large_scale_test.
  - intros Hres. pose proof (main_calls large_scale_test) as Hc.
    eapply (triple_run _ _ _ _ w [] s) in Hc as [Hcq _]; [|done].
    exact (Hcq tt Hres).
  - done.
Qed.

Lemma main_runs_exactly_one_configuration_witness :
  exists splits,
    shards_returned (trace (run example_world (main true) tt [])) = [splits] /\
    rows_requested (trace (run example_world (main true) tt [])) = [6710886400] /\
    workers_created (trace (run example_world (main true) tt []))
    = one_worker_per_shard (TrainingWorker_options 1) splits /\
    length (workers_created (trace (run example_world (main true) tt [])))
    = length splits /\
    (length splits = Z.to_nat (shards (config true)) ->
     length (workers_created (trace (run example_world (main true) tt []))) = 16%nat).
Proof.
  apply (main_runs_exactly_one_configuration example_world true tt).
  reflexivity.
Defined.
End IngestProofs.


(** * More properties of the Horovod backend *)

Section HorovodMore.
Import Horovod.
Implicit Types (h : list (Entry RayE)) (s : State).

Ltac hunfold ::=
  unfold Horovod.callee, Horovod.set_coordinator, Horovod.get_coordinator;
  cbn [import_horovod Coordinator detect_nics nics_to_env_var].

(** ** Where the exceptions of [on_start] come from *)

(** X1: with Horovod installed, [on_start] raises nothing by itself:
    whatever it raises is the exception of the external call it made last. *)
Theorem on_start_raises_only_what_a_call_raised
    (w : Oracle RayE) worker_group backend_config s x :
  result (run w (on_start (import_horovod true) worker_group backend_config) s [])
  = Raised x ->
  exists h' R (e : RayE R),
    trace (run w (on_start (import_horovod true) worker_group backend_config) s [])
    = h' ++ [Log e (Raised x)].
Proof.
  intros Hres.
  destruct (run_raised w _ s [] x Hres) as [Hl|[_ Hr]]; [done|]. exfalso.
  pose proof (on_start_handshake_installed worker_group backend_config s) as Ht.
  eapply (triple_run _ _ _ _ w [] s) in Ht as [_ Hx]; [|done].
  destruct (Hx x Hres) as (h1 & R1 & e1 & x1 & Heq).
  destruct Hr as [Hr|(h2 & R2 & e2 & r & Hr)].
  - rewrite Hr in Heq. by destruct h1.
  - rewrite Hr in Heq. symmetry in Heq. by apply raised_last_unique in Heq.
Qed.

Lemma on_start_raises_only_what_a_call_raised_witness :
  exists h' R (e : RayE R),
    trace (run failing_world (on_start (import_horovod true) example_group 0%nat)
             example_state [])
    = h' ++ [Log e (Raised (ExternalError "RuntimeError"))].
Proof.
  apply (on_start_raises_only_what_a_call_raised failing_world example_group 0%nat
           example_state).
  reflexivity.
Defined.

Lemma steps_all_seed_snoc h e :
  Forall (eq 1%nat) (steps h) ->
  (step_of e = None \/ step_of e = Some SeedEnv) ->
  Forall (eq 1%nat) (steps (h ++ [e])).
Proof.
  intros Hh He. unfold steps. rewrite omap_app. apply Forall_app. split; [done|].
  simpl. destruct He as [->| ->]; simpl; by repeat constructor.
Qed.

Ltac seed_only :=
  intros; hdestruct; split; [|done];
  repeat first [ eassumption | apply Forall_nil_2
               | apply steps_all_seed_snoc; [|first [by left|by right]] ].

Lemma on_start_not_installed worker_group backend_config s0 :
  triple (fun h s => h = [] /\ s = s0)
    (on_start (import_horovod false) worker_group backend_config)
    (fun _ _ _ => False)
    (fun h s => Forall (eq 1%nat) (steps h) /\ s = s0).
Proof.
  unfold on_start.
  eapply triple_bind with (Q' := fun _ h s => Forall (eq 1%nat) (steps h) /\ s = s0).
  { apply triple_loop with (I := fun _ _ h s => Forall (eq 1%nat) (steps h) /\ s = s0);
      [seed_only| |done].
    intros seen rank rest acc _. repeat hstep; seed_only. }
  intros setup_futures. hstep; [|seed_only]. hstep. seed_only.
Qed.

Lemma on_start_not_installed_may_raise worker_group backend_config x :
  may_raise (on_start (import_horovod false) worker_group backend_config) x ->
  x = TypeError "'NoneType' object is not callable".
Proof.
  unfold on_start. intros Hm. apply may_raise_bind in Hm as [Hm|[futs Hm]].
  - apply may_raise_for in Hm as (rank & acc & Hin & Hm). exfalso.
    unfold range in Hin. apply elem_of_seq in Hin as [_ Hin].
    unfold getitem in Hm.
    destruct (workers worker_group !! rank) as [wk|] eqn:Hwk; simpl in Hm.
    + by destruct Hm.
    + apply lookup_ge_None in Hwk. unfold len in Hin. lia.
  - simpl in Hm. by destruct Hm as [_ <-].
Qed.

(** X2: without Horovod, [on_start] never returns and never gets past the
    seeding: every call it makes belongs to the first step, the backend
    and the configuration objects stay as they were, and what it raises
    is the exception of its last call or the [TypeError] of calling
    [None]; it is that [TypeError] when no call raises. *)
Theorem on_start_without_horovod_stops_after_seeding
    (w : Oracle RayE) worker_group backend_config s :
  (exists x,
     result (run w (on_start (import_horovod false) worker_group backend_config) s [])
     = Raised x /\
     (x = TypeError "'NoneType' object is not callable" \/
      exists h' R (e : RayE R),
        trace (run w (on_start (import_horovod false) worker_group backend_config) s [])
        = h' ++ [Log e (Raised x)])) /\
  Forall (eq 1%nat)
    (steps (trace (run w (on_start (import_horovod false) worker_group backend_config)
                     s []))) /\
  final (run w (on_start (import_horovod false) worker_group backend_config) s []) = s /\
  ((forall h R (e : RayE R), returned (w h R e) = true) ->
   result (run w (on_start (import_horovod false) worker_group backend_config) s [])
   = Raised (TypeError "'NoneType' object is not callable")).
Proof.
  pose proof (on_start_not_installed worker_group backend_config s) as Ht.
  eapply (triple_run _ _ _ _ w [] s) in Ht as [Hq Hx]; [|done].
  assert (Hraise : exists x,
     result (run w (on_start (import_horovod false) worker_group backend_config) s [])
     = Raised x /\
     (x = TypeError "'NoneType' object is not callable" \/
      exists h' R (e : RayE R),
        trace (run w (on_start (import_horovod false) worker_group backend_config) s [])
        = h' ++ [Log e (Raised x)])).
  { destruct (result _) as [u|x] eqn:Hres; [by destruct (Hq u)|].
    exists x. split; [done|].
    destruct (run_raised w _ s [] x Hres) as [Hl|[Hm _]]; [by right|left].
    by apply on_start_not_installed_may_raise in Hm. }
  split; [exact Hraise|].
  destruct Hraise as (x & Hres & Hx').
  destruct (Hx x Hres) as [Hsteps Hs]. split; [done|]. split; [done|].
  intros Hw. rewrite Hres. destruct Hx' as [->|(h' & R & e & Heq)]; [done|]. exfalso.
  pose proof (run_never_raises w
    (on_start (import_horovod false) worker_group backend_config) s [] Hw
    (Forall_nil_2 _)) as Hall.
  rewrite Heq in Hall. apply Forall_app in Hall as [_ Hall].
  apply Forall_cons in Hall as [Hall _]. discriminate Hall.
Qed.

Lemma on_start_without_horovod_stops_after_seeding_witness :
  result (run example_world (on_start (import_horovod false) example_group 0%nat)
            example_state [])
  = Raised (TypeError "'NoneType' object is not callable").
Proof.
  apply (on_start_without_horovod_stops_after_seeding example_world example_group 0%nat
           example_state).
  intros h R []; reflexivity.
Defined.

(** ** The coordinator of a handshake *)

Ltac forall_eq :=
  simpl; rewrite ?app_nil_r;
  repeat first [ assumption | apply Forall_nil_2
               | apply Forall_app; split
               | apply Forall_cons; split; [reflexivity|] ].
Ltac built_solve :=
  idtac; intros; unfold unbuilt, built_as in *; hdestruct; simplify_eq/=;
  first [ done
        | solve [split; [observed_inner|done]]
        | solve [split; [eexists; split; [observed_inner|forall_eq]|done]]
        | solve [left; split; [observed_inner|done]]
        | solve [eexists; split; [eexists; split; [observed_inner|forall_eq]|done]]
        | solve [right; eexists; split; [eexists; split; [observed_inner|forall_eq]|done]] ].

Lemma on_start_coordinator g worker_group backend_config s0 :
  triple (fun h s => h = [] /\ s = s0)
    (on_start g worker_group backend_config)
    (fun _ h s => exists c, built_as s0 c h s)
    (fun h s => unbuilt s0 h s \/ exists c, built_as s0 c h s).
Proof.
  unfold on_start.
  eapply triple_bind with (Q' := fun _ h s => unbuilt s0 h s).
  { apply triple_loop with (I := fun _ _ h s => unbuilt s0 h s); [built_solve| |done].
    intros seen rank rest acc _. repeat hstep; built_solve. }
  intros setup_futures. repeat hstep; hside ltac:(built_solve).
  match goal with c' : CoordinatorRef |- _ => rename c' into built end.
  eapply triple_bind with (Q' := fun _ h s => built_as s0 built h s).
  { apply triple_loop with (I := fun _ _ h s => built_as s0 built h s);
      [built_solve| |done].
    intros seen [rank [hn ni]] rest [] _. repeat hstep; hside ltac:(built_solve). }
  intros []. repeat hstep; hside ltac:(built_solve).
  eapply triple_bind with (Q' := fun _ h s => built_as s0 built h s).
  { apply triple_loop with (I := fun _ _ h s => built_as s0 built h s);
      [built_solve| |done].
    intros seen [rank env] rest acc _. repeat hstep; hside ltac:(built_solve). }
  intros setup_futures2. repeat hstep; hside ltac:(built_solve).
Qed.

(** X3: every method call of a handshake is made on the coordinator that
    this call of [on_start] built, whatever [self.coordinator] held
    before; [on_start] stores that coordinator in [self] and changes
    nothing else, and it leaves the state alone when no coordinator was
    built. *)
Theorem on_start_uses_the_coordinator_it_builds
    (w : Oracle RayE) (g : Globals) worker_group backend_config s :
  ((coordinators_built (trace (run w (on_start g worker_group backend_config) s [])) = [] /\
    coordinators_used (trace (run w (on_start g worker_group backend_config) s [])) = [] /\
    final (run w (on_start g worker_group backend_config) s []) = s) \/
   (exists c,
      coordinators_built (trace (run w (on_start g worker_group backend_config) s []))
      = [c] /\
      Forall (eq c)
        (coordinators_used (trace (run w (on_start g worker_group backend_config) s []))) /\
      final (run w (on_start g worker_group backend_config) s [])
      = {| heap := heap s; self := {| coordinator := Some c |} |})) /\
  (result (run w (on_start g worker_group backend_config) s []) = Returned tt ->
   exists c,
     coordinators_built (trace (run w (on_start g worker_group backend_config) s []))
     = [c] /\
     Forall (eq c)
       (coordinators_used (trace (run w (on_start g worker_group backend_config) s []))) /\
     final (run w (on_start g worker_group backend_config) s [])
     = {| heap := heap s; self := {| coordinator := Some c |} |}).
Proof.
  pose proof (on_start_coordinator g worker_group backend_config s) as Ht.
  eapply (triple_run _ _ _ _ w [] s) in Ht as [Hq Hx]; [|done].
  assert (Hb : forall c h s',
    built_as s c h s' ->
    coordinators_built h = [c] /\ Forall (eq c) (coordinators_used h) /\
    s' = {| heap := heap s; self := {| coordinator := Some c |} |}).
  { intros c h s' [(u & (Hb & Hu & _) & Hall) ->].
    unfold coordinators_built, coordinators_used. by rewrite Hb, Hu. }
  split.
  - destruct (result _) as [u|x] eqn:Hres.
    + right. destruct (Hq u eq_refl) as [c Hc]. exists c. by apply Hb.
    + destruct (Hx x eq_refl) as [[(Hb' & Hu & _) Hs]|[c Hc]].
      * by left.
      * right. exists c. by apply Hb.
  - intros Hres. destruct (Hq tt Hres) as [c Hc]. exists c. by apply Hb.
Qed.

Lemma on_start_uses_the_coordinator_it_builds_witness :
  exists c,
    coordinators_built
      (trace (run example_world (on_start (import_horovod true) example_group 0%nat)
                {| heap := ∅; self := {| coordinator := Some (CoordRef 7) |} |} []))
    = [c] /\
    Forall (eq c)
      (coordinators_used
         (trace (run example_world (on_start (import_horovod true) example_group 0%nat)
                   {| heap := ∅; self := {| coordinator := Some (CoordRef 7) |} |} []))) /\
    final (run example_world (on_start (import_horovod true) example_group 0%nat)
             {| heap := ∅; self := {| coordinator := Some (CoordRef 7) |} |} [])
    = {| heap := heap {| heap := ∅; self := {| coordinator := Some (CoordRef 7) |} |};
         self := {| coordinator := Some c |} |}.
Proof.
  apply (on_start_uses_the_coordinator_it_builds example_world (import_horovod true)
           example_group 0%nat
           {| heap := ∅; self := {| coordinator := Some (CoordRef 7) |} |}).
  reflexivity.
Defined.

(** ** The seeding requests *)

Lemma expected_seed_calls_lookup worker_group rank wk :
  workers worker_group !! rank = Some wk ->
  expected_seed_calls worker_group !! rank
  = Some (Z.of_nat rank, Z.of_nat rank, Z.of_nat (len worker_group), node_id (metadata wk)).
Proof. intros Hwk. unfold expected_seed_calls. by rewrite list_lookup_imap, Hwk. Qed.

Ltac stage2_solve H :=
  idtac; intros; hdestruct;
  first [ solve [eapply H; observed_inner] | solve [eexists; observed_inner] ].

Lemma on_start_seeding g worker_group backend_config :
  triple (fun h s => h = [])
    (on_start g worker_group backend_config)
    (fun _ h _ => exists b,
       observed seed_call wait nothing (expected_seed_calls worker_group) b [] h)
    (fun h _ => exists a b,
       observed seed_call wait nothing a b [] h /\
       a `prefix_of` expected_seed_calls worker_group /\
       (b <> [] -> a = expected_seed_calls worker_group)).
Proof.
  set (expected := expected_seed_calls worker_group).
  assert (Hlen : length expected = len worker_group).
  { unfold expected, expected_seed_calls. by rewrite length_imap. }
  assert (Hstage2 : forall h b,
    observed seed_call wait nothing expected b [] h ->
    exists a b', observed seed_call wait nothing a b' [] h /\
                 a `prefix_of` expected /\ (b' <> [] -> a = expected)).
  { intros h b Hh. by exists expected, b. }
  unfold on_start.
  eapply triple_bind with
    (Q' := fun _ h _ => observed seed_call wait nothing expected [] [] h).
  { apply triple_loop with
      (I := fun seen _ h _ =>
         observed seed_call wait nothing (take (length seen) expected) [] [] h).
    - intros h s ->. apply observed_nil.
    - intros seen rank rest acc Hxs. apply range_split in Hxs as [-> Hlt].
      destruct (lookup_lt_is_Some_2 (workers worker_group) (length seen) Hlt) as [wk Hwk].
      pose proof (expected_seed_calls_lookup worker_group _ _ Hwk) as Hexp.
      fold expected in Hexp.
      hnorm. rewrite Hwk. repeat hstep.
      + intros h s (h0 & Hh & ->). rewrite length_app. simpl. rewrite Nat.add_1_r.
        rewrite (take_S_r _ _ _ Hexp). eapply observed_snoc; [exact Hh|observed_eq..].
      + intros h s x Hh. eexists _, _. split.
        * eapply observed_snoc; [exact Hh|observed_eq..].
        * split; [|done]. simpl. rewrite <- (take_S_r _ _ _ Hexp). apply prefix_take.
    - intros acc h s Hh. unfold range in Hh. rewrite length_seq in Hh.
      by rewrite take_ge in Hh by lia. }
  intros setup_futures.
  eapply triple_pre with
    (P' := fun h _ => observed seed_call wait nothing expected [] [] h); [|done].
  hstep.
  - eapply triple_pre with
      (P' := fun h _ => exists b, observed seed_call wait nothing expected b [] h).
    2: { intros h s (h0 & Hh & ->). eexists. observed_inner. }
    repeat hstep;
      hside ltac:(stage2_solve Hstage2).
    + eapply triple_bind with
        (Q' := fun _ h _ => exists b, observed seed_call wait nothing expected b [] h).
      { apply triple_loop with
          (I := fun _ _ h _ => exists b, observed seed_call wait nothing expected b [] h);
          [stage2_solve Hstage2| |done].
        intros seen [rank [hn ni]] rest [] _. repeat hstep;
          hside ltac:(stage2_solve Hstage2). }
      intros []. repeat hstep;
        hside ltac:(stage2_solve Hstage2).
      eapply triple_bind with
        (Q' := fun _ h _ => exists b, observed seed_call wait nothing expected b [] h).
      { apply triple_loop with
          (I := fun _ _ h _ => exists b, observed seed_call wait nothing expected b [] h);
          [|intros seen [rank env] rest acc _|done].
        - intros; hdestruct; eexists; observed_inner.
        - repeat hstep;
            hside ltac:(stage2_solve Hstage2). }
      intros setup_futures2. repeat hstep;
        hside ltac:(stage2_solve Hstage2).
  - intros h s x Hh. apply (Hstage2 _ [setup_futures]).
    eapply observed_snoc; [exact Hh|observed_eq..].
Qed.

(** X4: the seeding requests go to the workers in order, worker [rank]
    being sent [init_env_vars(rank, len(worker_group), its node id)]: the
    requests made are always an initial part of that list, and all of it
    once [ray.get] has been called.  Run on the workers, two of these
    requests that both return never leave the same HOROVOD_RANK. *)
Theorem on_start_seeds_each_worker_with_its_rank
    (w : Oracle RayE) (g : Globals) worker_group backend_config s :
  seed_calls (trace (run w (on_start g worker_group backend_config) s []))
    `prefix_of` expected_seed_calls worker_group /\
  (waits (trace (run w (on_start g worker_group backend_config) s [])) <> [] ->
   seed_calls (trace (run w (on_start g worker_group backend_config) s []))
   = expected_seed_calls worker_group) /\
  (forall rank wk, workers worker_group !! rank = Some wk ->
     expected_seed_calls worker_group !! rank
     = Some (Z.of_nat rank, Z.of_nat rank, Z.of_nat (len worker_group),
             node_id (metadata wk))) /\
  (forall (i j : nat) size node_i node_j (environ_i environ_j : Environ), i <> j ->
     result (run w (init_env_vars (Z.of_nat i) size node_i) environ_i []) = Returned tt ->
     result (run w (init_env_vars (Z.of_nat j) size node_j) environ_j []) = Returned tt ->
     final (run w (init_env_vars (Z.of_nat i) size node_i) environ_i [])
       !! "HOROVOD_RANK"
     <> final (run w (init_env_vars (Z.of_nat j) size node_j) environ_j [])
          !! "HOROVOD_RANK").
Proof.
  pose proof (on_start_seeding g worker_group backend_config) as Ht.
  eapply (triple_run _ _ _ _ w [] s) in Ht as [Hq Hx]; [|done].
  assert (Hall : exists a b,
    observed seed_call wait nothing a b []
      (trace (run w (on_start g worker_group backend_config) s [])) /\
    a `prefix_of` expected_seed_calls worker_group /\
    (b <> [] -> a = expected_seed_calls worker_group)).
  { destruct (result _) as [u|x] eqn:Hres.
    - destruct (Hq u eq_refl) as [b Hb]. by exists (expected_seed_calls worker_group), b.
    - by apply (Hx x). }
  destruct Hall as (a & b & (Ha & Hb & _) & Hpre & Hfull).
  unfold seed_calls, waits. rewrite Ha, Hb.
  split; [done|]. split; [done|]. split; [apply expected_seed_calls_lookup|].
  intros i j size ni nj ei ej Hij. rewrite !init_env_vars_run.
  destruct (embedded_null ni); [done|]. destruct (embedded_null nj); [done|].
  repeat (destruct (decide _); [done|]). intros _ _.
  unfold final. cbn [fst snd].
  rewrite lookup_insert_ne by done. rewrite lookup_insert_eq.
  rewrite lookup_insert_ne by done. rewrite lookup_insert_eq.
  intros [= Heq]. unfold decimal in Heq. apply (inj pretty) in Heq. lia.
Qed.

Lemma on_start_seeds_each_worker_with_its_rank_witness :
  seed_calls (trace (run example_world (on_start (import_horovod true) example_group 0%nat)
                       example_state []))
  = [(0, 0, 3, "node-a"); (1, 1, 3, "node-a"); (2, 2, 3, "node-b")].
Proof.
  apply (on_start_seeds_each_worker_with_its_rank example_world (import_horovod true)
           example_group 0%nat example_state).
  by vm_compute.
Defined.

(** ** The environment that is broadcast *)

Ltac envs_solve :=
  idtac; intros; hdestruct;
  first [ solve [observed_inner]
        | solve [eexists _, _; observed_inner]
        | solve [eexists _, _, _; split; [observed_inner|by left]]
        | solve [eexists _, _, _; split; [observed_inner|right; by eexists _, _]] ].

Lemma on_start_broadcast g worker_group backend_config :
  triple (fun h s => h = [])
    (on_start g worker_group backend_config)
    (fun _ h _ => exists envs nenv,
       observed rendezvous_env nic_env broadcast [envs] [nenv] [nenv ∪ envs] h)
    (fun h _ => exists a b c,
       observed rendezvous_env nic_env broadcast a b c h /\
       (c = [] \/ exists envs nenv, a = [envs] /\ b = [nenv] /\ c = [nenv ∪ envs])).
Proof.
  unfold on_start.
  eapply triple_bind with
    (Q' := fun _ h _ => observed rendezvous_env nic_env broadcast [] [] [] h).
  { apply triple_loop with
      (I := fun _ _ h _ => observed rendezvous_env nic_env broadcast [] [] [] h);
      [envs_solve| |done].
    intros seen rank rest acc _. repeat hstep; envs_solve. }
  intros setup_futures. repeat hstep; hside ltac:(envs_solve).
  eapply triple_bind with
    (Q' := fun _ h _ => observed rendezvous_env nic_env broadcast [] [] [] h).
  { apply triple_loop with
      (I := fun _ _ h _ => observed rendezvous_env nic_env broadcast [] [] [] h);
      [envs_solve| |done].
    intros seen [rank [hn ni]] rest [] _. repeat hstep; hside ltac:(envs_solve). }
  intros []. repeat hstep; hside ltac:(envs_solve).
  eapply triple_bind with
    (Q' := fun _ h _ => observed rendezvous_env nic_env broadcast [] [] [] h).
  { apply triple_loop with
      (I := fun _ _ h _ => observed rendezvous_env nic_env broadcast [] [] [] h);
      [envs_solve| |done].
    intros seen [rank env] rest acc _. repeat hstep; hside ltac:(envs_solve). }
  intros setup_futures2. repeat hstep; hside ltac:(envs_solve).
Qed.

(** X5: the environment of the final broadcast is what
    [establish_rendezvous] returned, updated with what [nics_to_env_var]
    returned: a variable of the network interfaces wins over a rendezvous
    variable of the same name, and every other rendezvous variable is
    passed on unchanged.  Nothing else is ever broadcast, and a handshake
    that returns has broadcast once. *)
Theorem on_start_broadcasts_rendezvous_env_updated_with_nics
    (w : Oracle RayE) (g : Globals) worker_group backend_config s :
  (forall env_vars,
     env_vars ∈ broadcasts (trace (run w (on_start g worker_group backend_config) s [])) ->
     exists envs nenv,
       rendezvous_envs (trace (run w (on_start g worker_group backend_config) s []))
       = [envs] /\
       nic_envs (trace (run w (on_start g worker_group backend_config) s [])) = [nenv] /\
       forall k, env_vars !! k = match nenv !! k with
                                 | Some v => Some v
                                 | None => envs !! k
                                 end) /\
  (result (run w (on_start g worker_group backend_config) s []) = Returned tt ->
   length (broadcasts (trace (run w (on_start g worker_group backend_config) s []))) = 1%nat).
Proof.
  pose proof (on_start_broadcast g worker_group backend_config) as Ht.
  eapply (triple_run _ _ _ _ w [] s) in Ht as [Hq Hx]; [|done].
  split.
  - intros ev Hev.
    assert (Hall : exists a b c,
      observed rendezvous_env nic_env broadcast a b c
        (trace (run w (on_start g worker_group backend_config) s [])) /\
      (c = [] \/ exists envs nenv, a = [envs] /\ b = [nenv] /\ c = [nenv ∪ envs])).
    { destruct (result _) as [u|x] eqn:Hres; [|by apply (Hx x)].
      destruct (Hq u eq_refl) as (envs & nenv & Hobs).
      eexists _, _, _. split; [exact Hobs|]. right. by eexists _, _. }
    destruct Hall as (a & b & c & (Ha & Hb & Hc) & Hshape).
    unfold broadcasts in Hev. rewrite Hc in Hev.
    destruct Hshape as [->|(envs & nenv & -> & -> & ->)]; [by apply elem_of_nil in Hev|].
    apply list_elem_of_singleton in Hev as ->.
    exists envs, nenv. split; [done|]. split; [done|].
    intros k. rewrite lookup_union. by destruct (nenv !! k), (envs !! k).
  - intros Hres. destruct (Hq tt Hres) as (envs & nenv & (_ & _ & Hc)).
    unfold broadcasts. by rewrite Hc.
Qed.

Lemma on_start_broadcasts_rendezvous_env_updated_with_nics_witness :
  length (broadcasts
            (trace (run example_world (on_start (import_horovod true) example_group 0%nat)
                      example_state []))) = 1%nat.
Proof.
  apply (on_start_broadcasts_rendezvous_env_updated_with_nics example_world
           (import_horovod true) example_group 0%nat example_state).
  reflexivity.
Defined.

(** ** The per-rank requests *)

Ltac cross_solve :=
  idtac; intros; hdestruct;
  first [ solve [observed_inner]
        | solve [eexists; observed_inner]
        | solve [eexists _, _; split; [observed_inner|left; by split]]
        | solve [eexists _, _; split;
                 [observed_inner
                 |right; eexists; split; [reflexivity|simpl; rewrite ?app_nil_r; done]]] ].

Lemma on_start_cross g worker_group backend_config :
  triple (fun h s => h = [])
    (on_start g worker_group backend_config)
    (fun _ h _ => exists info,
       observed all_info_returned cross_call nothing [info] info [] h)
    (fun h _ => exists a b,
       observed all_info_returned cross_call nothing a b [] h /\
       ((a = [] /\ b = []) \/ exists info, a = [info] /\ b `prefix_of` info)).
Proof.
  unfold on_start.
  eapply triple_bind with
    (Q' := fun _ h _ => observed all_info_returned cross_call nothing [] [] [] h).
  { apply triple_loop with
      (I := fun _ _ h _ => observed all_info_returned cross_call nothing [] [] [] h);
      [cross_solve| |done].
    intros seen rank rest acc _. repeat hstep; cross_solve. }
  intros setup_futures. repeat hstep; hside ltac:(cross_solve).
  eapply triple_bind with
    (Q' := fun _ h _ => observed all_info_returned cross_call nothing [] [] [] h).
  { apply triple_loop with
      (I := fun _ _ h _ => observed all_info_returned cross_call nothing [] [] [] h);
      [cross_solve| |done].
    intros seen [rank [hn ni]] rest [] _. repeat hstep; hside ltac:(cross_solve). }
  intros []. repeat hstep; hside ltac:(cross_solve).
  match goal with r : list (Z * gmap string string) |- _ => rename r into info end.
  eapply triple_bind with
    (Q' := fun _ h _ => observed all_info_returned cross_call nothing [info] info [] h).
  { apply triple_loop with
      (I := fun seen _ h _ =>
         observed all_info_returned cross_call nothing [info] seen [] h);
      [cross_solve| |done].
    intros seen [rank env] rest acc Hxs. repeat hstep.
    - cross_solve.
    - intros h ? x Hh. eexists _, _. split.
      + eapply observed_snoc; [exact Hh|observed_eq..].
      + right. exists info. split; [done|]. simpl. rewrite Hxs.
        exists rest. by rewrite <- (assoc_L (++)). }
  intros setup_futures2. repeat hstep; hside ltac:(cross_solve).
Qed.

(** X6: the per-rank environments are sent exactly as
    [finalize_registration] returned them: one request for each item of
    [all_info], in its order, to the rank the item names and with the
    item's environment; [on_start] does not check that rank against the
    worker group.  The requests made are always an initial part of that
    list, and all of it when [on_start] returns; none is made before
    [finalize_registration] has returned. *)
Theorem on_start_sends_all_info_in_order
    (w : Oracle RayE) (g : Globals) worker_group backend_config s :
  ((all_infos (trace (run w (on_start g worker_group backend_config) s [])) = [] /\
    cross_calls (trace (run w (on_start g worker_group backend_config) s [])) = []) \/
   (exists info,
      all_infos (trace (run w (on_start g worker_group backend_config) s [])) = [info] /\
      cross_calls (trace (run w (on_start g worker_group backend_config) s []))
        `prefix_of` info)) /\
  (result (run w (on_start g worker_group backend_config) s []) = Returned tt ->
   all_infos (trace (run w (on_start g worker_group backend_config) s []))
   = [cross_calls (trace (run w (on_start g worker_group backend_config) s []))]).
Proof.
  pose proof (on_start_cross g worker_group backend_config) as Ht.
  eapply (triple_run _ _ _ _ w [] s) in Ht as [Hq Hx]; [|done].
  split.
  - unfold all_infos, cross_calls. destruct (result _) as [u|x] eqn:Hres.
    + destruct (Hq u eq_refl) as (info & Ha & Hb & _). right. exists info.
      by rewrite Ha, Hb.
    + destruct (Hx x eq_refl) as (a & b & (Ha & Hb & _) & Hshape). rewrite Ha, Hb.
      destruct Hshape as [[-> ->]|(info & -> & Hpre)]; [by left|right; by exists info].
  - intros Hres. destruct (Hq tt Hres) as (info & Ha & Hb & _).
    unfold all_infos, cross_calls. by rewrite Ha, Hb.
Qed.

Lemma on_start_sends_all_info_in_order_witness :
  all_infos (trace (run example_world (on_start (import_horovod true) example_group 0%nat)
                      example_state []))
  = [cross_calls
       (trace (run example_world (on_start (import_horovod true) example_group 0%nat)
                 example_state []))].
Proof.
  apply (on_start_sends_all_info_in_order example_world (import_horovod true)
           example_group 0%nat example_state).
  reflexivity.
Defined.

(** ** Configuration objects and the worker environment *)

(** X7: constructing a [HorovodConfig] makes no external call, leaves the
    backend and every existing configuration object as they were, whether
    the guard raises or not, and two constructions in a row give two
    different objects. *)
Theorem HorovodConfig_new_leaves_existing_objects
    (w : Oracle RayE) (g : Globals) nics_arg verbose_arg nics_arg' verbose_arg' s h :
  trace (run w (HorovodConfig_new g nics_arg verbose_arg) s h) = h /\
  self (final (run w (HorovodConfig_new g nics_arg verbose_arg) s h)) = self s /\
  (forall l, is_Some (heap s !! l) ->
     heap (final (run w (HorovodConfig_new g nics_arg verbose_arg) s h)) !! l
     = heap s !! l) /\
  (forall this this',
     result (run w (HorovodConfig_new g nics_arg verbose_arg) s h) = Returned this ->
     result (run w (HorovodConfig_new g nics_arg' verbose_arg')
               (final (run w (HorovodConfig_new g nics_arg verbose_arg) s h)) h)
     = Returned this' ->
     this <> this').
Proof.
  unfold HorovodConfig_new, __post_init__, result, final, trace.
  destruct g as [[c|] dn ne]; simpl.
  - split; [done|]. split; [done|]. split.
    + intros l Hl. apply lookup_insert_ne. intros <-.
      apply elem_of_dom in Hl. by apply is_fresh in Hl.
    + intros this this' [= <-] [= <-] Heq.
      pose proof (is_fresh (dom (<[fresh (dom (heap s)) :=
        {| nics := default None nics_arg; verbose := default 1 verbose_arg |}]> (heap s))))
        as Hfresh.
      apply Hfresh. rewrite <- Heq at 1. rewrite dom_insert. set_solver.
  - split; [done|]. split; [done|]. split; [|done].
    intros l Hl. apply lookup_insert_ne. intros <-.
    apply elem_of_dom in Hl. by apply is_fresh in Hl.
Qed.

Lemma HorovodConfig_new_leaves_existing_objects_witness :
  heap (final (run example_world (HorovodConfig_new (import_horovod true) None (Some 2))
                 example_state [])) !! 0%nat
  = heap example_state !! 0%nat.
Proof.
  apply (HorovodConfig_new_leaves_existing_objects example_world (import_horovod true)
           None (Some 2) None None example_state []).
  by eexists.
Defined.

(** X8: a later [init_env_vars] that returns overrides an earlier one
    completely, whether the earlier one returned or not: the environment
    after both calls is the one after the later call alone, and it does
    not depend on what the three variables held before.  A later call
    whose node id holds a NUL byte raises [ValueError] and leaves the
    environment as the earlier call left it.  Whether a call returns does
    not depend on the environment. *)
Theorem init_env_vars_last_call_wins
    (w : Oracle RayE) (rank1 size1 rank2 size2 : Z) (node1 node2 : string)
    (environ : Environ) :
  (result (run w (init_env_vars rank2 size2 node2) environ []) = Returned tt ->
   final (run w (init_env_vars rank2 size2 node2)
            (final (run w (init_env_vars rank1 size1 node1) environ [])) [])
   = final (run w (init_env_vars rank2 size2 node2) environ []) /\
   final (run w (init_env_vars rank2 size2 node2)
            (delete "HOROVOD_HOSTNAME"
               (delete "HOROVOD_RANK" (delete "HOROVOD_SIZE" environ))) [])
   = final (run w (init_env_vars rank2 size2 node2) environ [])) /\
  (embedded_null node2 = true ->
   result (run w (init_env_vars rank2 size2 node2)
             (final (run w (init_env_vars rank1 size1 node1) environ [])) [])
   = Raised (ValueError "embedded null byte") /\
   final (run w (init_env_vars rank2 size2 node2)
            (final (run w (init_env_vars rank1 size1 node1) environ [])) [])
   = final (run w (init_env_vars rank1 size1 node1) environ [])) /\
  (forall environ' : Environ,
     result (run w (init_env_vars rank2 size2 node2) environ' [])
     = result (run w (init_env_vars rank2 size2 node2) environ [])).
Proof.
  split; [|split].
  - rewrite !init_env_vars_run.
    destruct (embedded_null node2); [done|].
    destruct (decide (10 ^ int_max_str_digits <= Z.abs rank2)); [done|].
    destruct (decide (10 ^ int_max_str_digits <= Z.abs size2)); [done|].
    intros _. unfold final. cbn [fst snd]. split; apply map_eq; intros k.
    + destruct (decide (k = "HOROVOD_SIZE")) as [->|?]; [by simplify_map_eq|].
      destruct (decide (k = "HOROVOD_RANK")) as [->|?]; [by simplify_map_eq|].
      destruct (decide (k = "HOROVOD_HOSTNAME")) as [->|?]; [by simplify_map_eq|].
      rewrite !lookup_insert_ne by done.
      destruct (embedded_null node1); [done|].
      repeat (destruct (decide (10 ^ int_max_str_digits <= _));
              [cbn [fst snd]; by rewrite ?lookup_insert_ne by done|]).
      cbn [fst snd]. by rewrite !lookup_insert_ne by done.
    + destruct (decide (k = "HOROVOD_SIZE")) as [->|?]; [by simplify_map_eq|].
      destruct (decide (k = "HOROVOD_RANK")) as [->|?]; [by simplify_map_eq|].
      destruct (decide (k = "HOROVOD_HOSTNAME")) as [->|?]; by simplify_map_eq.
  - intros Hnul. rewrite (init_env_vars_run w rank2 size2 node2), Hnul. done.
  - intros environ'. rewrite !init_env_vars_run.
    destruct (embedded_null node2); [done|].
    by repeat (destruct (decide (10 ^ int_max_str_digits <= _)); [done|]).
Qed.

Lemma init_env_vars_last_call_wins_witness :
  final (run example_world (init_env_vars 2 16 "node-b")
           (final (run example_world (init_env_vars 0 3 "node-a")
                     {["PATH" := "/usr/bin"]} [])) [])
  = final (run example_world (init_env_vars 2 16 "node-b") {["PATH" := "/usr/bin"]} []).
Proof.
  apply (proj1 (init_env_vars_last_call_wins example_world 0 3 2 16 "node-a" "node-b"
                  {["PATH" := "/usr/bin"]})).
  rewrite init_env_vars_run. change (embedded_null "node-b") with false. cbv iota.
  destruct (decide (10 ^ int_max_str_digits <= Z.abs 2)) as [Hle|_];
    [exfalso; revert Hle; by vm_compute|].
  destruct (decide (10 ^ int_max_str_digits <= Z.abs 16)) as [Hle|_];
    [exfalso; revert Hle; by vm_compute|].
  reflexivity.
Defined.
End HorovodMore.


(** * More properties of the ingestion example *)

Section IngestMore.
Import Ingest.
Implicit Types (h : list (Entry IngestE)) (s : unit).

Ltac hunfold ::=
  unfold Ingest.create_shuffle_pipeline, Ingest.create_large_shuffle_pipeline,
    Ingest.Small.generate_example_files, Ingest.start_workers, Ingest.train_all.

(** ** Division by the number of columns *)

Lemma create_large_shuffle_pipeline_may_raise data_size_bytes num_epochs num_columns
    num_shards x :
  may_raise (create_large_shuffle_pipeline data_size_bytes num_epochs num_columns
               num_shards) x ->
  x = ZeroDivisionError /\ num_columns = 0.
Proof.
  unfold create_large_shuffle_pipeline, floordiv. simpl. intros [r Hm].
  destruct (decide (8 = 0)) as [|_]; [done|]. simpl in Hm.
  destruct (decide (num_columns = 0)) as [->|_]; simpl in Hm; [by destruct Hm|].
  by destruct Hm as (? & ? & ? & ? & ?).
Qed.

(** X9: with [num_columns = 0], [create_large_shuffle_pipeline] never
    returns and never calls [read_datasource]: it constructs the
    datasource and, when that returns, raises [ZeroDivisionError]. *)
Theorem create_large_shuffle_pipeline_zero_columns
    (w : Oracle IngestE) data_size_bytes num_epochs num_columns num_shards s :
  num_columns = 0 ->
  exists o,
    trace (run w (create_large_shuffle_pipeline data_size_bytes num_epochs num_columns
                    num_shards) s []) = [Log RandomIntRowDatasource o] /\
    result (run w (create_large_shuffle_pipeline data_size_bytes num_epochs num_columns
                     num_shards) s [])
    = match o with
      | Returned _ => Raised ZeroDivisionError
      | Raised y => Raised y
      end.
Proof.
  intros ->. unfold create_large_shuffle_pipeline, floordiv, result, trace. simpl.
  destruct (w [] Obj RandomIntRowDatasource) as [r|y]; simpl; by eexists.
Qed.

Lemma create_large_shuffle_pipeline_zero_columns_witness :
  exists o,
    trace (run example_world (create_large_shuffle_pipeline 1000 5 0 4) tt [])
    = [Log RandomIntRowDatasource o] /\
    result (run example_world (create_large_shuffle_pipeline 1000 5 0 4) tt [])
    = match o with
      | Returned _ => Raised ZeroDivisionError
      | Raised y => Raised y
      end.
Proof.
  apply (create_large_shuffle_pipeline_zero_columns example_world 1000 5 0 4 tt).
  reflexivity.
Defined.

(** X10: [create_large_shuffle_pipeline] raises by itself only
    [ZeroDivisionError], and only when [num_columns] is zero; anything
    else it raises is the exception of the call it made last. *)
Theorem create_large_shuffle_pipeline_raises_by_itself_only_on_zero_columns
    (w : Oracle IngestE) data_size_bytes num_epochs num_columns num_shards s x :
  result (run w (create_large_shuffle_pipeline data_size_bytes num_epochs num_columns
                   num_shards) s []) = Raised x ->
  (x = ZeroDivisionError /\ num_columns = 0) \/
  exists h' R (e : IngestE R),
    trace (run w (create_large_shuffle_pipeline data_size_bytes num_epochs num_columns
                    num_shards) s []) = h' ++ [Log e (Raised x)].
Proof.
  intros Hres. destruct (run_raised w _ s [] x Hres) as [Hl|[Hm _]]; [by right|left].
  by apply create_large_shuffle_pipeline_may_raise in Hm.
Qed.

Lemma create_large_shuffle_pipeline_raises_by_itself_only_on_zero_columns_witness :
  (ZeroDivisionError = ZeroDivisionError /\ 0 = 0) \/
  exists h' R (e : IngestE R),
    trace (run example_world (create_large_shuffle_pipeline 1000 5 0 4) tt [])
    = h' ++ [Log e (Raised ZeroDivisionError)].
Proof.
  apply (create_large_shuffle_pipeline_raises_by_itself_only_on_zero_columns
           example_world 1000 5 0 4 tt).
  reflexivity.
Defined.

Lemma rows_bound size columns :
  0 < columns ->
  8 * columns * ((size `div` 8) `div` columns) <= size
  < 8 * columns * ((size `div` 8) `div` columns + 1).
Proof.
  intros Hc. rewrite Z.div_div by lia.
  pose proof (Z.mul_div_le size (8 * columns)).
  pose proof (Z.mul_succ_div_gt size (8 * columns)). lia.
Qed.

(** X11: with a positive number of columns, the rows either pipeline asks
    for hold at most the requested bytes, and less than one row short of
    them: [8 * columns * n <= size < 8 * columns * (n + 1)] for every row
    count [n] passed to [read_datasource]. *)
Theorem rows_requested_fit_the_size
    (w : Oracle IngestE) data_size_bytes num_epochs num_columns num_shards s :
  0 < num_columns ->
  Forall (fun n => 8 * num_columns * n <= data_size_bytes < 8 * num_columns * (n + 1))
    (rows_requested
       (trace (run w (create_large_shuffle_pipeline data_size_bytes num_epochs
                        num_columns num_shards) s []))) /\
  Forall (fun n => 8 * Small.NUM_COLUMNS * n <= data_size_bytes
                   < 8 * Small.NUM_COLUMNS * (n + 1))
    (rows_requested (trace (run w (Small.generate_example_files data_size_bytes) s []))).
Proof.
  intros Hc. split.
  - pose proof (create_large_shuffle_pipeline_rows data_size_bytes num_epochs
                  num_columns num_shards) as Ht.
    eapply (triple_run _ _ _ _ w [] s) in Ht as [Hq Hx]; [|done].
    assert (Hall : Forall (eq ((data_size_bytes `div` 8) `div` num_columns))
      (rows_requested
         (trace (run w (create_large_shuffle_pipeline data_size_bytes num_epochs
                          num_columns num_shards) s [])))).
    { destruct (result _) as [u|x] eqn:Hres; [|by apply (Hx x)].
      rewrite (Hq u eq_refl). by repeat constructor. }
    eapply Forall_impl; [exact Hall|]. intros n <-. by apply rows_bound.
  - pose proof (generate_example_files_rows data_size_bytes) as Ht.
    eapply (triple_run _ _ _ _ w [] s) in Ht as [Hq Hx]; [|done].
    assert (Hall : Forall (eq ((data_size_bytes `div` 8) `div` Small.NUM_COLUMNS))
      (rows_requested (trace (run w (Small.generate_example_files data_size_bytes) s [])))).
    { destruct (result _) as [u|x] eqn:Hres; [|by apply (Hx x)].
      rewrite (Hq u eq_refl). by repeat constructor. }
    eapply Forall_impl; [exact Hall|]. intros n <-. by apply rows_bound.
Qed.

Lemma rows_requested_fit_the_size_witness :
  Forall (fun n => 8 * 3 * n <= 1000 < 8 * 3 * (n + 1))
    (rows_requested
       (trace (run example_world (create_large_shuffle_pipeline 1000 5 3 4) tt []))).
Proof.
  apply (rows_requested_fit_the_size example_world 1000 5 3 4 tt). lia.
Defined.

(** ** The lines both branches share *)

Lemma run_invariant {E S A} (p : Prog E S A) (I : list (Entry E) -> Prop)
    (w : Oracle E) (st : S) :
  triple (fun t _ => t = []) p (fun _ t _ => I t) (fun t _ => I t) ->
  I (trace (run w p st [])).
Proof.
  intros Ht. specialize (Ht w [] st eq_refl). unfold trace.
  by destruct (run w p st []) as [[t' st'] [a|x]].
Qed.

Ltac keeps H :=
  idtac; intros; hdestruct; repeat (apply H; [|reflexivity]); assumption.

(** An invariant that every training call preserves holds throughout. *)
Lemma timed_training_keeps (I : list (Entry IngestE) -> Prop) cls splits :
  (forall h e, I h -> training_call e = true -> I (h ++ [e])) ->
  triple (fun h _ => I h) (timed_training cls splits) (fun _ h _ => I h) (fun h _ => I h).
Proof.
  intros Hstep. unfold timed_training, start_workers, train_all.
  eapply triple_bind with (Q' := fun _ h _ => I h).
  { apply triple_loop with (I := fun _ _ h _ => I h); [done| |done].
    intros seen [rank shard] rest acc _. repeat hstep; keeps Hstep. }
  intros ws. hstep; [|keeps Hstep].
  eapply triple_bind with (Q' := fun _ h _ => I h).
  { eapply triple_bind with (Q' := fun _ h _ => I h).
    - apply triple_loop with (I := fun _ _ h _ => I h); [keeps Hstep| |done].
      intros seen x rest acc _. repeat hstep; keeps Hstep.
    - intros refs. repeat hstep; keeps Hstep. }
  intros []. repeat hstep; keeps Hstep.
Qed.

(** ** Files *)

Ltac files_solve :=
  idtac; intros; hdestruct;
  first [ solve [observed_inner]
        | solve [eexists; observed_inner]
        | solve [eexists _, _, _; split; [observed_inner|by left]]
        | solve [eexists _, _, _; split; [observed_inner|right; by eexists]] ].

Lemma small_run_files :
  triple (fun h s => h = [])
    Small.run
    (fun _ h _ => exists d,
       observed tmpdir_made parquet_written parquet_read [d] [d] [d] h)
    (fun h _ => exists a b c,
       observed tmpdir_made parquet_written parquet_read a b c h /\
       (c = [] \/ exists d, a = [d] /\ b = [d] /\ c = [d])).
Proof.
  unfold Small.run. repeat hstep; hside ltac:(files_solve).
  lazymatch goal with
  | |- triple _ (bind (for_ (enumerate ?splits) _ _) _) _ _ =>
      eapply triple_conseq;
      [apply (timed_training_keeps
                (fun h => exists d,
                   observed tmpdir_made parquet_written parquet_read [d] [d] [d] h)
                TrainingWorker splits)| | |]
  end.
  - intros h e [d Hd] He. exists d.
    eapply observed_snoc; [exact Hd|..]; by destruct e as [R [] o].
  - files_solve.
  - done.
  - intros h s [d Hd]. eexists _, _, _. split; [exact Hd|]. right. by eexists.
Qed.

Lemma main_triple (large_scale_test : bool)
    (P : list (Entry IngestE) -> unit -> Prop) Q X :
  triple P (if large_scale_test then Large.run else Small.run) Q X ->
  triple P (main large_scale_test) Q X.
Proof.
  unfold main. destruct large_scale_test; cbn [negb bind]; [done|].
  intros Ht. eapply triple_bind; [exact Ht|]. intros []. by apply triple_ret.
Qed.

(** X12: the small run reads Parquet files only from the directory that
    [mkdtemp] returned, and only after [write_parquet] to that directory
    has returned; a run that returns has made, written and read exactly
    one directory. *)
Theorem small_run_reads_the_directory_it_wrote (w : Oracle IngestE) s :
  (forall path,
     path ∈ parquets_read (trace (run w (main false) s [])) ->
     tmpdirs_made (trace (run w (main false) s [])) = [path] /\
     parquets_written (trace (run w (main false) s [])) = [path] /\
     parquets_read (trace (run w (main false) s [])) = [path]) /\
  (result (run w (main false) s []) = Returned tt ->
   length (parquets_read (trace (run w (main false) s []))) = 1%nat).
Proof.
  pose proof (main_triple false _ _ _ small_run_files) as Ht.
  eapply (triple_run _ _ _ _ w [] s) in Ht as [Hq Hx]; [|done].
  split.
  - intros path Hpath.
    assert (Hall : exists a b c,
      observed tmpdir_made parquet_written parquet_read a b c
        (trace (run w (main false) s [])) /\
      (c = [] \/ exists d, a = [d] /\ b = [d] /\ c = [d])).
    { destruct (result _) as [u|x] eqn:Hres; [|by apply (Hx x)].
      destruct (Hq u eq_refl) as (d & Hobs).
      eexists _, _, _. split; [exact Hobs|]. right. by eexists. }
    destruct Hall as (a & b & c & (Ha & Hb & Hc) & Hshape).
    unfold tmpdirs_made, parquets_written, parquets_read in *.
    rewrite Ha, Hb, Hc. rewrite Hc in Hpath.
    destruct Hshape as [->|(d & -> & -> & ->)]; [by apply elem_of_nil in Hpath|].
    by apply list_elem_of_singleton in Hpath as ->.
  - intros Hres. destruct (Hq tt Hres) as (d & (_ & _ & Hc)).
    unfold parquets_read. by rewrite Hc.
Qed.

Lemma small_run_reads_the_directory_it_wrote_witness :
  tmpdirs_made (trace (run example_world (main false) tt [])) = ["/tmp/tmpq2x"] /\
  parquets_written (trace (run example_world (main false) tt [])) = ["/tmp/tmpq2x"] /\
  parquets_read (trace (run example_world (main false) tt [])) = ["/tmp/tmpq2x"].
Proof.
  apply (proj1 (small_run_reads_the_directory_it_wrote example_world tt) "/tmp/tmpq2x").
  vm_compute. left.
Defined.

Ltac all_solve :=
  idtac; intros; hdestruct;
  repeat first [ assumption
               | apply Forall_nil_2
               | apply Forall_app; split
               | apply Forall_cons_2; [reflexivity|] ].

Lemma large_run_no_files :
  triple (fun h s => h = [])
    Large.run
    (fun _ h _ => Forall (fun e => touches_files e = false) h)
    (fun h _ => Forall (fun e => touches_files e = false) h).
Proof.
  unfold Large.run. repeat hstep; hside ltac:(all_solve).
  lazymatch goal with
  | |- triple _ (bind (for_ (enumerate ?splits) _ _) _) _ _ =>
      eapply triple_conseq;
      [apply (timed_training_keeps (Forall (fun e => touches_files e = false))
                (TrainingWorker_options 1) splits)| | |]
  end.
  - intros h e Hh He. apply Forall_app. split; [done|].
    constructor; [|done]. by destruct e as [R [] o].
  - all_solve.
  - done.
  - done.
Qed.

Lemma small_run_no_spread :
  triple (fun h s => h = [])
    Small.run
    (fun _ h _ => Forall (fun e => spreads e = false) h)
    (fun h _ => Forall (fun e => spreads e = false) h).
Proof.
  unfold Small.run. repeat hstep; hside ltac:(all_solve).
  lazymatch goal with
  | |- triple _ (bind (for_ (enumerate ?splits) _ _) _) _ _ =>
      eapply triple_conseq;
      [apply (timed_training_keeps (Forall (fun e => spreads e = false))
                TrainingWorker splits)| | |]
  end.
  - intros h e Hh He. apply Forall_app. split; [done|].
    constructor; [|done]. by destruct e as [R [] o].
  - all_solve.
  - done.
  - done.
Qed.

(** X13: the large-scale run never creates, writes or reads a file, and
    the small run never passes [_spread_resource_prefix], whatever the
    calls answer. *)
Theorem main_large_touches_no_file_small_spreads_nothing
    (w : Oracle IngestE) (large_scale_test : bool) s :
  Forall (fun e => (if large_scale_test then touches_files e else spreads e) = false)
    (trace (run w (main large_scale_test) s [])).
Proof.
  apply run_invariant. apply main_triple. destruct large_scale_test.
  - apply large_run_no_files.
  - apply small_run_no_spread.
Qed.

(** ** The timeline of the training *)

Lemma timeline_snoc h e : timeline (h ++ [e]) = timeline h ++ option_list (event e).
Proof. unfold timeline. rewrite omap_app. simpl. by destruct (event e). Qed.

Lemma length_enumerate {A} (l : list A) : length (enumerate l) = length l.
Proof. unfold enumerate. by rewrite length_imap. Qed.

Lemma started_nil cls : started_run cls [].
Proof.
  exists [], [], [], (Handle 0), (Handle 0). split; [done|]. split; [done|].
  apply prefix_nil.
Qed.

Lemma started_created cls splits (seen rest : list (nat * Obj)) acc :
  enumerate splits = seen ++ rest -> length acc = length seen ->
  started_run cls
    ([Built splits]
       ++ zip_with (fun '(rank, shard) worker => Created cls (Z.of_nat rank) shard worker)
            seen acc).
Proof.
  intros Hsplits Hlen.
  exists splits, (acc ++ replicate (length rest) (Handle 0)),
    (replicate (length splits) (Handle 0)), (Handle 0), (Handle 0).
  assert (Hws : length (acc ++ replicate (length rest) (Handle 0)) = length splits).
  { rewrite <- (length_enumerate splits), Hsplits, !length_app, length_replicate. lia. }
  split; [done|]. split; [by rewrite length_replicate|].
  unfold training_run, creations. rewrite Hsplits, zip_with_app by done.
  apply prefix_app. by do 2 apply prefix_app_r.
Qed.

Lemma started_asked cls splits ws start seen refs rest :
  length ws = length splits -> ws = seen ++ rest -> length refs = length seen ->
  started_run cls
    ([Built splits] ++ creations cls splits ws ++ [Clock start]
       ++ zip_with Asked seen refs).
Proof.
  intros Hws -> Hlen.
  exists splits, (seen ++ rest), (refs ++ replicate (length rest) (Handle 0)), start,
    (Handle 0).
  split; [done|]. split; [rewrite !length_app, length_replicate; lia|].
  unfold training_run. rewrite zip_with_app by done.
  do 3 apply prefix_app. by do 2 apply prefix_app_r.
Qed.

Lemma started_waited cls splits ws refs start :
  length ws = length splits -> length refs = length ws ->
  started_run cls
    ([Built splits] ++ creations cls splits ws ++ [Clock start]
       ++ zip_with Asked ws refs ++ [Waited refs]).
Proof.
  intros Hws Hlen. exists splits, ws, refs, start, (Handle 0).
  split; [done|]. split; [done|].
  unfold training_run. do 4 apply prefix_app. apply prefix_cons, prefix_nil.
Qed.

Lemma started_all cls splits ws refs start now :
  length ws = length splits -> length refs = length ws ->
  started_run cls (training_run cls splits ws refs start now).
Proof. intros Hws Hlen. by exists splits, ws, refs, start, now. Qed.

Ltac timeline_eq H :=
  rewrite ?timeline_snoc, H; unfold training_run; rewrite ?app_nil_r;
  repeat (progress (simpl; rewrite ?app_nil_r, <- ?(assoc_L (++)))).

Lemma timed_training_timeline cls splits :
  triple (fun h _ => timeline h = [Built splits])
    (timed_training cls splits)
    (fun _ h _ => exists ws refs start now,
       length ws = length splits /\ length refs = length ws /\
       timeline h = training_run cls splits ws refs start now)
    (fun h _ => started_run cls (timeline h)).
Proof.
  unfold timed_training, start_workers, train_all.
  eapply triple_bind with
    (Q' := fun ws h _ =>
       length ws = length splits /\
       timeline h = [Built splits] ++ creations cls splits ws).
  { apply triple_loop with
      (I := fun seen acc h _ =>
         length acc = length seen /\
         timeline h
         = [Built splits]
             ++ zip_with (fun '(rank, shard) worker =>
                            Created cls (Z.of_nat rank) shard worker) seen acc).
    - done.
    - intros seen [rank shard] rest acc Hsplits. repeat hstep.
      + intros h s (h0 & [Hlen Hh] & ->).
        split; [rewrite !length_app; simpl; lia|].
        rewrite zip_with_app by done. by timeline_eq Hh.
      + intros h s x [Hlen Hh]. timeline_eq Hh.
        by apply (started_created cls splits seen ((rank, shard) :: rest) acc).
    - intros acc h s [Hlen Hh]. split; [by rewrite Hlen, length_enumerate|done]. }
  intros ws. hstep.
  2:{ intros h s x [Hws Hh]. timeline_eq Hh.
      apply (started_created cls splits (enumerate splits) [] ws);
        [by rewrite app_nil_r|by rewrite length_enumerate]. }
  rename r into start.
  eapply triple_bind with
    (Q' := fun _ h _ => exists refs,
       length ws = length splits /\ length refs = length ws /\
       timeline h = [Built splits] ++ creations cls splits ws ++ [Clock start]
                      ++ zip_with Asked ws refs ++ [Waited refs]).
  { eapply triple_bind with
      (Q' := fun refs h _ =>
         length ws = length splits /\ length refs = length ws /\
         timeline h = [Built splits] ++ creations cls splits ws ++ [Clock start]
                        ++ zip_with Asked ws refs).
    - apply triple_loop with
        (I := fun seen acc h _ =>
           length ws = length splits /\ length acc = length seen /\
           timeline h = [Built splits] ++ creations cls splits ws ++ [Clock start]
                          ++ zip_with Asked seen acc).
      + intros h s (h0 & [Hws Hh] & ->). split; [done|]. split; [done|].
        by timeline_eq Hh.
      + intros seen x rest acc Hsplit. repeat hstep.
        * intros h s (h0 & (Hws & Hlen & Hh) & ->). split; [done|].
          split; [rewrite !length_app; simpl; lia|].
          rewrite zip_with_app by done. by timeline_eq Hh.
        * intros h s y (Hws & Hlen & Hh). rewrite timeline_snoc, Hh. simpl.
          rewrite app_nil_r.
          by apply (started_asked cls splits ws start seen acc (x :: rest)).
      + done.
    - intros refs. repeat hstep.
      + intros h s (h0 & (Hws & Hlen & Hh) & ->). exists refs.
        split; [done|]. split; [done|]. by timeline_eq Hh.
      + intros h s y (Hws & Hlen & Hh). rewrite timeline_snoc, Hh. simpl.
        rewrite <- !(assoc_L (++)). by apply started_waited. }
  intros []. hstep.
  - rename r into now. repeat hstep.
    + intros h s (h0 & (h1 & (refs & Hws & Hlen & Hh) & ->) & ->).
      exists ws, refs, start, now. split; [done|]. split; [done|]. by timeline_eq Hh.
    + intros h s y (h1 & (refs & Hws & Hlen & Hh) & ->).
      assert (Htl : timeline ((h1 ++ [Log TimeTime (Returned now)])
                                ++ [Log (PrintLine (TotalIngestionTime now start))
                                      (Raised y)])
                    = training_run cls splits ws refs start now) by (by timeline_eq Hh).
      rewrite Htl. by apply started_all.
  - intros h s y (refs & Hws & Hlen & Hh). rewrite timeline_snoc, Hh. simpl.
    rewrite app_nil_r. by apply started_waited.
Qed.

Ltac quiet_timeline :=
  idtac; intros; hdestruct; unfold timeline; rewrite ?omap_app; simpl;
  first [ reflexivity | apply started_nil ].

Lemma main_timeline (large_scale_test : bool) :
  triple (fun h s => h = [])
    (main large_scale_test)
    (fun _ h _ => exists splits ws refs start now,
       length ws = length splits /\ length refs = length ws /\
       timeline h
       = training_run (worker_class (config large_scale_test)) splits ws refs start now)
    (fun h _ => started_run (worker_class (config large_scale_test)) (timeline h)).
Proof.
  apply main_triple. destruct large_scale_test.
  - unfold Large.run. repeat hstep; hside ltac:(quiet_timeline).
    lazymatch goal with
    | |- triple _ (bind (for_ (enumerate ?splits) _ _) _) _ _ =>
        eapply triple_conseq;
        [apply (timed_training_timeline (TrainingWorker_options 1) splits)
        |quiet_timeline
        |intros _ h s (ws & Hq); by exists splits, ws
        |done]
    end.
  - unfold Small.run. repeat hstep; hside ltac:(quiet_timeline).
    lazymatch goal with
    | |- triple _ (bind (for_ (enumerate ?splits) _ _) _) _ _ =>
        eapply triple_conseq;
        [apply (timed_training_timeline TrainingWorker splits)
        |quiet_timeline
        |intros _ h s (ws & Hq); by exists splits, ws
        |done]
    end.
Qed.

(** X14: in either branch, from [split] on: the shards [split] returned
    each get one actor, created in the shards' order with the selected
    class, the shard's index as rank and the shard itself; then the clock
    is read; then every created actor is asked once to train, in the order
    of creation; then [ray.get] is called once on exactly the references
    those requests returned; then the clock is read again and one line is
    printed, with the second reading and the first, in that order.  A run
    that returns has done all of it; a run in which a call raises has done
    an initial part of it. *)
Theorem main_trains_every_worker_once_between_the_clock_readings
    (w : Oracle IngestE) (large_scale_test : bool) s :
  exists splits ws refs start now,
    length ws = length splits /\
    length refs = length ws /\
    timeline (trace (run w (main large_scale_test) s []))
      `prefix_of` training_run (worker_class (config large_scale_test))
                    splits ws refs start now /\
    (result (run w (main large_scale_test) s []) = Returned tt ->
     timeline (trace (run w (main large_scale_test) s []))
     = training_run (worker_class (config large_scale_test)) splits ws refs start now).
Proof.
  pose proof (main_timeline large_scale_test) as Ht.
  eapply (triple_run _ _ _ _ w [] s) in Ht as [Hq Hx]; [|done].
  destruct (result _) as [[]|x] eqn:Hres.
  - destruct (Hq tt eq_refl) as (splits & ws & refs & start & now & Hws & Hlen & Htl).
    exists splits, ws, refs, start, now. rewrite Htl. done.
  - destruct (Hx x eq_refl) as (splits & ws & refs & start & now & Hws & Hlen & Htl).
    by exists splits, ws, refs, start, now.
Qed.

(** ** Where the exceptions of the script come from *)

Lemma no_raise_call {E S A R} (e : E R) (k : R -> Prog E S A) x :
  (forall r, may_raise (k r) x -> False) -> may_raise (Call e k) x -> False.
Proof. intros Hk [r Hr]. eauto. Qed.

Lemma no_raise_bind {E S A B} (p : Prog E S A) (f : A -> Prog E S B) x :
  (may_raise p x -> False) -> (forall a, may_raise (f a) x -> False) ->
  may_raise (bind p f) x -> False.
Proof. intros Hp Hf Hm. apply may_raise_bind in Hm as [|[a Ha]]; eauto. Qed.

Lemma no_raise_for {E S B L} (xs : list B) (body : B -> L -> Prog E S L) acc x :
  (forall y acc', may_raise (body y acc') x -> False) ->
  may_raise (for_ xs body acc) x -> False.
Proof.
  intros Hb Hm. apply may_raise_for in Hm as (y & acc' & _ & Hm). eauto.
Qed.

Ltac no_raise :=
  repeat (hnorm;
          lazymatch goal with
          | |- may_raise (Ret _) _ -> False => by intros []
          | |- may_raise (Call _ _) _ -> False => apply no_raise_call; intros ?
          | |- may_raise (for_ _ _ _) _ -> False =>
              let y := fresh in
              apply no_raise_for; intros y ?;
              lazymatch type of y with
              | (_ * _)%type => destruct y as [? ?]
              | _ => idtac
              end
          | |- may_raise (bind _ _) _ -> False => apply no_raise_bind; [|intros ?]
          | |- may_raise ?p _ -> False =>
              lazymatch p with
              | context [@decide ?P ?d] =>
                  let Hd := fresh in
                  destruct (@decide P d) as [Hd|Hd]; [by vm_compute in Hd|]
              end
          end).

Lemma main_raises_nothing (large_scale_test : bool) x :
  may_raise (main large_scale_test) x -> False.
Proof.
  unfold main. destruct large_scale_test; cbn [negb bind].
  - unfold Large.run. no_raise.
  - apply no_raise_bind; [|by intros []]. unfold Small.run. no_raise.
Qed.

(** X15: the script raises nothing by itself, in either branch: whatever
    it raises is the exception of the call it made last.  In particular
    the divisions by 8 and by the number of columns never fail. *)
Theorem main_raises_only_what_a_call_raised
    (w : Oracle IngestE) (large_scale_test : bool) s x :
  result (run w (main large_scale_test) s []) = Raised x ->
  exists h' R (e : IngestE R),
    trace (run w (main large_scale_test) s []) = h' ++ [Log e (Raised x)].
Proof.
  intros Hres. destruct (run_raised w _ s [] x Hres) as [Hl|[Hm _]]; [done|].
  by apply main_raises_nothing in Hm.
Qed.

Lemma main_raises_only_what_a_call_raised_witness :
  exists h' R (e : IngestE R),
    trace (run failing_world (main false) tt [])
    = h' ++ [Log e (Raised (ExternalError "RayTaskError"))].
Proof.
  apply (main_raises_only_what_a_call_raised failing_world false tt). reflexivity.
Defined.
End IngestMore.


(** * Properties of the training actor *)

Section TrainingProofs.
Import Ingest Training.
Implicit Types (h : list (Entry TrainE)) (s : unit).

Ltac hunfold ::= idtac.

(** Loop rule for [for_enumerate]: [I] holds before each [next], [J]
    after a [next] that yielded, [Qend] once the iterator has ended and
    [Qout] whenever the rounds run out. *)
Lemma triple_for_enumerate fuel next it (body : nat -> Obj -> M bool)
    (I : nat -> list (Entry TrainE) -> unit -> Prop)
    (J : nat -> Obj -> list (Entry TrainE) -> unit -> Prop)
    (Qend Qout X : list (Entry TrainE) -> unit -> Prop) i0 :
  (forall i h s, I i h s -> Qend (h ++ [Log (next it) (Returned None)]) s) ->
  (forall i h s x, I i h s -> X (h ++ [Log (next it) (Raised x)]) s) ->
  (forall i v h s, I i h s -> J i v (h ++ [Log (next it) (Returned (Some v))]) s) ->
  (forall i v,
     triple (J i v) (body i v)
       (fun ended h s => if ended : bool then I (S i) h s else Qout h s) X) ->
  (forall i h s, I i h s -> Qout h s) ->
  triple (I i0) (for_enumerate fuel next it body i0)
    (fun ended h s => if ended : bool then Qend h s else Qout h s) X.
Proof.
  intros Hend Hx Hnext Hbody Hout. revert i0.
  induction fuel as [|fuel IH]; intros i0; simpl.
  - apply triple_ret. intros h s Hh. by eapply Hout.
  - unfold call. cbn [bind]. apply triple_Call.
    + intros [v|].
      * eapply triple_bind.
        { eapply triple_pre; [apply (Hbody i0 v)|].
          intros h s (h0 & Hh & ->). by apply Hnext. }
        intros [|]; [apply IH|by apply triple_ret].
      * apply triple_ret. intros h s (h0 & Hh & ->). by eapply Hend.
    + intros h s x Hh. by eapply Hx.
Qed.

(** ** What a run has printed and requested *)

Lemma epochs_S rank0 n : epochs rank0 (S n) = epochs rank0 n ++ [(rank0, Z.of_nat n)].
Proof. unfold epochs. by rewrite seq_S, fmap_app. Qed.

Lemma training_quiet rank0 a nb nc h e :
  training rank0 a nb nc h ->
  dataset_yielded e = None -> line_printed e = None -> batches_requested e = None ->
  training rank0 a nb nc (h ++ [e]).
Proof.
  intros Hh Hf Hg Hk. eapply observed_snoc; [exact Hh|..].
  - by rewrite Hf, app_nil_r.
  - by rewrite Hg, app_nil_r.
  - by rewrite Hk, app_nil_r.
Qed.

Lemma training_yield rank0 a h it v :
  training rank0 a (length a) (length a) h ->
  training rank0 (a ++ [v]) (length a) (length a)
    (h ++ [Log (NextDataset it) (Returned (Some v))]).
Proof.
  intros Hh. eapply observed_snoc; [exact Hh|..].
  - done.
  - simpl. by rewrite app_nil_r.
  - simpl. by rewrite app_nil_r, take_app_length, take_ge.
Qed.

Lemma training_print rank0 a v h o :
  training rank0 (a ++ [v]) (length a) (length a) h ->
  training rank0 (a ++ [v]) (S (length a)) (length a)
    (h ++ [Log (PrintTraining rank0 (Z.of_nat (length a))) o]).
Proof.
  intros Hh. eapply observed_snoc; [exact Hh|..].
  - simpl. by rewrite app_nil_r.
  - simpl. apply epochs_S.
  - simpl. by rewrite app_nil_r.
Qed.

Lemma training_batches rank0 a v h o :
  training rank0 (a ++ [v]) (S (length a)) (length a) h ->
  training rank0 (a ++ [v]) (length (a ++ [v])) (length (a ++ [v]))
    (h ++ [Log (IterBatches v 25000) o]).
Proof.
  intros Hh. rewrite length_app. simpl. rewrite Nat.add_1_r.
  eapply observed_snoc; [exact Hh|..].
  - simpl. by rewrite app_nil_r.
  - simpl. by rewrite app_nil_r.
  - simpl. rewrite take_app_length, take_ge by (rewrite length_app; simpl; lia).
    unfold batches_of. by rewrite fmap_app.
Qed.

Lemma in_training_between rank0 a h :
  training rank0 a (length a) (length a) h -> in_training rank0 h.
Proof. intros Hh. exists a, (length a), (length a). split; [done|lia]. Qed.

Lemma in_training_yielded rank0 a v h :
  training rank0 (a ++ [v]) (length a) (length a) h -> in_training rank0 h.
Proof.
  intros Hh. exists (a ++ [v]), (length a), (length a).
  rewrite length_app. simpl. split; [done|lia].
Qed.

Lemma in_training_printed rank0 a v h :
  training rank0 (a ++ [v]) (S (length a)) (length a) h -> in_training rank0 h.
Proof.
  intros Hh. exists (a ++ [v]), (S (length a)), (length a).
  rewrite length_app. simpl. split; [done|lia].
Qed.

Lemma train_in_training fuel rank0 shard0 :
  triple (fun h _ => h = [])
    (train fuel (__init__ rank0 shard0))
    (fun ended h _ =>
       if ended : bool then exists a, training rank0 a (length a) (length a) h
       else in_training rank0 h)
    (fun h _ => in_training rank0 h).
Proof.
  unfold train. cbn [rank shard __init__]. hstep.
  2:{ intros h s x ->. apply (in_training_between rank0 []).
      by apply (training_quiet rank0 [] 0 0 []). }
  rename r into datasets. eapply triple_pre.
  { apply triple_for_enumerate with
      (I := fun i h _ => exists a, i = length a /\ training rank0 a (length a) (length a) h)
      (J := fun i v h _ =>
         exists a, i = length a /\ training rank0 (a ++ [v]) (length a) (length a) h)
      (Qend := fun h _ => exists a, training rank0 a (length a) (length a) h)
      (Qout := fun h _ => in_training rank0 h).
    - intros i h s (a & -> & Ha). exists a. by apply training_quiet.
    - intros i h s x (a & -> & Ha). apply (in_training_between rank0 a).
      by apply training_quiet.
    - intros i v h s (a & -> & Ha). exists a. split; [done|]. by apply training_yield.
    - intros i v. hstep.
      2:{ intros h s x (a & -> & Ha). apply (in_training_printed rank0 a v).
          by apply training_print. }
      hstep.
      2:{ intros h s x (h0 & (a & -> & Ha) & ->).
          apply (in_training_between rank0 (a ++ [v])).
          by apply training_batches, training_print. }
      rename r0 into batches0. eapply triple_pre.
      { apply triple_for_enumerate with
          (I := fun _ h _ =>
             exists a, S i = length a /\ training rank0 a (length a) (length a) h)
          (J := fun _ _ h _ =>
             exists a, S i = length a /\ training rank0 a (length a) (length a) h)
          (Qend := fun h _ =>
             exists a, S i = length a /\ training rank0 a (length a) (length a) h)
          (Qout := fun h _ => in_training rank0 h).
        - intros _ h s (a & Hi & Ha). exists a. split; [done|]. by apply training_quiet.
        - intros _ h s x (a & Hi & Ha). apply (in_training_between rank0 a).
          by apply training_quiet.
        - intros _ u h s (a & Hi & Ha). exists a. split; [done|]. by apply training_quiet.
        - intros _ _. by apply triple_ret.
        - intros _ h s (a & Hi & Ha). by apply (in_training_between rank0 a). }
      intros h s (h0 & (h1 & (a & -> & Ha) & ->) & ->). exists (a ++ [v]).
      split; [rewrite length_app; simpl; lia|].
      by apply training_batches, training_print.
    - intros i h s (a & -> & Ha). by apply (in_training_between rank0 a). }
  intros h s (h0 & -> & ->). exists []. split; [done|].
  by apply (training_quiet rank0 [] 0 0 []).
Qed.

(** X16: whatever the iterators yield and however long [train] runs, the
    lines it prints carry the worker's own rank and the epochs 0, 1, 2, ...
    in order, one per dataset the shard has yielded; [iter_batches] is
    called with [batch_size=25000] on those datasets, in the order they
    were yielded, each after its line was printed; and when [train]
    finishes every dataset yielded has been printed and requested. *)
Theorem train_prints_each_epoch_then_requests_its_batches
    (w : Oracle TrainE) fuel rank0 shard0 s :
  lines_printed (trace (run w (train fuel (__init__ rank0 shard0)) s []))
  = epochs rank0
      (length (lines_printed (trace (run w (train fuel (__init__ rank0 shard0)) s [])))) /\
  batch_requests (trace (run w (train fuel (__init__ rank0 shard0)) s []))
  = batches_of
      (take (length (batch_requests
                       (trace (run w (train fuel (__init__ rank0 shard0)) s []))))
         (datasets_yielded (trace (run w (train fuel (__init__ rank0 shard0)) s [])))) /\
  (length (batch_requests (trace (run w (train fuel (__init__ rank0 shard0)) s [])))
   <= length (lines_printed (trace (run w (train fuel (__init__ rank0 shard0)) s []))))%nat /\
  (length (lines_printed (trace (run w (train fuel (__init__ rank0 shard0)) s [])))
   <= length (datasets_yielded
                (trace (run w (train fuel (__init__ rank0 shard0)) s []))))%nat /\
  (length (datasets_yielded (trace (run w (train fuel (__init__ rank0 shard0)) s [])))
   <= S (length (batch_requests
                   (trace (run w (train fuel (__init__ rank0 shard0)) s [])))))%nat /\
  (result (run w (train fuel (__init__ rank0 shard0)) s []) = Returned true ->
   length (batch_requests (trace (run w (train fuel (__init__ rank0 shard0)) s [])))
   = length (datasets_yielded
               (trace (run w (train fuel (__init__ rank0 shard0)) s [])))).
Proof.
  pose proof (train_in_training fuel rank0 shard0) as Ht.
  eapply (triple_run _ _ _ _ w [] s) in Ht as [Hq Hx]; [|done].
  set (t := trace (run w (train fuel (__init__ rank0 shard0)) s [])) in *.
  assert (Hall : in_training rank0 t /\
    (result (run w (train fuel (__init__ rank0 shard0)) s []) = Returned true ->
     exists a, training rank0 a (length a) (length a) t)).
  { destruct (result _) as [[|]|x] eqn:Hres.
    - destruct (Hq true eq_refl) as [a Ha]. split; [|by exists a].
      by apply (in_training_between rank0 a).
    - split; [exact (Hq false eq_refl)|done].
    - split; [exact (Hx x eq_refl)|done]. }
  destruct Hall as [(a & nb & nc & (Ha & Hb & Hc) & Hcb & Hba & Hac) Hend].
  assert (Hlb : length (lines_printed t) = nb).
  { unfold lines_printed. rewrite Hb. unfold epochs.
    by rewrite length_fmap, length_seq. }
  assert (Hlc : length (batch_requests t) = nc).
  { unfold batch_requests. rewrite Hc. unfold batches_of.
    rewrite length_fmap, length_take. lia. }
  assert (Hla : datasets_yielded t = a) by done.
  rewrite Hlb, Hlc, Hla. repeat split; try done.
  intros Hres. destruct (Hend Hres) as (a' & Ha' & _ & Hc').
  unfold training, observed in *. rewrite Ha in Ha'. subst a'.
  rewrite Hc in Hc'. apply (f_equal length) in Hc'. unfold batches_of in Hc'.
  rewrite !length_fmap, !length_take in Hc'. lia.
Qed.

(** ** The calls of a run that ends *)

Lemma epoch_calls_snoc rank0 it (eps : list Epoch) ep :
  concat (imap (epoch_calls rank0 it) (eps ++ [ep]))
  = concat (imap (epoch_calls rank0 it) eps) ++ epoch_calls rank0 it (length eps) ep.
Proof.
  rewrite imap_app, concat_app. simpl. by rewrite Nat.add_0_r, app_nil_r.
Qed.

Lemma train_ends fuel rank0 shard0 :
  triple (fun h _ => h = [])
    (train fuel (__init__ rank0 shard0))
    (fun ended h _ =>
       if ended : bool then exists it eps, h = train_calls rank0 shard0 it eps else True)
    (fun _ _ => True).
Proof.
  unfold train. cbn [rank shard __init__]. hstep; [|done].
  rename r into it. eapply triple_pre.
  { apply triple_for_enumerate with
      (I := fun i h _ => exists eps,
         i = length eps /\
         h = [Log (IterDatasets shard0) (Returned it)]
               ++ concat (imap (epoch_calls rank0 it) eps))
      (J := fun i v h _ => exists eps,
         i = length eps /\
         h = ([Log (IterDatasets shard0) (Returned it)]
                ++ concat (imap (epoch_calls rank0 it) eps))
               ++ [Log (NextDataset it) (Returned (Some v))])
      (Qend := fun h _ => exists it' eps, h = train_calls rank0 shard0 it' eps)
      (Qout := fun _ _ => True).
    - intros i h s (eps & -> & ->). exists it, eps. unfold train_calls.
      by rewrite <- !(assoc_L (++)).
    - done.
    - intros i v h s (eps & -> & ->). by exists eps.
    - intros i v. hstep; [|done]. destruct r as []. hstep; [|done].
      rename r into batches0. eapply triple_conseq.
      { apply triple_for_enumerate with
          (I := fun _ h _ => exists eps bs,
             i = length eps /\
             h = ([Log (IterDatasets shard0) (Returned it)]
                    ++ concat (imap (epoch_calls rank0 it) eps))
                   ++ [Log (NextDataset it) (Returned (Some v));
                       Log (PrintTraining rank0 (Z.of_nat i)) (Returned tt);
                       Log (IterBatches v 25000) (Returned batches0)]
                   ++ ((fun b => Log (NextBatch batches0) (Returned (Some b))) <$> bs))
          (J := fun _ _ h _ => exists eps bs,
             i = length eps /\
             h = ([Log (IterDatasets shard0) (Returned it)]
                    ++ concat (imap (epoch_calls rank0 it) eps))
                   ++ [Log (NextDataset it) (Returned (Some v));
                       Log (PrintTraining rank0 (Z.of_nat i)) (Returned tt);
                       Log (IterBatches v 25000) (Returned batches0)]
                   ++ ((fun b => Log (NextBatch batches0) (Returned (Some b))) <$> bs))
          (Qend := fun h _ => exists eps,
             S i = length eps /\
             h = [Log (IterDatasets shard0) (Returned it)]
                   ++ concat (imap (epoch_calls rank0 it) eps))
          (Qout := fun _ _ => True)
          (X := fun _ _ => True).
        - intros _ h s (eps & bs & -> & ->).
          exists (eps ++ [{| dataset := v; batch_iter := batches0; batches := bs |}]).
          split; [rewrite length_app; simpl; lia|].
          rewrite epoch_calls_snoc. unfold epoch_calls. simpl.
          by rewrite <- !(assoc_L (++)).
        - done.
        - intros _ u h s (eps & bs & -> & ->). exists eps, (bs ++ [u]).
          split; [done|]. rewrite fmap_app. simpl. by rewrite <- !(assoc_L (++)).
        - intros _ _. by apply triple_ret.
        - done. }
      + intros h s (h0 & (h1 & (eps & -> & ->) & ->) & ->). exists eps, [].
        split; [done|]. simpl. by rewrite <- !(assoc_L (++)).
      + by intros [|].
      + done.
    - done. }
  intros h s (h0 & -> & ->). by exists [].
Qed.

(** X17: the calls of a [train] that finishes.  It calls
    [iter_datasets] once, on its own shard; every [next] for a dataset is
    on the iterator that call returned; each epoch is one dataset, one
    line with the worker's rank and the epoch's index, one
    [iter_batches(batch_size=25000)] on that dataset and then [next] on
    the iterator it returned until that iterator ends; nothing else is
    called. *)
Theorem train_that_ends_has_made_the_calls_of_its_epochs
    (w : Oracle TrainE) fuel rank0 shard0 s :
  result (run w (train fuel (__init__ rank0 shard0)) s []) = Returned true ->
  exists it eps,
    trace (run w (train fuel (__init__ rank0 shard0)) s [])
    = train_calls rank0 shard0 it eps.
Proof.
  intros Hres. pose proof (train_ends fuel rank0 shard0) as Ht.
  eapply (triple_run _ _ _ _ w [] s) in Ht as [Hq _]; [|done].
  exact (Hq true Hres).
Qed.

Lemma train_that_ends_has_made_the_calls_of_its_epochs_witness :
  exists it eps,
    trace (run example_world (train 3 (__init__ 7 (Handle 0))) tt [])
    = train_calls 7 (Handle 0) it eps.
Proof.
  apply (train_that_ends_has_made_the_calls_of_its_epochs example_world 3 7 (Handle 0) tt).
  reflexivity.
Defined.
End TrainingProofs.
